(** * rag-service: embedding gateway, example ledger, retrieval, codebase indexer

    A shallow embedding of
    - [src/services/embedding.service.js]       (module [EmbeddingService]),
    - [src/services/qdrant/qdrant.service.ts]   (module [QdrantService]),
    - [src/services/code-retrieval.service.ts]  (modules [CodeRetrievalService]
      and [CodebaseIndexerService]),
    followed by the properties proved about them.

    Conventions of the embedding.
    - A JavaScript [number] that holds a similarity, a threshold or a vector
      component is a real number ([R]): this is the exact arithmetic that the
      binary64 operations of the runtime approximate.  Rounding, overflow,
      underflow and NaN are outside the model, and so is the narrowing of a
      [Float32Array].  Counts, identifiers, line numbers, HTTP status codes
      and millisecond timestamps are integers ([Z], [nat]).
    - An [async] function is a state transformer that returns either a thrown
      error ([inl]) or a value ([inr]) together with the state it leaves behind:
      what was written before a [throw] stays written.
    - Calls to the logger change none of the values and stores modelled here and
      are left out. *)

From stdpp Require Import gmap strings.
From Stdlib Require Import ZArith List String Ascii Bool Lia Reals Lra DecimalString Sorted Permutation.
Import ListNotations.

Local Open Scope string_scope.
Local Open Scope Z_scope.

(** A lemma of a section depends on the variables of its statement only. *)
Set Default Proof Using "Type".

(* ===================================================================== *)
(** * JavaScript values and control flow *)
(* ===================================================================== *)

Module Js.

(** An [Error] object as the code inspects it: [error.message] and the
    optional [error.code] of system errors. *)
Record JsError := mkError { message : string; code : option string }.

(** [new Error(msg)] *)
Definition Error (msg : string) : JsError := {| message := msg; code := None |}.

(** The outcome of evaluating an expression: [inl e] is [throw e]. *)
Definition Result (A : Type) : Type := (JsError + A)%type.

(** An effectful computation over a state [S]. *)
Definition M (S A : Type) : Type := S -> Result A * S.

Definition ret {S A} (a : A) : M S A := fun s => (inr a, s).
Definition throw {S A} (e : JsError) : M S A := fun s => (inl e, s).

Definition bind {S A B} (m : M S A) (k : A -> M S B) : M S B :=
  fun s =>
    match m s with
    | (inr a, s') => k a s'
    | (inl e, s') => (inl e, s')
    end.

(** [try { body } catch (error) { handler(error) }] *)
Definition try_catch {S A} (body : M S A) (handler : JsError -> M S A) : M S A :=
  fun s =>
    match body s with
    | (inr a, s') => (inr a, s')
    | (inl e, s') => handler e s'
    end.

(** Lifting a pure outcome into a computation. *)
Definition lift {S A} (r : Result A) : M S A := fun s => (r, s).

(** [String.prototype.includes] *)
Fixpoint includes (hay needle : string) : bool :=
  if String.prefix needle hay then true
  else match hay with
       | EmptyString => false
       | String _ rest => includes rest needle
       end.

(** The decimal text of an integer inside a template literal. *)
Definition decimal (z : Z) : string := NilZero.string_of_int (Z.to_int z).

(** Truthiness of a string: only the empty string is falsy. *)
Definition truthy (s : string) : bool := negb (String.eqb s "").

(** [x >= y] on numbers. *)
Definition Rgeb (x y : R) : bool := if Rle_dec y x then true else false.

(** [Array.prototype.slice(0, k)] for an integer [k]: a negative [k] counts
    from the end of the array. *)
Definition slice0 {A} (k : Z) (l : list A) : list A :=
  if k <? 0 then firstn (Z.to_nat (Z.of_nat (List.length l) + k)) l
  else firstn (Z.to_nat k) l.

(** [Array.prototype.slice(i, j)] for [0 <= i <= j]. *)
Definition slice {A} (i j : nat) (l : list A) : list A :=
  firstn (j - i) (skipn i l).

(** [Array.prototype.sort(cmp)] where [cmp(a, b) = key(b) - key(a)]: the
    sort of the runtime is stable, so elements with equal keys keep their
    order.  [insert_desc x l] puts [x] in front of the first element whose
    key does not exceed the key of [x]. *)
Fixpoint insert_desc {A} (key : A -> R) (x : A) (l : list A) : list A :=
  match l with
  | [] => [x]
  | y :: l' =>
      if Rlt_dec (key x) (key y) then y :: insert_desc key x l'
      else x :: y :: l'
  end.

Definition sort_desc {A} (key : A -> R) (l : list A) : list A :=
  fold_right (insert_desc key) [] l.

(** [a] may stand in front of [b] in a list sorted by decreasing key. *)
Definition before {A} (key : A -> R) (a b : A) : Prop := (key b <= key a)%R.

End Js.

Module JsNotations.
Notation "x <- m ;; k" := (Js.bind m (fun x => k))
  (at level 100, m at next level, right associativity).
Notation "m ;;; k" := (Js.bind m (fun _ => k))
  (at level 100, right associativity).
End JsNotations.

(* ===================================================================== *)
(** * EmbeddingService (embedding.service.js) *)
(* ===================================================================== *)

Module EmbeddingService.
Import Js JsNotations.

(** The fields set by the constructor.  [maxRetries] is
    [parseInt(RAG_MAX_RETRIES || '3')], a count. *)
Record Config := {
  apiKey : string;
  baseURL : string;
  defaultModel : string;
  maxRetries : nat
}.

Definition defaultConfig : Config := {|
  apiKey := "";
  baseURL := "https://openrouter.ai/api/v1";
  defaultModel := "openai/text-embedding-3-small";
  maxRetries := 3
|}.

(** What [fetch] is called with. *)
Record Request := { url : string; model : string; input : string }.

(** What the code reads from a parsed response body:
    [data.data[0].embedding] and [data.usage?.total_tokens]. *)
Record ApiBody := { body_embedding : list R; total_tokens : option Z }.

(** An HTTP response: [response.status], [await response.text()] and
    [await response.json()], which throws on a malformed body. *)
Record Response := { status : Z; text : string; json : Result ApiBody }.

(** [response.ok] *)
Definition ok (r : Response) : bool := (200 <=? status r) && (status r <=? 299).

Inductive FetchOutcome :=
| Rejects (e : JsError)
| Resolves (r : Response).

(** The remote endpoint: the outcome of the [k]-th request of the process. *)
Definition Network := nat -> Request -> FetchOutcome.

(** What the service leaves behind: the number of requests sent so far and
    the delays waited for, most recent first. *)
Record Net := { requests : nat; sleeps : list Z }.

Definition net0 : Net := {| requests := 0; sleeps := [] |}.

Definition sent (n : Net) : Net :=
  {| requests := S (requests n); sleeps := sleeps n |}.

(** [await new Promise(resolve => setTimeout(resolve, delay))] *)
Definition setTimeout (delay : Z) : M Net unit :=
  fun n => (inr tt, {| requests := requests n; sleeps := delay :: sleeps n |}).

Record EmbeddingResult := {
  embedding : list R;
  tokens : Z;
  result_model : string
}.

(** The test of [retryWithBackoff] on the message of the caught error. *)
Definition isRetryable (error : JsError) : bool :=
  includes (message error) "fetch failed"
  || includes (message error) "ECONNREFUSED"
  || includes (message error) "429"
  || includes (message error) "5".

(** [retryWithBackoff(fn, retries, delay)] *)
Fixpoint retryWithBackoff {A} (fn : M Net A) (retries : nat) (delay : Z) : M Net A :=
  try_catch fn (fun error =>
    match retries with
    | O => throw error
    | S retries' =>
        if negb (isRetryable error) then throw error
        else setTimeout delay ;;; retryWithBackoff fn retries' (delay * 2)
    end).

(** The waits of [retries] retries that start at [delay]. *)
Fixpoint backoff (retries : nat) (delay : Z) : list Z :=
  match retries with
  | O => []
  | S retries' => delay :: backoff retries' (delay * 2)
  end.

Section Api.
Variable cfg : Config.
Variable fetch : Network.

(** The request made for a text. *)
Definition request_of (text0 : string) : Request :=
  {| url := baseURL cfg ++ "/embeddings"; model := defaultModel cfg; input := text0 |}.

(** [await fetch(url, ...)] *)
Definition do_fetch (req : Request) : M Net Response :=
  fun n =>
    match fetch (requests n) req with
    | Rejects e => (inl e, sent n)
    | Resolves r => (inr r, sent n)
    end.

(** The [catch] clause inside the request thunk. *)
Definition rethrow (error : JsError) : JsError :=
  if match code error with
     | Some c => String.eqb c "ConnectionRefused" || String.eqb c "ECONNREFUSED"
     | None => false
     end
  then Error ("Cannot connect to OpenRouter API at " ++ baseURL cfg
              ++ "/embeddings. Please check your network connection and API configuration.")
  else if includes (message error) "401"
  then Error "Invalid OpenRouter API key. Please check your OPENROUTER_API_KEY configuration."
  else if includes (message error) "429"
  then Error "OpenRouter API rate limit exceeded. Please try again later."
  else error.

(** The thunk handed to [retryWithBackoff]: one request. *)
Definition request_once (text0 model0 : string) : M Net EmbeddingResult :=
  try_catch
    (response <- do_fetch {| url := baseURL cfg ++ "/embeddings";
                             model := model0; input := text0 |} ;;
     if negb (ok response)
     then throw (Error ("Embedding API error: " ++ decimal (status response)
                        ++ " - " ++ text response))
     else
       data <- lift (json response) ;;
       ret {| embedding := body_embedding data;
              tokens := match total_tokens data with
                        | Some t => t
                        | None => 0
                        end;
              result_model := model0 |})
    (fun error => throw (rethrow error)).

(** [generateAPIEmbedding(text)], called without options. *)
Definition generateAPIEmbedding (text0 : string) : M Net EmbeddingResult :=
  if negb (truthy (apiKey cfg))
  then throw (Error "OPENROUTER_API_KEY must be configured for API embedding backend")
  else retryWithBackoff (request_once text0 (defaultModel cfg)) (maxRetries cfg) 1000.

(** [generateEmbedding(text)]: the constructor sets [backend] to ['api']. *)
Definition generateEmbedding (text0 : string) : M Net EmbeddingResult :=
  generateAPIEmbedding text0.

(** An endpoint that answers every request for a text [t] with a
    well-formed body that carries the vector [emb t]. *)
Definition answers (emb : string -> list R) : Prop :=
  forall k text0, exists r body,
    fetch k (request_of text0) = Resolves r
    /\ ok r = true
    /\ json r = inr body
    /\ body_embedding body = emb text0.

End Api.

(** The loop of [cosineSimilarity]: [dotProduct], [normA] and [normB] after
    the components seen so far. *)
Definition accumulate (acc : R * R * R) (ab : R * R) : R * R * R :=
  let '(dotProduct, normA, normB) := acc in
  let (x, y) := ab in
  (dotProduct + x * y, normA + x * x, normB + y * y)%R.

Definition sums (a b : list R) : R * R * R :=
  fold_left accumulate (combine a b) (0, 0, 0)%R.

(** The sum of the products of the components of two vectors, which the
    three sums of the loop are instances of. *)
Fixpoint dot (a b : list R) : R :=
  match a, b with
  | x :: a', y :: b' => (x * y + dot a' b')%R
  | _, _ => 0%R
  end.

(** The value returned after the loop. *)
Definition cosine (a b : list R) : R :=
  let '(dotProduct, normA, normB) := sums a b in
  (dotProduct / (sqrt normA * sqrt normB))%R.

(** [cosineSimilarity(a, b)] *)
Definition cosineSimilarity (a b : list R) : Result R :=
  if negb (List.length a =? List.length b)%nat
  then inl (Error "Embeddings must have same dimensions")
  else inr (cosine a b).

(** [candidates.map(f)] for an [f] that may throw: the first throw ends it. *)
Fixpoint map_result {A B} (f : A -> Result B) (l : list A) : Result (list B) :=
  match l with
  | [] => inr []
  | x :: l' =>
      match f x with
      | inl e => inl e
      | inr y =>
          match map_result f l' with
          | inl e => inl e
          | inr ys => inr (y :: ys)
          end
      end
  end.

(** [findMostSimilar(queryEmbedding, candidates, topK, threshold)]; a
    candidate is a pair of its embedding and its data. *)
Definition findMostSimilar {D} (queryEmbedding : list R)
    (candidates : list (list R * D)) (topK : Z) (threshold : R)
    : Result (list (R * D)) :=
  match map_result (fun candidate =>
                      match cosineSimilarity queryEmbedding (fst candidate) with
                      | inl e => inl e
                      | inr similarity => inr (similarity, snd candidate)
                      end) candidates with
  | inl e => inl e
  | inr similarities =>
      inr (slice0 topK
             (sort_desc fst
                (List.filter (fun item => Rgeb (fst item) threshold) similarities)))
  end.

End EmbeddingService.

(* ===================================================================== *)
(** * QdrantService (qdrant/qdrant.service.ts, qdrant/types) *)
(* ===================================================================== *)

Module QdrantService.
Import Js JsNotations.

(** [CodePoint['payload']] *)
Record Payload := {
  task : string;
  code : string;
  chunkType : string;
  language : string;
  framework : option string;
  filePath : option string;
  imports : list string;
  exports : list string;
  patterns : list string;
  success : bool;
  tool : string;
  timestamp : Z;
  codeHash : string
}.

Record SparseVector := { indices : list Z; values : list R }.

Record CodePoint := {
  id : Z;
  dense : list R;
  sparse : option SparseVector;
  payload : Payload
}.

Record SearchResult := {
  result_id : Z;
  score : R;
  result_payload : Payload
}.

(** The conditions the callers put under [must]. *)
Inductive Condition :=
| MatchBool (key : string) (value : bool)
| MatchString (key : string) (value : string).

Record Filter := { must : list Condition }.

Record SearchOptions := { topK : option Z; filter : option Filter }.

Section Client.
(** The collection held by the remote service, and the two calls of the
    client library that the service wraps. *)
Variable Collection : Type.
Variable client_upsert : CodePoint -> M Collection unit.
Variable client_search :
  list R -> Z -> option Filter -> Collection -> Result (list SearchResult).

(** [upsertPoint(point)] *)
Definition upsertPoint (point : CodePoint) : M Collection unit :=
  client_upsert point.

(** [options?.topK || 5] *)
Definition limit_of (options : SearchOptions) : Z :=
  match topK options with
  | Some k => if k =? 0 then 5 else k
  | None => 5
  end.

(** [searchDense(denseVector, options)] *)
Definition searchDense (denseVector : list R) (options : SearchOptions)
    : M Collection (list SearchResult) :=
  fun c => (client_search denseVector (limit_of options) (filter options) c, c).

End Client.

End QdrantService.

(* ===================================================================== *)
(** * CodeRetrievalService (code-retrieval.service.ts) *)
(* ===================================================================== *)

Module CodeRetrievalService.
Import Js JsNotations.
Module E := EmbeddingService.
Module Q := QdrantService.

(** A row of the table [code_examples]. *)
Record Row := {
  id : Z;
  task : string;
  code : string;
  language : string;
  framework : option string;
  tool : string;
  success : Z;
  embedding : list R;
  timestamp : Z;
  error_message : option string;
  error_type : option string
}.

(** The argument of [storeExample]:
    [Omit<CodeExample, 'id' | 'embedding' | 'timestamp'>]. *)
Record Example := {
  ex_task : string;
  ex_code : string;
  ex_language : string;
  ex_framework : option string;
  ex_tool : string;
  ex_success : bool;
  ex_errorMessage : option string;
  ex_errorType : option string
}.

(** [RetrievalResult]: the example without its embedding, and its score. *)
Record Retrieved := {
  r_id : Z;
  r_task : string;
  r_code : string;
  r_language : string;
  r_framework : option string;
  r_tool : string;
  r_success : bool;
  r_timestamp : Z;
  r_errorMessage : option string;
  r_errorType : option string
}.

Record RetrievalResult := { example : Retrieved; similarity : R }.

(** The options of the two retrieval methods. *)
Record Options := {
  opt_tool : option string;
  opt_language : option string;
  opt_errorType : option string;
  opt_topK : option Z;
  opt_threshold : option R
}.

(** [x || null] for an optional string. *)
Definition or_null (x : option string) : option string :=
  match x with
  | Some s => if truthy s then Some s else None
  | None => None
  end.

Section Service.
Variable cfg : E.Config.
Variable fetch : E.Network.
Variable Collection : Type.
Variable client_upsert : Q.CodePoint -> M Collection unit.
Variable client_search :
  list R -> Z -> option Q.Filter -> Collection -> Result (list Q.SearchResult).
(** [parseInt(RAG_TOP_K || '3')] and [parseFloat(RAG_SIMILARITY_THRESHOLD || '0.6')] *)
Variable defaultTopK : Z.
Variable defaultThreshold : R.
(** The clock, and the condition of the database file: [Some e] when a
    statement fails with [e]. *)
Variable Date_now : Z.
Variable sqlite_fault : option JsError.

(** The service: its embedding gateway, the table [code_examples] with
    its AUTOINCREMENT counter, and the collection behind the client. *)
Record State := {
  net : E.Net;
  rows : list Row;
  seq : Z;
  vectors : Collection
}.

Definition on_net {A} (m : M E.Net A) : M State A :=
  fun s =>
    let (r, n) := m (net s) in
    (r, {| net := n; rows := rows s; seq := seq s; vectors := vectors s |}).

Definition on_vectors {A} (m : M Collection A) : M State A :=
  fun s =>
    let (r, c) := m (vectors s) in
    (r, {| net := net s; rows := rows s; seq := seq s; vectors := c |}).

(** The row that the INSERT of [storeExample] writes. *)
Definition example_row (example0 : Example) (insertId : Z) (embedding0 : list R)
    : Row :=
  {| id := insertId;
     task := ex_task example0;
     code := ex_code example0;
     language := ex_language example0;
     framework := or_null (ex_framework example0);
     tool := ex_tool example0;
     success := if ex_success example0 then 1 else 0;
     embedding := embedding0;
     timestamp := Date_now;
     error_message := or_null (ex_errorMessage example0);
     error_type := or_null (ex_errorType example0) |}.

(** [this.db.query(sql).run(...params)] for the INSERT of [storeExample];
    the value is [result.lastInsertRowid]. *)
Definition db_insert (example0 : Example) (embedding0 : list R) : M State Z :=
  fun s =>
    match sqlite_fault with
    | Some e => (inl e, s)
    | None =>
        let insertId := seq s + 1 in
        (inr insertId,
         {| net := net s;
            rows := rows s ++ [example_row example0 insertId embedding0];
            seq := insertId;
            vectors := vectors s |})
    end.

(** The point that mirrors the row in the collection. *)
Definition codePoint (example0 : Example) (insertId : Z) (embedding0 : list R)
    : Q.CodePoint :=
  {| Q.id := insertId;
     Q.dense := embedding0;
     Q.sparse := None;
     Q.payload := {| Q.task := ex_task example0;
                     Q.code := ex_code example0;
                     Q.chunkType := "full_file";
                     Q.language := ex_language example0;
                     Q.framework := ex_framework example0;
                     Q.filePath := None;
                     Q.imports := [];
                     Q.exports := [];
                     Q.patterns := [];
                     Q.success := ex_success example0;
                     Q.tool := ex_tool example0;
                     Q.timestamp := Date_now;
                     Q.codeHash := "" |} |}.

(** [storeExample(example)] *)
Definition storeExample (example0 : Example) : M State Z :=
  try_catch
    (r <- on_net (E.generateEmbedding cfg fetch (ex_task example0)) ;;
     insertId <- db_insert example0 (E.embedding r) ;;
     try_catch
       (on_vectors (Q.upsertPoint Collection client_upsert
                      (codePoint example0 insertId (E.embedding r))))
       (fun qdrantError => ret tt) ;;;
     ret insertId)
    (fun error => throw error).

(** The filter of [retrieveSimilarExamples]. *)
Definition build_filter (tool0 language0 : option string) : Q.Filter :=
  {| Q.must :=
       [Q.MatchBool "success" true]
       ++ match tool0 with
          | Some t => if truthy t then [Q.MatchString "tool" t] else []
          | None => []
          end
       ++ match language0 with
          | Some l => if truthy l then [Q.MatchString "language" l] else []
          | None => []
          end |}.

(** The conversion of a search result in [retrieveSimilarExamples]. *)
Definition to_result (result : Q.SearchResult) : RetrievalResult :=
  {| similarity := Q.score result;
     example := {| r_id := Q.result_id result;
                   r_task := Q.task (Q.result_payload result);
                   r_code := Q.code (Q.result_payload result);
                   r_language := Q.language (Q.result_payload result);
                   r_framework := Q.framework (Q.result_payload result);
                   r_tool := Q.tool (Q.result_payload result);
                   r_success := Q.success (Q.result_payload result);
                   r_timestamp := Q.timestamp (Q.result_payload result);
                   r_errorMessage := None;
                   r_errorType := None |} |}.

Definition topK_of (options : Options) : Z :=
  match opt_topK options with Some k => k | None => defaultTopK end.

Definition threshold_of (options : Options) : R :=
  match opt_threshold options with Some t => t | None => defaultThreshold end.

(** [retrieveSimilarExamples(task, options)] *)
Definition retrieveSimilarExamples (task0 : string) (options : Options)
    : M State (list RetrievalResult) :=
  let topK := topK_of options in
  let threshold := threshold_of options in
  try_catch
    (r <- on_net (E.generateEmbedding cfg fetch task0) ;;
     let filter := build_filter (opt_tool options) (opt_language options) in
     searchResults <- on_vectors
       (Q.searchDense Collection client_search (E.embedding r)
          {| Q.topK := Some topK; Q.filter := Some filter |}) ;;
     ret (map to_result
            (List.filter (fun result => Rgeb (Q.score result) threshold)
               searchResults)))
    (fun error => ret []).

(** The options of a call with the threshold given explicitly. *)
Definition with_threshold (t : R) (options : Options) : Options :=
  {| opt_tool := opt_tool options;
     opt_language := opt_language options;
     opt_errorType := opt_errorType options;
     opt_topK := opt_topK options;
     opt_threshold := Some t |}.

(** The two ways in which the retrieval path fails: the embedding of the
    query throws, or it succeeds and the search of the collection throws. *)
Definition embedding_fails (task0 : string) (s : State) : Prop :=
  exists e n', E.generateEmbedding cfg fetch task0 (net s) = (inl e, n').

Definition index_unavailable (task0 : string) (options : Options) (s : State) : Prop :=
  exists r n' e,
    E.generateEmbedding cfg fetch task0 (net s) = (inr r, n')
    /\ client_search (E.embedding r)
         (Q.limit_of {| Q.topK := Some (topK_of options);
                        Q.filter := Some (build_filter (opt_tool options)
                                            (opt_language options)) |})
         (Some (build_filter (opt_tool options) (opt_language options)))
         (vectors s) = inl e.

(** The rows read by [retrieveSimilarErrors]:
    [WHERE success = 0 [AND tool = ?] [AND language = ?] [AND error_type = ?]
     ORDER BY timestamp DESC LIMIT 100]. *)
Definition failure_rows (options : Options) (table : list Row) : list Row :=
  firstn 100
    (sort_desc (fun r => IZR (timestamp r))
       (List.filter
          (fun r =>
             (success r =? 0)
             && match opt_tool options with
                | Some t => if truthy t then String.eqb (tool r) t else true
                | None => true
                end
             && match opt_language options with
                | Some l => if truthy l then String.eqb (language r) l else true
                | None => true
                end
             && match opt_errorType options with
                | Some t =>
                    if truthy t
                    then match error_type r with
                         | Some t' => String.eqb t' t
                         | None => false
                         end
                    else true
                | None => true
                end)
          table)).

Definition to_candidate (ex : Row) : list R * Retrieved :=
  (embedding ex,
   {| r_id := id ex;
      r_task := task ex;
      r_code := code ex;
      r_language := language ex;
      r_framework := framework ex;
      r_tool := tool ex;
      r_success := false;
      r_timestamp := timestamp ex;
      r_errorMessage := error_message ex;
      r_errorType := error_type ex |}).

(** [retrieveSimilarErrors(task, options)] *)
Definition retrieveSimilarErrors (task0 : string) (options : Options)
    : M State (list RetrievalResult) :=
  let topK := topK_of options in
  let threshold := threshold_of options in
  try_catch
    (r <- on_net (E.generateEmbedding cfg fetch task0) ;;
     examples <- (fun s => (inr (failure_rows options (rows s)), s)) ;;
     results <- lift (E.findMostSimilar (E.embedding r)
                        (map to_candidate examples) topK threshold) ;;
     ret (map (fun r0 => {| example := snd r0; similarity := fst r0 |}) results))
    (fun error => ret []).

End Service.

Arguments net {Collection} _.
Arguments rows {Collection} _.
Arguments seq {Collection} _.
Arguments vectors {Collection} _.

(** ** Statistics over the ledger *)

(** [SELECT COUNT( * ) FROM code_examples WHERE p] *)
Definition count_where (p : Row -> bool) (table : list Row) : Z :=
  Z.of_nat (List.length (List.filter p table)).

(** One more row in the group [k]. *)
Fixpoint bump (k : string) (groups : list (string * Z)) : list (string * Z) :=
  match groups with
  | [] => [(k, 1)]
  | (k', n) :: rest =>
      if String.eqb k k' then (k', n + 1) :: rest else (k', n) :: bump k rest
  end.

(** [SELECT key, COUNT( * ) FROM code_examples WHERE p GROUP BY key]; a row
    whose key is NULL belongs to no group here, as in the one query that
    groups by a nullable column and excludes NULL in its WHERE clause. *)
Definition group_count (p : Row -> bool) (key : Row -> option string)
    (table : list Row) : list (string * Z) :=
  fold_left (fun groups r =>
               if p r then match key r with
                           | Some k => bump k groups
                           | None => groups
                           end
               else groups) table [].

(** [Object.fromEntries(entries)]: a later entry overwrites an earlier one. *)
Definition fromEntries (entries : list (string * Z)) : gmap string Z :=
  fold_left (fun m kv => <[fst kv := snd kv]> m) entries ∅.

(** The count recorded for a key in the rows of a GROUP BY, and the entry
    that a count makes in the resulting object: a group with no row does
    not appear. *)
Fixpoint assoc (k : string) (groups : list (string * Z)) : option Z :=
  match groups with
  | [] => None
  | (k', n) :: rest => if String.eqb k k' then Some n else assoc k rest
  end.

Definition entry_of (n : Z) : option Z := if n =? 0 then None else Some n.

(** The count of a key in a list of groups, 0 when the key has no group. *)
Definition tally (k : string) (groups : list (string * Z)) : Z :=
  match assoc k groups with
  | Some n => n
  | None => 0
  end.

(** Groups as a GROUP BY produces them: one group per key, none empty. *)
Definition well_grouped (groups : list (string * Z)) : Prop :=
  NoDup (map fst groups) /\ Forall (fun kv => 0 < snd kv) groups.

(** The rows of the group [k]. *)
Definition in_group (p : Row -> bool) (key : Row -> option string) (k : string)
    (r : Row) : bool :=
  p r && match key r with
         | Some k' => String.eqb k k'
         | None => false
         end.

Definition succeeded (r : Row) : bool := success r =? 1.
Definition failed (r : Row) : bool := success r =? 0.

Record Stats := {
  total : Z;
  byTool : gmap string Z;
  byLanguage : gmap string Z
}.

(** [getStats()] *)
Definition getStats (table : list Row) : Stats :=
  {| total := count_where succeeded table;
     byTool := fromEntries (group_count succeeded (fun r => Some (tool r)) table);
     byLanguage := fromEntries (group_count succeeded (fun r => Some (language r)) table) |}.

Record RecentError := {
  recent_task : string;
  recent_errorType : option string;
  recent_timestamp : Z
}.

Record ErrorStats := {
  totalErrors : Z;
  byErrorType : gmap string Z;
  errorsByLanguage : gmap string Z;
  recentErrors : list RecentError
}.

(** [getErrorStats()] *)
Definition getErrorStats (table : list Row) : ErrorStats :=
  {| totalErrors := count_where failed table;
     byErrorType := fromEntries (group_count failed error_type table);
     errorsByLanguage := fromEntries (group_count failed (fun r => Some (language r)) table);
     recentErrors :=
       map (fun r => {| recent_task := task r;
                        recent_errorType := error_type r;
                        recent_timestamp := timestamp r |})
         (firstn 10 (sort_desc (fun r => IZR (timestamp r)) (List.filter failed table))) |}.

End CodeRetrievalService.

(* ===================================================================== *)
(** * CodebaseIndexerService (code-retrieval.service.ts, second class) *)
(* ===================================================================== *)

Module CodebaseIndexerService.
Import Js JsNotations.
Module E := EmbeddingService.

(** [Language] of the chunker. *)
Inductive Language := typescript | javascript | python | unknown.

Definition is_unknown (l : Language) : bool :=
  match l with unknown => true | _ => false end.

(** A chunk as the chunker returns it. *)
Record CodeChunk := {
  c_code : string;
  c_startLine : Z;
  c_endLine : Z;
  c_type : string;
  c_name : option string;
  c_language : string
}.

(** A row of the table [code_chunks]; [id] is its primary key. *)
Record ChunkRow := {
  id : string;
  file_path : string;
  relative_path : string;
  content : string;
  start_line : Z;
  end_line : Z;
  chunk_type : string;
  chunk_name : option string;
  language : string;
  embedding : list R;
  last_modified : Z
}.

(** The single row of the table [index_stats]. *)
Record StatsRow := {
  total_files : Z;
  total_chunks : Z;
  last_indexed : Z;
  index_duration : Z
}.

Record IndexStats := {
  totalFiles : Z;
  totalChunks : Z;
  lastIndexed : Z;
  indexDuration : Z
}.

(** [stat(path).mtimeMs] and [readFile(path, 'utf-8')] at some moment. *)
Record FileSystem := {
  mtimeMs : string -> Result Z;
  readFile : string -> Result string
}.

(** A call of [indexCodebase] suspended at one of its [await]s: on [glob],
    or on the batch of files that starts at index [i]. *)
Inductive Pass :=
| AwaitGlob (startTime : Z)
| AwaitBatch (startTime : Z) (files : list string) (i : nat).

(** The service: its embedding gateway, its two tables, the flag
    [isIndexing], the number of [glob] calls made, and the suspended calls
    of [indexCodebase]. *)
Record State := {
  net : E.Net;
  code_chunks : list ChunkRow;
  index_stats : StatsRow;
  isIndexing : bool;
  globCalls : nat;
  running : list Pass
}.

Definition set_net (n : E.Net) (s : State) : State :=
  {| net := n; code_chunks := code_chunks s; index_stats := index_stats s;
     isIndexing := isIndexing s; globCalls := globCalls s; running := running s |}.

Definition set_chunks (t : list ChunkRow) (s : State) : State :=
  {| net := net s; code_chunks := t; index_stats := index_stats s;
     isIndexing := isIndexing s; globCalls := globCalls s; running := running s |}.

Definition set_stats (r : StatsRow) (s : State) : State :=
  {| net := net s; code_chunks := code_chunks s; index_stats := r;
     isIndexing := isIndexing s; globCalls := globCalls s; running := running s |}.

Definition set_flag (b : bool) (ps : list Pass) (s : State) : State :=
  {| net := net s; code_chunks := code_chunks s; index_stats := index_stats s;
     isIndexing := b; globCalls := globCalls s; running := ps |}.

Definition on_net {A} (m : M E.Net A) : M State A :=
  fun s => let (r, n) := m (net s) in (r, set_net n s).

(** [for (const x of l) { body(x) }] *)
Fixpoint for_each {S A} (l : list A) (body : A -> M S unit) : M S unit :=
  match l with
  | [] => ret tt
  | x :: l' => body x ;;; for_each l' body
  end.

Definition SUPPORTED_EXTENSIONS : list string :=
  [".ts"; ".tsx"; ".js"; ".jsx"; ".py"].

(** [SELECT last_modified FROM code_chunks WHERE file_path = ? LIMIT 1] *)
Definition stored_last_modified (filePath : string) (table : list ChunkRow)
    : option Z :=
  match List.find (fun r => String.eqb (file_path r) filePath) table with
  | Some r => Some (last_modified r)
  | None => None
  end.


(** [insertStmt.run(...)]: the primary key rejects a second row with the
    same [id]. *)
Definition insert_row (row : ChunkRow) : M State unit :=
  fun s =>
    if existsb (fun r => String.eqb (id r) (id row)) (code_chunks s)
    then (inl (Error "UNIQUE constraint failed: code_chunks.id"), s)
    else (inr tt, set_chunks (code_chunks s ++ [row]) s).

(** The identifier of a chunk:
    [`${relativePath}:${chunk.startLine}-${chunk.endLine}:${chunk.type}`]. *)
Definition chunk_id (relativePath : string) (chunk : CodeChunk) : string :=
  relativePath ++ ":" ++ decimal (c_startLine chunk) ++ "-"
  ++ decimal (c_endLine chunk) ++ ":" ++ c_type chunk.

(** The row written for a chunk. *)
Definition row_of (filePath relativePath : string) (lastModified : Z)
    (chunk : CodeChunk) (embedding0 : list R) : ChunkRow :=
  {| id := chunk_id relativePath chunk;
     file_path := filePath;
     relative_path := relativePath;
     content := c_code chunk;
     start_line := c_startLine chunk;
     end_line := c_endLine chunk;
     chunk_type := c_type chunk;
     chunk_name := match c_name chunk with
                   | Some n => if truthy n then Some n else None
                   | None => None
                   end;
     language := c_language chunk;
     embedding := embedding0;
     last_modified := lastModified |}.

(** [getStats()]: the row read from [index_stats] carries the column names
    [total_files], [last_indexed] and [index_duration], so the properties
    [totalFiles], [lastIndexed] and [indexDuration] read from it are
    undefined and [|| 0] makes them 0; the chunks are counted. *)
Definition getStats (s : State) : IndexStats :=
  {| totalFiles := 0;
     totalChunks := Z.of_nat (List.length (code_chunks s));
     lastIndexed := 0;
     indexDuration := 0 |}.

(** [cosineSimilarity(a, b)] of this class: the same loop and quotient as in
    the embedding service. *)
Definition cosineSimilarity (a b : list R) : Result R :=
  if negb (List.length a =? List.length b)%nat
  then inl (Error "Vectors must have same length")
  else inr (E.cosine a b).

(** The options and the results of [searchSimilar]. *)
Record SearchOptions := {
  topK : option Z;
  threshold : option R;
  opt_language : option string
}.

Record Hit := {
  filePath : string;
  relativePath : string;
  hit_content : string;
  startLine : Z;
  endLine : Z;
  similarity : R;
  hit_language : string;
  chunkType : string;
  chunkName : option string
}.

(** [options?.topK || 5] *)
Definition topK_of (options : option SearchOptions) : Z :=
  match options with
  | Some o => match topK o with
              | Some k => if k =? 0 then 5 else k
              | None => 5
              end
  | None => 5
  end.

(** [options?.threshold || 0.7] *)
Definition threshold_of (options : option SearchOptions) : R :=
  match options with
  | Some o => match threshold o with
              | Some t => if Req_dec_T t 0 then 0.7%R else t
              | None => 0.7%R
              end
  | None => 0.7%R
  end.

(** The language given in the options, when [options?.language] is truthy. *)
Definition language_of (options : option SearchOptions) : option string :=
  match options with
  | Some o => match opt_language o with
              | Some l => if truthy l then Some l else None
              | None => None
              end
  | None => None
  end.

(** The rows read by [searchSimilar]. *)
Definition candidates (options : option SearchOptions) (table : list ChunkRow)
    : list ChunkRow :=
  match language_of options with
  | Some l => List.filter (fun r => String.eqb (language r) l) table
  | None => table
  end.

(** The result built for a row and its similarity. *)
Definition hit_with (similarity0 : R) (chunk : ChunkRow) : Hit :=
  {| filePath := file_path chunk;
     relativePath := relative_path chunk;
     hit_content := content chunk;
     startLine := start_line chunk;
     endLine := end_line chunk;
     similarity := similarity0;
     hit_language := language chunk;
     chunkType := chunk_type chunk;
     chunkName := match chunk_name chunk with
                  | Some n => if truthy n then Some n else None
                  | None => None
                  end |}.

(** The result computed for one row. *)
Definition to_hit (queryEmbedding : list R) (chunk : ChunkRow) : Result Hit :=
  match cosineSimilarity queryEmbedding (embedding chunk) with
  | inl e => inl e
  | inr similarity0 => inr (hit_with similarity0 chunk)
  end.

(** The rows of a file, and the rows of the other files. *)
Definition rows_of_file (filePath0 : string) (table : list ChunkRow) : list ChunkRow :=
  List.filter (fun r => String.eqb (file_path r) filePath0) table.

Definition rows_of_others (filePath0 : string) (table : list ChunkRow) : list ChunkRow :=
  List.filter (fun r => negb (String.eqb (file_path r) filePath0)) table.

(** [DELETE FROM code_chunks WHERE file_path = ?] *)
Definition delete_file (filePath0 : string) : M State unit :=
  fun s => (inr tt, set_chunks (rows_of_others filePath0 (code_chunks s)) s).




Section Service.
Variable cfg : E.Config.
Variable fetch : E.Network.
Variable projectRoot : string.
(** [extname] and [relative] of the path library, the filter built from
    the ignore files, the chunker, and the value of the environment
    variable EMBEDDING_BACKEND. *)
Variable extname : string -> string.
Variable relative : string -> string -> string.
Variable ignoreFilter : option (string -> bool).
Variable chunkCode : string -> Language -> Result (list CodeChunk).
Variable EMBEDDING_BACKEND : option string.

(** [shouldIndexFile(filePath)] *)
Definition shouldIndexFile (filePath0 : string) : bool :=
  let ext := extname filePath0 in
  if negb (existsb (String.eqb ext) SUPPORTED_EXTENSIONS) then false
  else
    match ignoreFilter with
    | Some ignores =>
        if ignores (relative projectRoot filePath0) then false else true
    | None => true
    end.

(** [getLanguage(filePath)] *)
Definition getLanguage (filePath0 : string) : Language :=
  let ext := extname filePath0 in
  if String.eqb ext ".ts" || String.eqb ext ".tsx" then typescript
  else if String.eqb ext ".js" || String.eqb ext ".jsx" then javascript
  else if String.eqb ext ".py" then python
  else unknown.

(** The body of the loop of [indexFile] over the chunks. *)
Definition index_chunk (filePath0 relativePath0 : string) (lastModified : Z)
    (chunk : CodeChunk) : M State unit :=
  try_catch
    (embeddingResult <- on_net (E.generateEmbedding cfg fetch (c_code chunk)) ;;
     insert_row (row_of filePath0 relativePath0 lastModified chunk
                   (E.embedding embeddingResult)) ;;;
     match EMBEDDING_BACKEND with
     | Some b => if String.eqb b "api" then on_net (E.setTimeout 50) else ret tt
     | None => ret tt
     end)
    (fun error => ret tt).

(** [indexFile(filePath)] *)
Definition indexFile (fs : FileSystem) (filePath0 : string) : M State unit :=
  try_catch
    (if negb (shouldIndexFile filePath0) then ret tt
     else
       lastModified <- lift (mtimeMs fs filePath0) ;;
       let relativePath0 := relative projectRoot filePath0 in
       existing <- (fun s => (inr (stored_last_modified filePath0 (code_chunks s)), s)) ;;
       if match existing with
          | Some stored => lastModified <=? stored
          | None => false
          end
       then ret tt
       else
         content0 <- lift (readFile fs filePath0) ;;
         let language0 := getLanguage filePath0 in
         if is_unknown language0 then ret tt
         else
           delete_file filePath0 ;;;
           chunks <- lift (chunkCode content0 language0) ;;
           for_each chunks (index_chunk filePath0 relativePath0 lastModified))
    (fun error => ret tt).

(** [searchSimilar(query, options)] *)
Definition searchSimilar (query : string) (options : option SearchOptions)
    : M State (list Hit) :=
  let topK := topK_of options in
  let threshold := threshold_of options in
  try_catch
    (queryEmbeddingResult <- on_net (E.generateEmbedding cfg fetch query) ;;
     let queryEmbedding := E.embedding queryEmbeddingResult in
     chunks <- (fun s => (inr (candidates options (code_chunks s)), s)) ;;
     results <- lift (E.map_result (to_hit queryEmbedding) chunks) ;;
     ret (slice0 topK
            (sort_desc similarity
               (List.filter (fun r => Rgeb (similarity r) threshold) results))))
    (fun error => ret []).



(** [removeFile(filePath)] and [clearIndex()] *)
Definition removeFile (filePath0 : string) : M State unit :=
  delete_file filePath0.

Definition clearIndex : M State unit :=
  fun s =>
    (inr tt,
     set_stats {| total_files := 0; total_chunks := 0; last_indexed := 0;
                  index_duration := index_duration (index_stats s) |}
       (set_chunks [] s)).

(** ** [indexCodebase()], one segment between two [await]s at a time *)

(** What a caller of [indexCodebase] gets at the end of a segment. *)
Inductive Outcome :=
| Pending
| Returned (stats : IndexStats)
| Threw (e : JsError).

(** The list without its [k]-th element. *)
Definition drop_nth {A} (k : nat) (l : list A) : list A :=
  firstn k l ++ skipn (S k) l.

(** From the end of the loop to the [return], followed by the [finally]
    clause; [times] are the two readings of the clock. *)
Definition complete (k : nat) (startTime : Z) (files : list string)
    (times : Z * Z) (s : State) : State * Outcome :=
  let duration := fst times - startTime in
  let stats := getStats s in
  let s1 := set_stats {| total_files := Z.of_nat (List.length files);
                         total_chunks := totalChunks stats;
                         last_indexed := snd times;
                         index_duration := duration |} s in
  (set_flag false (drop_nth k (running s1)) s1,
   Returned {| totalFiles := Z.of_nat (List.length files);
               totalChunks := totalChunks stats;
               lastIndexed := lastIndexed stats;
               indexDuration := duration |}).

(** What can happen to the service. *)
Inductive Event :=
| Call (now : Z)
| GlobResolved (k : nat) (files : list string) (times : Z * Z)
| GlobRejected (k : nat) (e : JsError)
| BatchSettled (k : nat) (fs : FileSystem) (times : Z * Z)
| IndexFile (fs : FileSystem) (filePath0 : string)
| RemoveFile (filePath0 : string)
| ClearIndex.

Definition batchSize : nat := 10.

(** One segment.  [Call] is the entry of [indexCodebase] up to its first
    [await]; the other three pass events resume the [k]-th suspended call:
    after [glob], and after the [Promise.all] of a batch, whose calls of
    [indexFile] are taken in the order of the batch.  [None]: the event
    cannot happen in this state. *)
Definition step (ev : Event) (s : State) : option (State * Outcome) :=
  match ev with
  | Call now =>
      if isIndexing s then Some (s, Returned (getStats s))
      else
        Some ({| net := net s; code_chunks := code_chunks s;
                 index_stats := index_stats s; isIndexing := true;
                 globCalls := S (globCalls s);
                 running := running s ++ [AwaitGlob now] |}, Pending)
  | GlobResolved k files times =>
      match nth_error (running s) k with
      | Some (AwaitGlob startTime) =>
          if (0 <? List.length files)%nat
          then Some (set_flag (isIndexing s)
                       (<[k := AwaitBatch startTime files 0]> (running s)) s,
                     Pending)
          else Some (complete k startTime files times s)
      | _ => None
      end
  | GlobRejected k e =>
      match nth_error (running s) k with
      | Some (AwaitGlob _) =>
          Some (set_flag false (drop_nth k (running s)) s, Threw e)
      | _ => None
      end
  | BatchSettled k fs times =>
      match nth_error (running s) k with
      | Some (AwaitBatch startTime files i) =>
          match for_each (slice i (i + batchSize) files) (indexFile fs) s with
          | (inl e, s1) =>
              Some (set_flag false (drop_nth k (running s1)) s1, Threw e)
          | (inr _, s1) =>
              if (i + batchSize <? List.length files)%nat
              then Some (set_flag (isIndexing s1)
                           (<[k := AwaitBatch startTime files (i + batchSize)]>
                              (running s1)) s1,
                         Pending)
              else Some (complete k startTime files times s1)
          end
      | _ => None
      end
  | IndexFile fs filePath0 =>
      Some (snd (indexFile fs filePath0 s), Pending)
  | RemoveFile filePath0 =>
      Some (snd (removeFile filePath0 s), Pending)
  | ClearIndex =>
      Some (snd (clearIndex s), Pending)
  end.

(** A sequence of events, from the left. *)
Fixpoint run (evs : list Event) (s : State) : option State :=
  match evs with
  | [] => Some s
  | ev :: evs' =>
      match step ev s with
      | Some (s', _) => run evs' s'
      | None => None
      end
  end.

(** The service as its constructor leaves it: whatever the database file
    holds, no pass running. *)
Definition initial (s : State) : Prop :=
  isIndexing s = false /\ running s = [].

Definition reachable (s : State) : Prop :=
  exists s0 evs, initial s0 /\ run evs s0 = Some s.

End Service.

(** The passes in progress: every suspended call of [indexCodebase] is
    inside its [try] block. *)
Definition passes_in_progress (s : State) : nat := List.length (running s).

(** The flag tells whether a pass is in progress. *)
Definition flag_counts_passes (s : State) : Prop :=
  passes_in_progress s = if isIndexing s then 1%nat else 0%nat.

End CodebaseIndexerService.

(** The rest of the embedding: the loops over batches, the hash function
    and the batch method of [src/services/embedding.service.js], the
    service of [src/services/embeddings/hybrid-embedding.service.ts]
    (module [HybridEmbeddingService]), the remaining search and upsert
    methods of the Qdrant service (module [QdrantCollection]), and the file
    watcher of the codebase indexer (module [IndexWatcher]).  A string is a
    sequence of 8-bit characters, so [charCodeAt] is the code of a byte.
    Two loops are followed more closely than above: the retries for any
    number that [parseInt] can give (module [Retrying]), and the loop of
    [cosineSimilarity] on the binary64 numbers of the runtime (module
    [Binary64]), which are also the values of a sparse embedding. *)

From Stdlib Require PrimFloat.

(* ===================================================================== *)
(** * Loops over batches *)
(* ===================================================================== *)

Module Batches.
Import Js JsNotations.

(** [for (let i = 0; i < l.length; i += size) { ... l.slice(i, i + size) ... }]:
    the batches taken by the rounds of the loop from [i] on.  With a positive
    [size] there are at most [l.length] rounds, which is the fuel given. *)
Fixpoint batches_from {A} (fuel i size : nat) (l : list A) : list (list A) :=
  match fuel with
  | O => []
  | S fuel' =>
      if (i <? List.length l)%nat
      then slice i (i + size) l :: batches_from fuel' (i + size) size l
      else []
  end.

Definition batches {A} (size : nat) (l : list A) : list (list A) :=
  batches_from (List.length l) 0 size l.

(** [await Promise.all(l.map(f))]: every call is started; they are taken
    here one after the other, which is one of the orders in which they can
    settle.  The value is the array of their values, or the first error. *)
Fixpoint map_m {S A B} (f : A -> M S B) (l : list A) : M S (list B) :=
  match l with
  | [] => ret []
  | x :: l' =>
      fun s =>
        match f x s with
        | (inr y, s1) => (ys <- map_m f l' ;; ret (y :: ys)) s1
        | (inl e, s1) => (inl e, snd (map_m f l' s1))
        end
  end.

End Batches.

(* ===================================================================== *)
(** * EmbeddingService, continued: hashing and batches *)
(* ===================================================================== *)

Module EmbeddingBatch.
Import Js JsNotations.
Module E := EmbeddingService.

(** [ToInt32]: the value of a bitwise operator on an integer. *)
Definition toInt32 (z : Z) : Z := (z + 2 ^ 31) mod 2 ^ 32 - 2 ^ 31.

(** [str.charCodeAt(i)] for every [i], for a text of 8-bit characters. *)
Definition charCodes (text : string) : list Z :=
  map (fun c => Z.of_nat (nat_of_ascii c)) (list_ascii_of_string text).

(** One round of the loop of [simpleHash]:
    [hash = ((hash << 5) - hash) + char; hash = hash & hash]. *)
Definition hash_round (hash char : Z) : Z :=
  toInt32 (toInt32 (toInt32 hash * 2 ^ 5) - hash + char).

(** [simpleHash(text)] *)
Definition simpleHash (text : string) : Z :=
  fold_left hash_round (charCodes text) 0.

Section Api.
Variable cfg : E.Config.
Variable fetch : E.Network.

(** [generateBatchEmbeddings(texts)], called without options: [localService]
    is never set, so the batches of 10 go to [generateEmbedding]. *)
Definition generateBatchEmbeddings (texts : list string)
    : M E.Net (list E.EmbeddingResult) :=
  batchResults <- Batches.map_m
                    (fun batch => Batches.map_m (E.generateEmbedding cfg fetch) batch)
                    (Batches.batches 10 texts) ;;
  ret (List.concat batchResults).

End Api.

End EmbeddingBatch.

(* ===================================================================== *)
(** * Binary64 numbers: integers, cosineSimilarity *)
(* ===================================================================== *)

(** The numbers and the operations of the runtime: binary64, rounded to
    the nearest, with the infinities and NaN.  They are used where a
    property depends on the rounding: for the quotients of the sparse
    embedding, and for the loop and the quotient of [cosineSimilarity]. *)
Module Binary64.
Import PrimFloat.
Local Open Scope float_scope.

(** The number that holds an integer: every step is exact below 2^53. *)
Fixpoint of_pos (p : positive) : float :=
  match p with
  | xH => 1
  | xO p' => 2 * of_pos p'
  | xI p' => 2 * of_pos p' + 1
  end.

Definition of_Z (z : Z) : float :=
  match z with
  | Z0 => 0
  | Zpos p => of_pos p
  | Zneg p => - of_pos p
  end.

(** [dotProduct], [normA] and [normB] after one more component. *)
Definition accumulate (acc : float * float * float) (ab : float * float)
    : float * float * float :=
  let '(dotProduct, normA, normB) := acc in
  let (x, y) := ab in
  (dotProduct + x * y, normA + x * x, normB + y * y).

Definition sums (a b : list float) : float * float * float :=
  fold_left accumulate (combine a b) (0, 0, 0).

(** The value returned after the loop. *)
Definition cosine (a b : list float) : float :=
  let '(dotProduct, normA, normB) := sums a b in
  dotProduct / (sqrt normA * sqrt normB).

(** [cosineSimilarity(a, b)] of the embedding service. *)
Definition cosineSimilarity (a b : list float) : Js.Result float :=
  if negb (List.length a =? List.length b)%nat
  then inl (Js.Error "Embeddings must have same dimensions")
  else inr (cosine a b).

(** [cosineSimilarity(a, b)] of the codebase indexer.  Its arguments are
    [Float32Array]s; their elements enter the loop as the binary64 numbers
    of the same value. *)
Definition cosineSimilarity_of_indexer (a b : list float) : Js.Result float :=
  if negb (List.length a =? List.length b)%nat
  then inl (Js.Error "Vectors must have same length")
  else inr (cosine a b).

End Binary64.

(* ===================================================================== *)
(** * HybridEmbeddingService (embeddings/hybrid-embedding.service.ts) *)
(* ===================================================================== *)

Module HybridEmbeddingService.
Import Js JsNotations.
Module E := EmbeddingService.

Record DenseEmbedding := {
  embedding : list R;
  tokens : Z;
  model : string
}.

Record SparseEmbedding := { indices : list Z; values : list PrimFloat.float }.

Record HybridEmbedding := { dense : DenseEmbedding; sparse : SparseEmbedding }.

Inductive Backend := api | local.

(** [hashString(str)]: the loop of [simpleHash], then
    [Math.abs(hash) % 100000]. *)
Definition hashString (str : string) : Z :=
  Z.rem (Z.abs (fold_left EmbeddingBatch.hash_round (EmbeddingBatch.charCodes str) 0))
    100000.

(** The map [termFreq] after the loop over the tokens, as its entries in
    the order of insertion: [termFreq.set(token, (termFreq.get(token) || 0) + 1)]
    keeps the place of a known token and puts a new one last. *)
Definition termFreq (tokens : list string) : list (string * Z) :=
  fold_left (fun m token => CodeRetrievalService.bump token m) tokens [].

Section Service.
(** The fields set by the constructor ([defaultModel] is [denseModel]), the
    endpoint, the local model when the backend is local, and the tokenizer,
    whose three passes of regular expressions are taken as given. *)
Variable cfg : E.Config.
Variable fetch : E.Network.
Variable backend : Backend.
Variable localService : option (string -> Result (list R)).
Variable localModel : string.
Variable tokenize : string -> list string.

(** The thunk of [generateApiDenseEmbedding]: one request; its [catch]
    clause throws the error it caught. *)
Definition request_once (text0 : string) : M E.Net DenseEmbedding :=
  try_catch
    (response <- E.do_fetch fetch (E.request_of cfg text0) ;;
     if negb (E.ok response)
     then throw (Error ("Embedding API error: " ++ decimal (E.status response)
                        ++ " - " ++ E.text response))
     else
       data <- lift (E.json response) ;;
       ret {| embedding := E.body_embedding data;
              tokens := match E.total_tokens data with
                        | Some t => t
                        | None => 0
                        end;
              model := E.defaultModel cfg |})
    (fun error => throw error).

(** [generateApiDenseEmbedding(text)], with the [retryWithBackoff] of this
    class, which has the body of the one of the embedding service. *)
Definition generateApiDenseEmbedding (text0 : string) : M E.Net DenseEmbedding :=
  E.retryWithBackoff (request_once text0) (E.maxRetries cfg) 1000.

(** [generateLocalDenseEmbedding(text)] *)
Definition generateLocalDenseEmbedding (text0 : string) : M E.Net DenseEmbedding :=
  match localService with
  | None => throw (Error "Local embedding service not initialized")
  | Some generate =>
      try_catch
        (embedding0 <- lift (generate text0) ;;
         ret {| embedding := embedding0; tokens := 0; model := localModel |})
        (fun error => throw error)
  end.

(** [generateDenseEmbedding(text)] *)
Definition generateDenseEmbedding (text0 : string) : M E.Net DenseEmbedding :=
  match backend with
  | local => generateLocalDenseEmbedding text0
  | api => generateApiDenseEmbedding text0
  end.

(** [generateSparseEmbedding(text)] *)
Definition generateSparseEmbedding (text0 : string) : SparseEmbedding :=
  let tokens0 := tokenize text0 in
  let entries := termFreq tokens0 in
  {| indices := map (fun entry => hashString (fst entry)) entries;
     values := map (fun entry =>
                      PrimFloat.div (Binary64.of_Z (snd entry))
                        (Binary64.of_Z (Z.of_nat (List.length tokens0)))) entries |}.

(** [generateHybridEmbedding(text)] *)
Definition generateHybridEmbedding (text0 : string) : M E.Net HybridEmbedding :=
  dense0 <- generateDenseEmbedding text0 ;;
  ret {| dense := dense0; sparse := generateSparseEmbedding text0 |}.

End Service.

End HybridEmbeddingService.

(* ===================================================================== *)
(** * retryWithBackoff for any number of retries *)
(* ===================================================================== *)

(** The constructor reads the number of retries with
    [parseInt(RAG_MAX_RETRIES || '3')], which is an integer of either sign,
    or NaN when the text does not start with a number, and the loop stops
    retrying only at [retries === 0].  Here the loop is followed for any
    such number, call by call.  [Count z] is the integer [z], with the
    subtraction and the doubling of the integers: [retries - 1] is exact up
    to 2^53, and [delay * 2] for the first thousand doublings of 1000.
    Beyond 2^53, and for the infinite value that [parseInt] gives for a
    number with too many digits, the subtraction returns its argument,
    which is never 0, as for NaN. *)
Module Retrying.
Import Js JsNotations.
Module E := EmbeddingService.
Module H := HybridEmbeddingService.

Inductive Retries := Count (z : Z) | NotANumber.

(** [retries === 0] *)
Definition is_zero (retries : Retries) : bool :=
  match retries with
  | Count z => z =? 0
  | NotANumber => false
  end.

(** [retries - 1] *)
Definition minus_one (retries : Retries) : Retries :=
  match retries with
  | Count z => Count (z - 1)
  | NotANumber => NotANumber
  end.

(** [retryWithBackoff(fn, retries, delay)], followed for at most [fuel]
    calls of [fn]: the value is [None] when the last of these calls is
    followed by a wait and another call, and the state is then the one in
    which that call starts. *)
Fixpoint retryWithBackoff {A} (fuel : nat) (fn : M E.Net A) (retries : Retries)
    (delay : Z) (n : E.Net) : option (Result A) * E.Net :=
  match fuel with
  | O => (None, n)
  | S fuel' =>
      match fn n with
      | (inr value, n1) => (Some (inr value), n1)
      | (inl error, n1) =>
          if is_zero retries then (Some (inl error), n1)
          else if negb (E.isRetryable error) then (Some (inl error), n1)
          else retryWithBackoff fuel' fn (minus_one retries) (delay * 2)
                 (snd (E.setTimeout delay n1))
      end
  end.

Section Api.
Variable cfg : E.Config.
Variable fetch : E.Network.

(** [generateAPIEmbedding(text)] of the embedding service, where
    [this.maxRetries] is [maxRetries]. *)
Definition generateAPIEmbedding (fuel : nat) (maxRetries : Retries) (text0 : string)
    (n : E.Net) : option (Result E.EmbeddingResult) * E.Net :=
  if negb (truthy (E.apiKey cfg))
  then (Some (inl (Error "OPENROUTER_API_KEY must be configured for API embedding backend")),
        n)
  else retryWithBackoff fuel (E.request_once cfg fetch text0 (E.defaultModel cfg))
         maxRetries 1000 n.

(** [generateApiDenseEmbedding(text)] of the hybrid service. *)
Definition generateApiDenseEmbedding (fuel : nat) (maxRetries : Retries) (text0 : string)
    (n : E.Net) : option (Result H.DenseEmbedding) * E.Net :=
  retryWithBackoff fuel (H.request_once cfg fetch text0) maxRetries 1000 n.

End Api.

End Retrying.

(* ===================================================================== *)
(** * QdrantService, continued *)
(* ===================================================================== *)

Module QdrantCollection.
Import Js JsNotations.
Module Q := QdrantService.

(** A point of the response of [client.query]; its score may be missing. *)
Record QueryPoint := {
  point_id : Z;
  point_score : option R;
  point_payload : Q.Payload
}.

(** [p.score || 0] *)
Definition score_or_0 (p : QueryPoint) : R :=
  match point_score p with
  | Some s => s
  | None => 0%R
  end.

Section Client.
(** The state of the remote service and the calls of the client library:
    [upsert] with an array of points, [search], [query] with its limit and
    the limit of its prefetch, [getCollections] and [createCollection]. *)
Variable Collection : Type.
Variable client_upsert_points : list Q.CodePoint -> M Collection unit.
Variable client_search :
  list R -> Z -> option Q.Filter -> Collection -> Result (list Q.SearchResult).
Variable client_query :
  list R -> Q.SparseVector -> Z -> Z -> option Q.Filter -> Collection
  -> Result (list QueryPoint).
Variable client_getCollections : Collection -> Result (list string).
Variable client_createCollection : string -> M Collection unit.
(** The name of the collection of the service. *)
Variable collection : string.

(** [upsertBatch(points)]: one call of the client for each batch of 100. *)
Definition upsertBatch (points : list Q.CodePoint) : M Collection unit :=
  CodebaseIndexerService.for_each (Batches.batches 100 points) client_upsert_points.

(** [searchHybrid(denseVector, sparseVector, options)] *)
Definition searchHybrid (denseVector : list R) (sparseVector : option Q.SparseVector)
    (options : Q.SearchOptions) : M Collection (list Q.SearchResult) :=
  let topK := Q.limit_of options in
  match sparseVector with
  | None => Q.searchDense Collection client_search denseVector options
  | Some sv =>
      if (List.length (Q.indices sv) =? 0)%nat
      then Q.searchDense Collection client_search denseVector options
      else
        try_catch
          (response <- (fun c => (client_query denseVector sv topK (topK * 2)
                                    (Q.filter options) c, c)) ;;
           ret (map (fun p => {| Q.result_id := point_id p;
                                 Q.score := score_or_0 p;
                                 Q.result_payload := point_payload p |}) response))
          (fun error => Q.searchDense Collection client_search denseVector options)
  end.

(** [ensureCollectionExists()] *)
Definition ensureCollectionExists : M Collection unit :=
  try_catch
    (collections <- (fun c => (client_getCollections c, c)) ;;
     if negb (existsb (fun name => String.eqb name collection) collections)
     then client_createCollection collection
     else ret tt)
    (fun error => throw error).

End Client.

End QdrantCollection.

(* ===================================================================== *)
(** * CodebaseIndexerService, continued: the file watcher *)
(* ===================================================================== *)

Module IndexWatcher.
Import Js JsNotations.
Module I := CodebaseIndexerService.
Module E := EmbeddingService.

(** The service with the fields of the watcher: whether [watcher] is set,
    the set [indexQueue] in the order of insertion, the handle in
    [debounceTimer], the timers that are scheduled and have neither fired
    nor been cleared, and the next handle of [setTimeout]. *)
Record Watcher := {
  svc : I.State;
  watching : bool;
  indexQueue : list string;
  debounceTimer : option nat;
  live : list nat;
  nextTimer : nat
}.

(** [set.add(x)] *)
Definition set_add (x : string) (set : list string) : list string :=
  if existsb (String.eqb x) set then set else set ++ [x].

(** [clearTimeout(handle)] *)
Definition clearTimeout (handle : nat) (timers : list nat) : list nat :=
  List.filter (fun t => negb (t =? handle)%nat) timers.

Section Service.
Variable cfg : E.Config.
Variable fetch : E.Network.
Variable projectRoot : string.
Variable extname : string -> string.
Variable relative : string -> string -> string.
Variable ignoreFilter : option (string -> bool).
Variable chunkCode : string -> I.Language -> Result (list I.CodeChunk).
Variable EMBEDDING_BACKEND : option string.
(** [join] of the path library, and [enableAutoIndex]. *)
Variable join : string -> string -> string.
Variable enableAutoIndex : bool.

(** [startWatching()] *)
Definition startWatching (w : Watcher) : Watcher :=
  if watching w || negb enableAutoIndex then w
  else {| svc := svc w; watching := true; indexQueue := indexQueue w;
          debounceTimer := debounceTimer w; live := live w;
          nextTimer := nextTimer w |}.

(** The callback of [watch] for a change notification. *)
Definition on_change (filename : option string) (w : Watcher) : Watcher :=
  match filename with
  | None => w
  | Some name =>
      if negb (truthy name) then w
      else
        let fullPath := join projectRoot name in
        if I.shouldIndexFile projectRoot extname relative ignoreFilter fullPath
        then
          {| svc := svc w;
             watching := watching w;
             indexQueue := set_add fullPath (indexQueue w);
             debounceTimer := Some (nextTimer w);
             live := nextTimer w
                     :: match debounceTimer w with
                        | Some old => clearTimeout old (live w)
                        | None => live w
                        end;
             nextTimer := S (nextTimer w) |}
        else w
  end.

(** [processIndexQueue()], the calls of [indexFile] for the queued files
    taken in one segment. *)
Definition processIndexQueue (fs : I.FileSystem) (w : Watcher) : Watcher :=
  if (List.length (indexQueue w) =? 0)%nat || I.isIndexing (svc w) then w
  else
    {| svc := snd (I.for_each (indexQueue w)
                     (I.indexFile cfg fetch projectRoot extname relative ignoreFilter
                        chunkCode EMBEDDING_BACKEND fs)
                     (svc w));
       watching := watching w;
       indexQueue := [];
       debounceTimer := debounceTimer w;
       live := live w;
       nextTimer := nextTimer w |}.

(** [stopWatching()] *)
Definition stopWatching (w : Watcher) : Watcher :=
  {| svc := svc w;
     watching := false;
     indexQueue := indexQueue w;
     debounceTimer := None;
     live := match debounceTimer w with
             | Some old => clearTimeout old (live w)
             | None => live w
             end;
     nextTimer := nextTimer w |}.

(** What can happen to the service and its watcher: the two methods, a
    notification of the file system while the watcher is set, the firing of
    a scheduled timer, and an event of the service itself. *)
Inductive Event :=
| Start
| Stop
| Notify (filename : option string)
| Fire (handle : nat) (fs : I.FileSystem)
| Service (ev : I.Event).

Definition step (ev : Event) (w : Watcher) : option Watcher :=
  match ev with
  | Start => Some (startWatching w)
  | Stop => Some (stopWatching w)
  | Notify filename => if watching w then Some (on_change filename w) else None
  | Fire handle fs =>
      if existsb (Nat.eqb handle) (live w)
      then Some (processIndexQueue fs
                   {| svc := svc w; watching := watching w;
                      indexQueue := indexQueue w;
                      debounceTimer := debounceTimer w;
                      live := clearTimeout handle (live w);
                      nextTimer := nextTimer w |})
      else None
  | Service ev0 =>
      match I.step cfg fetch projectRoot extname relative ignoreFilter chunkCode
              EMBEDDING_BACKEND ev0 (svc w) with
      | Some (s', _) =>
          Some {| svc := s'; watching := watching w; indexQueue := indexQueue w;
                  debounceTimer := debounceTimer w; live := live w;
                  nextTimer := nextTimer w |}
      | None => None
      end
  end.

Fixpoint run (evs : list Event) (w : Watcher) : option Watcher :=
  match evs with
  | [] => Some w
  | ev :: evs' =>
      match step ev w with
      | Some w' => run evs' w'
      | None => None
      end
  end.

(** The watcher as the constructor leaves it. *)
Definition initial (w : Watcher) : Prop :=
  I.initial (svc w) /\ watching w = false /\ indexQueue w = []
  /\ debounceTimer w = None /\ live w = [].

Definition reachable (w : Watcher) : Prop :=
  exists w0 evs, initial w0 /\ run evs w0 = Some w.

End Service.

(** At most one drain of the queue is scheduled, and it is the one whose
    handle the service holds. *)
Definition timers_ok (w : Watcher) : Prop :=
  live w = [] \/ exists t, live w = [t] /\ debounceTimer w = Some t.

End IndexWatcher.

(* ===================================================================== *)
(** * Quantities used to state properties *)
(* ===================================================================== *)

Module Measures.

(** The polynomial that the loop of the two hash functions computes over
    the character codes, before it is brought back to 32 bits. *)
Definition polynomial (codes : list Z) : Z :=
  fold_left (fun hash char => 31 * hash + char) codes 0.


(** A vector whose squared norm is far from the ends of the binary64
    range, so that the sum of squares of the loop neither underflows to 0
    nor overflows: in particular the vector is not zero. *)
Definition norm_in_range (v : list R) : Prop :=
  (/ 2 ^ 500 <= EmbeddingService.dot v v <= 2 ^ 500)%R.

(** The indexer [s] with the flag, the suspended passes and the count of
    [glob] calls replaced. *)
Definition with_control (ps : list CodebaseIndexerService.Pass) (b : bool) (g : nat)
    (s : CodebaseIndexerService.State) : CodebaseIndexerService.State :=
  {| CodebaseIndexerService.net := CodebaseIndexerService.net s;
     CodebaseIndexerService.code_chunks := CodebaseIndexerService.code_chunks s;
     CodebaseIndexerService.index_stats := CodebaseIndexerService.index_stats s;
     CodebaseIndexerService.isIndexing := b;
     CodebaseIndexerService.globCalls := g;
     CodebaseIndexerService.running := ps |}.

(** The indexer after a pass over [files] that was called at [startTime]
    and read the clock as [times] at its end, with the tables and the
    gateway of [s]. *)
Definition finished (startTime : Z) (files : list string) (times : Z * Z) (g : nat)
    (s : CodebaseIndexerService.State) : CodebaseIndexerService.State :=
  {| CodebaseIndexerService.net := CodebaseIndexerService.net s;
     CodebaseIndexerService.code_chunks := CodebaseIndexerService.code_chunks s;
     CodebaseIndexerService.index_stats :=
       {| CodebaseIndexerService.total_files := Z.of_nat (List.length files);
          CodebaseIndexerService.total_chunks :=
            Z.of_nat (List.length (CodebaseIndexerService.code_chunks s));
          CodebaseIndexerService.last_indexed := snd times;
          CodebaseIndexerService.index_duration := fst times - startTime |};
     CodebaseIndexerService.isIndexing := false;
     CodebaseIndexerService.globCalls := g;
     CodebaseIndexerService.running := [] |}.

End Measures.

(* ===================================================================== *)
(** * Concrete configurations, networks and stores *)
(* ===================================================================== *)

Module Samples.
Import Js.
Module E := EmbeddingService.

(** A configuration with an API key and the default endpoint. *)
Definition cfg_with (retries : nat) : E.Config :=
  {| E.apiKey := "sk-test";
     E.baseURL := E.baseURL E.defaultConfig;
     E.defaultModel := E.defaultModel E.defaultConfig;
     E.maxRetries := retries |}.

Definition cfg : E.Config := cfg_with 3.

(** An endpoint that gives the same outcome to every request. *)
Definition always (o : E.FetchOutcome) : E.Network := fun _ _ => o.

(** An error response with the given status and body. *)
Definition http (status0 : Z) (body : string) : E.FetchOutcome :=
  E.Resolves {| E.status := status0; E.text := body;
                E.json := inl (Error "Unexpected token") |}.

(** A successful response that carries the given vector. *)
Definition embeds (v : list R) : E.FetchOutcome :=
  E.Resolves {| E.status := 200; E.text := "";
                E.json := inr {| E.body_embedding := v;
                                 E.total_tokens := Some 4 |} |}.

(** The rejection of [fetch] when the connection is refused. *)
Definition refused : E.FetchOutcome :=
  E.Rejects {| message := "Unable to connect. Is the computer able to access the url?";
               code := Some "ConnectionRefused" |}.

(** A collection that cannot be reached: every call of the client throws. *)
Definition unreachable_upsert (_ : QdrantService.CodePoint) : M unit unit :=
  fun c => (inl {| message := "connect ECONNREFUSED 54.37.225.188:6333";
                   code := Some "ECONNREFUSED" |}, c).

Definition unreachable_search (_ : list R) (_ : Z) (_ : option QdrantService.Filter)
    (_ : unit) : Result (list QdrantService.SearchResult) :=
  inl {| message := "connect ECONNREFUSED 54.37.225.188:6333";
         code := Some "ECONNREFUSED" |}.

(** The example of the store-and-retrieve scenario. *)
Definition reverse_example : CodeRetrievalService.Example :=
  {| CodeRetrievalService.ex_task := "reverse a string in X";
     CodeRetrievalService.ex_code := "...";
     CodeRetrievalService.ex_language := "x";
     CodeRetrievalService.ex_framework := None;
     CodeRetrievalService.ex_tool := "gen";
     CodeRetrievalService.ex_success := true;
     CodeRetrievalService.ex_errorMessage := None;
     CodeRetrievalService.ex_errorType := None |}.

(** A service with an empty ledger in front of the unreachable collection. *)
Definition empty_ledger : CodeRetrievalService.State unit :=
  {| CodeRetrievalService.net := E.net0;
     CodeRetrievalService.rows := [];
     CodeRetrievalService.seq := 0;
     CodeRetrievalService.vectors := tt |}.

(** Options that leave everything to the defaults. *)
Definition no_options : CodeRetrievalService.Options :=
  {| CodeRetrievalService.opt_tool := None;
     CodeRetrievalService.opt_language := None;
     CodeRetrievalService.opt_errorType := None;
     CodeRetrievalService.opt_topK := None;
     CodeRetrievalService.opt_threshold := None |}.

(** A reachable collection whose search finds two points, with scores 0.9
    and 0.6. *)
Definition payload_of (example0 : CodeRetrievalService.Example) : QdrantService.Payload :=
  QdrantService.payload (CodeRetrievalService.codePoint 0 example0 0 []).

Definition two_hits (_ : list R) (_ : Z) (_ : option QdrantService.Filter)
    (_ : unit) : Result (list QdrantService.SearchResult) :=
  inr [ {| QdrantService.result_id := 1; QdrantService.score := 0.9%R;
           QdrantService.result_payload := payload_of reverse_example |};
        {| QdrantService.result_id := 2; QdrantService.score := 0.6%R;
           QdrantService.result_payload := payload_of reverse_example |} ].

(** ** A project with one source file *)

Module I := CodebaseIndexerService.

Definition projectRoot : string := "/repo".

(** The extension of a path: from the last dot of its last segment. *)
Fixpoint extension_from (path : string) (found : string) : string :=
  match path with
  | EmptyString => found
  | String c rest =>
      if Ascii.eqb c "/"%char then extension_from rest ""
      else if Ascii.eqb c "."%char then extension_from rest (String c rest)
      else extension_from rest found
  end.

Definition extname (path : string) : string := extension_from path "".

(** The path below the root, for a path under the root. *)
Definition relative (root path : string) : string :=
  if String.prefix (root ++ "/") path
  then String.substring (String.length root + 1)
         (String.length path - (String.length root + 1)) path
  else path.

(** A chunker that returns the whole text as one chunk. *)
Definition language_name (l : I.Language) : string :=
  match l with
  | I.typescript => "typescript"
  | I.javascript => "javascript"
  | I.python => "python"
  | I.unknown => "unknown"
  end.

Definition whole_file (content0 : string) (l : I.Language) : Result (list I.CodeChunk) :=
  inr [ {| I.c_code := content0; I.c_startLine := 1; I.c_endLine := 1;
           I.c_type := "file"; I.c_name := None;
           I.c_language := language_name l |} ].

(** A file system in which every file was modified at time 10. *)
Definition disk : I.FileSystem :=
  {| I.mtimeMs := fun _ => inr 10;
     I.readFile := fun _ => inr "export const x = 1" |}.

Definition a_ts : string := "/repo/src/a.ts".

(** An indexer with empty tables and no pass running. *)
Definition fresh_index : I.State :=
  {| I.net := E.net0;
     I.code_chunks := [];
     I.index_stats := {| I.total_files := 0; I.total_chunks := 0;
                         I.last_indexed := 0; I.index_duration := 0 |};
     I.isIndexing := false;
     I.globCalls := 0;
     I.running := [] |}.

(** The row of [a.ts] once indexed with the vector [v]. *)
Definition a_ts_row (v : list R) : I.ChunkRow :=
  {| I.id := "src/a.ts:1-1:file";
     I.file_path := a_ts;
     I.relative_path := "src/a.ts";
     I.content := "export const x = 1";
     I.start_line := 1;
     I.end_line := 1;
     I.chunk_type := "file";
     I.chunk_name := None;
     I.language := "typescript";
     I.embedding := v;
     I.last_modified := 10 |}.

(** The indexer after [a.ts] was indexed with the vector [v]. *)
Definition indexed (v : list R) : I.State :=
  {| I.net := E.sent E.net0;
     I.code_chunks := [a_ts_row v];
     I.index_stats := I.index_stats fresh_index;
     I.isIndexing := false;
     I.globCalls := 0;
     I.running := [] |}.

(** The indexer while a first call of [indexCodebase], made at time 100,
    waits for [glob]. *)
Definition busy_index : I.State :=
  {| I.net := E.net0;
     I.code_chunks := [];
     I.index_stats := I.index_stats fresh_index;
     I.isIndexing := true;
     I.globCalls := 1;
     I.running := [I.AwaitGlob 100] |}.

(** The result of the row of [a.ts] with a similarity. *)
Definition a_ts_hit (v : list R) (similarity0 : R) : I.Hit :=
  I.hit_with similarity0 (a_ts_row v).

(** Options of a search. *)
Definition search_options (k : option Z) (t : option R) (l : option string)
    : option I.SearchOptions :=
  Some {| I.topK := k; I.threshold := t; I.opt_language := l |}.

End Samples.

(* ===================================================================== *)
(** * More sample inputs *)
(* ===================================================================== *)

Module MoreSamples.
Import Js.
Module E := EmbeddingService.

(** The response of a gateway that is down. *)
Definition bad_gateway : E.Response :=
  {| E.status := 502; E.text := "Bad Gateway"; E.json := inl (Error "Unexpected token") |}.

(** The response of an endpoint that limits the rate. *)
Definition too_many_requests : E.Response :=
  {| E.status := 429; E.text := "Too Many Requests";
     E.json := inl (Error "Unexpected token") |}.

(** A successful response that carries the given vector. *)
Definition embedded (v : list R) : E.Response :=
  {| E.status := 200; E.text := "";
     E.json := inr {| E.body_embedding := v; E.total_tokens := Some 4 |} |}.

(** An endpoint that is down for the first [k] requests and answers the
    others with the vector [v]. *)
Definition down_for (k : nat) (v : list R) : E.Network :=
  fun j _ => if (j <? k)%nat then E.Resolves bad_gateway else E.Resolves (embedded v).

(** A failed attempt recorded with a vector of one component. *)
Definition short_failure : CodeRetrievalService.Row :=
  {| CodeRetrievalService.id := 1;
     CodeRetrievalService.task := "parse a date";
     CodeRetrievalService.code := "...";
     CodeRetrievalService.language := "x";
     CodeRetrievalService.framework := None;
     CodeRetrievalService.tool := "gen";
     CodeRetrievalService.success := 0;
     CodeRetrievalService.embedding := [1%R];
     CodeRetrievalService.timestamp := 5;
     CodeRetrievalService.error_message := Some "boom";
     CodeRetrievalService.error_type := Some "runtime" |}.

(** A ledger that holds this row only. *)
Definition one_failure : CodeRetrievalService.State unit :=
  {| CodeRetrievalService.net := E.net0;
     CodeRetrievalService.rows := [short_failure];
     CodeRetrievalService.seq := 1;
     CodeRetrievalService.vectors := tt |}.

(** A collection that accepts every point. *)
Definition accepting_upsert (_ : QdrantService.CodePoint) : M unit unit :=
  fun c => (inr tt, c).

(** A chunker that fails on every text. *)
Definition broken_chunker (_ : string) (_ : CodebaseIndexerService.Language)
    : Result (list CodebaseIndexerService.CodeChunk) :=
  inl (Error "Unexpected token").

(** The chunk that [Samples.whole_file] makes of the text of [Samples.disk]. *)
Definition a_ts_chunk : CodebaseIndexerService.CodeChunk :=
  {| CodebaseIndexerService.c_code := "export const x = 1";
     CodebaseIndexerService.c_startLine := 1;
     CodebaseIndexerService.c_endLine := 1;
     CodebaseIndexerService.c_type := "file";
     CodebaseIndexerService.c_name := None;
     CodebaseIndexerService.c_language := "typescript" |}.







(** An index of three files whose stored vectors are (0, 1), (3, 4) and
    (1, 0), in this order. *)
Definition b_ts_row : CodebaseIndexerService.ChunkRow :=
  {| CodebaseIndexerService.id := "src/b.ts:1-1:file";
     CodebaseIndexerService.file_path := "/repo/src/b.ts";
     CodebaseIndexerService.relative_path := "src/b.ts";
     CodebaseIndexerService.content := "export const y = 2";
     CodebaseIndexerService.start_line := 1;
     CodebaseIndexerService.end_line := 1;
     CodebaseIndexerService.chunk_type := "file";
     CodebaseIndexerService.chunk_name := None;
     CodebaseIndexerService.language := "typescript";
     CodebaseIndexerService.embedding := [0; 1]%R;
     CodebaseIndexerService.last_modified := 10 |}.

Definition c_ts_row : CodebaseIndexerService.ChunkRow :=
  {| CodebaseIndexerService.id := "src/c.ts:1-1:file";
     CodebaseIndexerService.file_path := "/repo/src/c.ts";
     CodebaseIndexerService.relative_path := "src/c.ts";
     CodebaseIndexerService.content := "export const z = 3";
     CodebaseIndexerService.start_line := 1;
     CodebaseIndexerService.end_line := 1;
     CodebaseIndexerService.chunk_type := "file";
     CodebaseIndexerService.chunk_name := None;
     CodebaseIndexerService.language := "typescript";
     CodebaseIndexerService.embedding := [3; 4]%R;
     CodebaseIndexerService.last_modified := 10 |}.

Definition three_files : CodebaseIndexerService.State :=
  {| CodebaseIndexerService.net := E.net0;
     CodebaseIndexerService.code_chunks :=
       [b_ts_row; c_ts_row; Samples.a_ts_row [1; 0]%R];
     CodebaseIndexerService.index_stats :=
       CodebaseIndexerService.index_stats Samples.fresh_index;
     CodebaseIndexerService.isIndexing := false;
     CodebaseIndexerService.globCalls := 0;
     CodebaseIndexerService.running := [] |}.

(** The indexer after a pass over [a.ts], called at time 100 and ended at
    time 130, while a second pass, called at time 200, waits for [glob]. *)
Definition busy_after_pass : CodebaseIndexerService.State :=
  {| CodebaseIndexerService.net := E.sent E.net0;
     CodebaseIndexerService.code_chunks := [Samples.a_ts_row [1; 0]%R];
     CodebaseIndexerService.index_stats :=
       {| CodebaseIndexerService.total_files := 1;
          CodebaseIndexerService.total_chunks := 1;
          CodebaseIndexerService.last_indexed := 131;
          CodebaseIndexerService.index_duration := 30 |};
     CodebaseIndexerService.isIndexing := true;
     CodebaseIndexerService.globCalls := 2;
     CodebaseIndexerService.running := [CodebaseIndexerService.AwaitGlob 200] |}.

(** [join] of two path segments. *)
Definition join (root name : string) : string := root ++ "/" ++ name.

(** The service of [Samples.fresh_index] as its constructor leaves it, and
    with its watcher set. *)
Definition new_watcher : IndexWatcher.Watcher :=
  {| IndexWatcher.svc := Samples.fresh_index;
     IndexWatcher.watching := false;
     IndexWatcher.indexQueue := [];
     IndexWatcher.debounceTimer := None;
     IndexWatcher.live := [];
     IndexWatcher.nextTimer := 0 |}.

Definition idle_watcher : IndexWatcher.Watcher :=
  {| IndexWatcher.svc := Samples.fresh_index;
     IndexWatcher.watching := true;
     IndexWatcher.indexQueue := [];
     IndexWatcher.debounceTimer := None;
     IndexWatcher.live := [];
     IndexWatcher.nextTimer := 0 |}.

(** The watcher after a notification for [a.ts]. *)
Definition notified_watcher : IndexWatcher.Watcher :=
  {| IndexWatcher.svc := Samples.fresh_index;
     IndexWatcher.watching := true;
     IndexWatcher.indexQueue := [Samples.a_ts];
     IndexWatcher.debounceTimer := Some 0%nat;
     IndexWatcher.live := [0%nat];
     IndexWatcher.nextTimer := 1 |}.

(** The same while a pass of [indexCodebase] waits for [glob]. *)
Definition busy_watcher : IndexWatcher.Watcher :=
  {| IndexWatcher.svc := Samples.busy_index;
     IndexWatcher.watching := true;
     IndexWatcher.indexQueue := [Samples.a_ts];
     IndexWatcher.debounceTimer := Some 0%nat;
     IndexWatcher.live := [0%nat];
     IndexWatcher.nextTimer := 1 |}.

End MoreSamples.

(* ===================================================================== *)
(** * Properties of the array operations *)
(* ===================================================================== *)

Module JsFacts.
Import Js.
Local Open Scope list_scope.

Lemma Rgeb_true (x y : R) : Rgeb x y = true <-> (y <= x)%R.
Proof. unfold Rgeb. destruct (Rle_dec y x); split; intros; congruence || tauto. Qed.

Lemma filter_map_commute {A B} (f : A -> B) (p : B -> bool) (l : list A) :
  List.filter p (map f l) = map f (List.filter (fun x => p (f x)) l).
Proof.
  induction l as [|x l IH]; simpl; [reflexivity|].
  destruct (p (f x)); simpl; rewrite IH; reflexivity.
Qed.

Lemma filter_filter_stronger {A} (p q : A -> bool) (l : list A) :
  (forall x, p x = true -> q x = true) ->
  List.filter p (List.filter q l) = List.filter p l.
Proof.
  intros Himp. induction l as [|x l IH]; simpl; [reflexivity|].
  destruct (q x) eqn:Hq; simpl.
  - rewrite IH. reflexivity.
  - destruct (p x) eqn:Hp; [rewrite (Himp x Hp) in Hq; discriminate | exact IH].
Qed.

Section Sorting.
Context {A : Type} (key : A -> R).

Lemma insert_desc_perm (x : A) (l : list A) :
  Permutation (insert_desc key x l) (x :: l).
Proof.
  induction l as [|y l IH]; simpl; [apply Permutation_refl|].
  destruct (Rlt_dec (key x) (key y)).
  - eapply Permutation_trans; [apply perm_skip, IH | apply perm_swap].
  - apply Permutation_refl.
Qed.

Lemma sort_desc_perm (l : list A) : Permutation (sort_desc key l) l.
Proof.
  induction l as [|x l IH]; simpl; [apply perm_nil|].
  eapply Permutation_trans; [apply insert_desc_perm | apply perm_skip, IH].
Qed.

Lemma sort_desc_In (x : A) (l : list A) : In x (sort_desc key l) <-> In x l.
Proof.
  split; apply Permutation_in; [| apply Permutation_sym]; apply sort_desc_perm.
Qed.

Lemma insert_desc_sorted (x : A) (l : list A) :
  StronglySorted (before key) l -> StronglySorted (before key) (insert_desc key x l).
Proof.
  induction 1 as [|y l Hsorted IH Hall]; simpl.
  - constructor; constructor.
  - destruct (Rlt_dec (key x) (key y)) as [Hlt|Hge].
    + constructor; [exact IH|].
      apply Forall_forall. intros z Hz.
      apply (Permutation_in _ (insert_desc_perm x l)) in Hz.
      destruct Hz as [<-|Hz]; [unfold before; lra|].
      rewrite Forall_forall in Hall. apply Hall, Hz.
    + constructor; [constructor; assumption|].
      constructor; [unfold before; lra|].
      eapply Forall_impl; [|exact Hall]. unfold before. intros z Hz. lra.
Qed.

Lemma sort_desc_sorted (l : list A) : StronglySorted (before key) (sort_desc key l).
Proof.
  induction l as [|x l IH]; simpl; [constructor | apply insert_desc_sorted, IH].
Qed.

Lemma sorted_app_before (l1 l2 : list A) :
  StronglySorted (before key) (l1 ++ l2) ->
  forall x y, In x l1 -> In y l2 -> before key x y.
Proof.
  induction l1 as [|z l1 IH]; simpl; intros Hs x y Hx Hy; [contradiction|].
  inversion Hs as [|? ? Hs' Hall]; subst.
  destruct Hx as [<-|Hx].
  - rewrite Forall_forall in Hall. apply Hall, in_or_app. right. exact Hy.
  - exact (IH Hs' x y Hx Hy).
Qed.

Lemma sorted_firstn (n : nat) (l : list A) :
  StronglySorted (before key) l -> StronglySorted (before key) (firstn n l).
Proof.
  intros Hs. revert n. induction Hs as [|x l Hs IH Hall]; intros [|n]; simpl;
    try constructor.
  - apply IH.
  - rewrite Forall_forall in *. intros y Hy. apply Hall.
    rewrite <- (firstn_skipn n l). apply in_or_app. left. exact Hy.
Qed.

(** The first [n] elements of a sorted list are its [n] best: an element
    left out is not better than any element kept, and then [n] were kept. *)
Lemma firstn_best (n : nat) (l : list A) (x : A) :
  StronglySorted (before key) l -> In x l ->
  In x (firstn n l)
  \/ (List.length (firstn n l) = n /\ forall y, In y (firstn n l) -> before key y x).
Proof.
  intros Hs Hx. rewrite <- (firstn_skipn n l) in Hx, Hs.
  apply in_app_or in Hx. destruct Hx as [Hx|Hx]; [left; exact Hx | right].
  split.
  - apply firstn_length_le.
    destruct (Nat.le_gt_cases n (List.length l)) as [Hle|Hgt]; [exact Hle|].
    rewrite skipn_all2 in Hx by lia. contradiction.
  - intros y Hy. exact (sorted_app_before _ _ Hs y x Hy Hx).
Qed.

End Sorting.


End JsFacts.

(* ===================================================================== *)
(** * Properties of the embedding gateway *)
(* ===================================================================== *)

Module EmbeddingFacts.
Import Js EmbeddingService.

(** ** Retry *)

Lemma retryWithBackoff_unfold {A} (fn : M Net A) retries delay n :
  retryWithBackoff fn retries delay n =
  match fn n with
  | (inr v, n1) => (inr v, n1)
  | (inl error, n1) =>
      match retries with
      | O => (inl error, n1)
      | S retries' =>
          if negb (isRetryable error) then (inl error, n1)
          else retryWithBackoff fn retries' (delay * 2)
                 (snd (setTimeout delay n1))
      end
  end.
Proof.
  destruct retries; simpl; unfold try_catch, throw, bind;
    destruct (fn n) as [[e|v] n1]; try reflexivity.
  destruct (isRetryable e); reflexivity.
Qed.

(** A call that succeeds is not repeated. *)
Lemma retryWithBackoff_success {A} (fn : M Net A) retries delay n v n1 :
  fn n = (inr v, n1) -> retryWithBackoff fn retries delay n = (inr v, n1).
Proof. intros H. rewrite retryWithBackoff_unfold, H. reflexivity. Qed.

(** An error that is not retryable is thrown after the first call. *)
Lemma retryWithBackoff_gives_up {A} (fn : M Net A) retries delay n e n1 :
  fn n = (inl e, n1) -> isRetryable e = false ->
  retryWithBackoff fn retries delay n = (inl e, n1).
Proof.
  intros H Hr. rewrite retryWithBackoff_unfold, H, Hr.
  destruct retries; reflexivity.
Qed.

(** A thunk that sends one request and fails with the retryable error [e]
    every time is called [retries + 1] times, the waits double from one
    call to the next, and [e] is thrown in the end. *)
Lemma retryWithBackoff_exhausts {A} (fn : M Net A) e :
  (forall n, fn n = (inl e, sent n)) -> isRetryable e = true ->
  forall retries delay n,
    retryWithBackoff fn retries delay n =
    (inl e, {| requests := requests n + S retries;
               sleeps := rev (backoff retries delay) ++ sleeps n |}).
Proof.
  intros Hfn Hr. induction retries as [|r IH]; intros delay n;
    rewrite retryWithBackoff_unfold, Hfn.
  - simpl. unfold sent. do 2 f_equal. lia.
  - rewrite Hr. simpl negb. cbv iota. rewrite IH. simpl.
    f_equal. f_equal; [lia|]. rewrite <- app_assoc. reflexivity.
Qed.

Lemma backoff_doubles retries delay k :
  (k < retries)%nat -> nth k (backoff retries delay) 0 = delay * 2 ^ Z.of_nat k.
Proof.
  revert delay k. induction retries as [|r IH]; intros delay k Hk; [lia|].
  destruct k as [|k]; simpl backoff; simpl nth.
  - simpl. lia.
  - rewrite IH by lia. rewrite Nat2Z.inj_succ, Z.pow_succ_r by lia. ring.
Qed.

(** ** One request *)

Section Requests.
Variable cfg : Config.
Variable fetch : Network.

(** With a key, a request answered with a well-formed body yields the
    vector of the body after one request and no wait. *)
Lemma generateEmbedding_ok text0 n r body :
  truthy (apiKey cfg) = true ->
  fetch (requests n) (request_of cfg text0) = Resolves r ->
  ok r = true ->
  json r = inr body ->
  generateEmbedding cfg fetch text0 n =
  (inr {| embedding := body_embedding body;
          tokens := match total_tokens body with Some t => t | None => 0 end;
          result_model := defaultModel cfg |},
   sent n).
Proof.
  intros Hkey Hfetch Hok Hjson.
  unfold generateEmbedding, generateAPIEmbedding. rewrite Hkey. simpl negb. cbv iota.
  apply retryWithBackoff_success.
  unfold request_once, try_catch, bind, do_fetch. fold (request_of cfg text0).
  rewrite Hfetch, Hok. simpl negb. cbv iota.
  unfold lift, ret. rewrite Hjson. reflexivity.
Qed.

(** Without a key no request is sent. *)
Lemma generateEmbedding_no_key text0 n :
  truthy (apiKey cfg) = false ->
  generateEmbedding cfg fetch text0 n =
  (inl (Error "OPENROUTER_API_KEY must be configured for API embedding backend"), n).
Proof.
  intros Hkey. unfold generateEmbedding, generateAPIEmbedding.
  rewrite Hkey. reflexivity.
Qed.

End Requests.

(** ** Status codes and retries at the default endpoint *)

(** A server error is retried: with [retries] retries there are
    [retries + 1] requests, the waits are 1000, 2000, 4000, ... and the
    error of the last request is thrown. *)
Lemma server_error_is_retried (retries : nat) (text0 : string) (n : Net) :
  generateAPIEmbedding (Samples.cfg_with retries)
    (Samples.always (Samples.http 503 "Service Unavailable")) text0 n =
  (inl (Error "Embedding API error: 503 - Service Unavailable"),
   {| requests := requests n + S retries;
      sleeps := rev (backoff retries 1000) ++ sleeps n |}).
Proof.
  unfold generateAPIEmbedding. simpl negb. cbv iota.
  apply retryWithBackoff_exhausts; [intros n0; reflexivity | reflexivity].
Qed.

(** An unauthorized request is not retried. *)
Lemma unauthorized_is_not_retried (retries : nat) (text0 : string) (n : Net) :
  generateAPIEmbedding (Samples.cfg_with retries)
    (Samples.always (Samples.http 401 "Unauthorized")) text0 n =
  (inl (Error "Invalid OpenRouter API key. Please check your OPENROUTER_API_KEY configuration."),
   sent n).
Proof.
  unfold generateAPIEmbedding. simpl negb. cbv iota.
  apply retryWithBackoff_gives_up; reflexivity.
Qed.

(** A refused connection is not retried either: the error that [fetch]
    rejects with carries the code, the request thunk replaces it by an
    error whose message names the endpoint, and that message has none of
    the four markers unless the configured URL happens to. *)
Lemma refused_connection_is_not_retried (retries : nat) (text0 : string) (n : Net) :
  generateAPIEmbedding (Samples.cfg_with retries) (Samples.always Samples.refused) text0 n =
  (inl (Error "Cannot connect to OpenRouter API at https://openrouter.ai/api/v1/embeddings. Please check your network connection and API configuration."),
   sent n).
Proof.
  unfold generateAPIEmbedding. simpl negb. cbv iota.
  apply retryWithBackoff_gives_up; reflexivity.
Qed.

(** C7 (the code departs from the claim).  A request answered with HTTP 429
    is not retried, whatever the configured number of retries: the request
    thunk replaces the error by one whose message has no retryable marker,
    so a single request is sent, no wait is made, and that error is thrown. *)
Theorem rate_limited_request_is_not_retried :
  forall (retries : nat) (text0 : string) (n : Net),
    generateAPIEmbedding (Samples.cfg_with retries)
      (Samples.always (Samples.http 429 "Too Many Requests")) text0 n =
    (inl (Error "OpenRouter API rate limit exceeded. Please try again later."),
     sent n).
Proof.
  intros retries text0 n.
  unfold generateAPIEmbedding. simpl negb. cbv iota.
  apply retryWithBackoff_gives_up; reflexivity.
Qed.

(** ** Cosine similarity *)

Local Open Scope R_scope.

Lemma sums_from (a b : list R) : forall d na nb,
  List.length a = List.length b ->
  fold_left accumulate (combine a b) (d, na, nb)
  = (d + dot a b, na + dot a a, nb + dot b b).
Proof.
  revert b. induction a as [|x a IH]; intros [|y b] d na nb Hlen;
    simpl in *; try discriminate.
  - f_equal; [f_equal|]; ring.
  - injection Hlen as Hlen. rewrite IH by assumption. f_equal; [f_equal|]; ring.
Qed.

Lemma sums_dot (a b : list R) :
  List.length a = List.length b -> sums a b = (dot a b, dot a a, dot b b).
Proof.
  intros Hlen. unfold sums. rewrite sums_from by assumption.
  f_equal; [f_equal|]; ring.
Qed.

Lemma square_nonneg (x : R) : 0 <= x * x.
Proof. pose proof (Rle_0_sqr x) as Hx. unfold Rsqr in Hx. exact Hx. Qed.

Lemma dot_self_nonneg (a : list R) : 0 <= dot a a.
Proof.
  induction a as [|x a IH]; simpl; [lra | pose proof (square_nonneg x); lra].
Qed.

Lemma dot_self_pos (a : list R) : Exists (fun x => x <> 0) a -> 0 < dot a a.
Proof.
  induction 1 as [x a Hx | x a _ IH]; simpl.
  - pose proof (dot_self_nonneg a). pose proof (square_nonneg x).
    assert (x * x <> 0) by (intros H1; apply Rmult_integral in H1; tauto).
    lra.
  - pose proof (square_nonneg x). lra.
Qed.

(** The inequality of Cauchy and Schwarz, by induction on the vectors. *)
Lemma dot_square_le (a b : list R) :
  List.length a = List.length b ->
  dot a b * dot a b <= dot a a * dot b b.
Proof.
  revert b. induction a as [|x a IH]; intros [|y b] Hlen;
    simpl in *; try discriminate.
  - lra.
  - injection Hlen as Hlen. specialize (IH b Hlen).
    pose proof (dot_self_nonneg a). pose proof (dot_self_nonneg b).
    set (d := dot a b) in *. set (p := dot a a) in *. set (q := dot b b) in *.
    pose proof (square_nonneg x) as Hxx. pose proof (square_nonneg y) as Hyy.
    assert (HX : 0 <= x * x * q) by (apply Rmult_le_pos; assumption).
    assert (HY : 0 <= y * y * p) by (apply Rmult_le_pos; assumption).
    assert (Hd : (x * x * (y * y)) * (d * d) <= (x * x * (y * y)) * (p * q)).
    { apply Rmult_le_compat_l; [apply Rmult_le_pos; assumption | assumption]. }
    pose proof (square_nonneg (x * x * q - y * y * p)) as Hsq.
    assert (H1 : 2 * (x * y * d) <= x * x * q + y * y * p).
    { apply Rsqr_incr_0_var; [| lra]. unfold Rsqr. nra. }
    nra.
Qed.

(** A quotient whose square is at most 1. *)
Lemma quotient_bounds (d p q : R) :
  0 < p -> 0 < q -> d * d <= p * q ->
  -1 <= d / (sqrt p * sqrt q) <= 1.
Proof.
  intros Hp Hq Hd.
  pose proof (sqrt_lt_R0 p Hp) as Hsp. pose proof (sqrt_lt_R0 q Hq) as Hsq.
  set (m := sqrt p * sqrt q).
  assert (Hm : 0 < m) by (apply Rmult_lt_0_compat; assumption).
  assert (Hmm : m * m = p * q).
  { unfold m. replace (sqrt p * sqrt q * (sqrt p * sqrt q))
      with ((sqrt p * sqrt p) * (sqrt q * sqrt q)) by ring.
    rewrite !sqrt_sqrt by lra. reflexivity. }
  assert (Hle : d <= m).
  { apply Rsqr_incr_0_var; [unfold Rsqr; lra | lra]. }
  assert (Hge : - d <= m).
  { apply Rsqr_incr_0_var; [unfold Rsqr; lra | lra]. }
  split.
  - apply Rmult_le_reg_r with m; [assumption|].
    unfold Rdiv. rewrite Rmult_assoc, Rinv_l by lra. lra.
  - apply Rmult_le_reg_r with m; [assumption|].
    unfold Rdiv. rewrite Rmult_assoc, Rinv_l by lra. lra.
Qed.

Lemma quotient_self (p : R) : 0 < p -> p / (sqrt p * sqrt p) = 1.
Proof.
  intros Hp. rewrite sqrt_sqrt by lra. unfold Rdiv. apply Rinv_r. lra.
Qed.

(** The quotient of the loop, for vectors of the same length. *)
Lemma cosine_dot (a b : list R) :
  List.length a = List.length b ->
  cosine a b = dot a b / (sqrt (dot a a) * sqrt (dot b b)).
Proof. intros Hlen. unfold cosine. rewrite sums_dot by assumption. reflexivity. Qed.

Lemma cosine_bounds (a b : list R) :
  List.length a = List.length b ->
  Exists (fun x => x <> 0) a -> Exists (fun x => x <> 0) b ->
  -1 <= cosine a b <= 1.
Proof.
  intros Hlen Ha Hb. rewrite cosine_dot by assumption.
  apply quotient_bounds; [apply dot_self_pos | apply dot_self_pos | apply dot_square_le];
    assumption.
Qed.

Lemma cosine_self (a : list R) : Exists (fun x => x <> 0) a -> cosine a a = 1.
Proof.
  intros Ha. rewrite cosine_dot by reflexivity.
  apply quotient_self, dot_self_pos, Ha.
Qed.

(** Orthogonal vectors have similarity 0. *)
Lemma cosine_orthogonal (a b : list R) :
  List.length a = List.length b -> dot a b = 0 -> cosine a b = 0.
Proof.
  intros Hlen Hd. rewrite cosine_dot by assumption. rewrite Hd.
  unfold Rdiv. apply Rmult_0_l.
Qed.

(** In exact arithmetic, for two nonzero vectors of the same length, the
    quotient that both implementations of the cosine similarity compute
    is the same number, which lies between -1 and 1, and it is 1 for a
    nonzero vector and itself.  This is the value that the binary64
    operations of the loop approximate; the rounded value is not covered. *)
Theorem cosine_similarity_bounds :
  forall a b : list R,
    List.length a = List.length b ->
    Exists (fun x => x <> 0) a ->
    Exists (fun x => x <> 0) b ->
    (exists c,
        cosineSimilarity a b = inr c
        /\ CodebaseIndexerService.cosineSimilarity a b = inr c
        /\ -1 <= c <= 1)
    /\ cosineSimilarity a a = inr 1
    /\ CodebaseIndexerService.cosineSimilarity a a = inr 1.
Proof.
  intros a b Hlen Ha Hb.
  unfold cosineSimilarity, CodebaseIndexerService.cosineSimilarity.
  rewrite Hlen, !Nat.eqb_refl. simpl negb. cbv iota.
  rewrite (cosine_self a Ha).
  split; [| split; reflexivity].
  exists (cosine a b). split; [reflexivity | split; [reflexivity |]].
  apply cosine_bounds; assumption.
Qed.

(** The vectors (3, 4) and (4, 3): similarity 24/25. *)
Lemma cosine_similarity_bounds_witness :
  (exists c,
      cosineSimilarity [3; 4] [4; 3] = inr c
      /\ CodebaseIndexerService.cosineSimilarity [3; 4] [4; 3] = inr c
      /\ -1 <= c <= 1)
  /\ cosineSimilarity [3; 4] [3; 4] = inr 1
  /\ CodebaseIndexerService.cosineSimilarity [3; 4] [3; 4] = inr 1.
Proof.
  apply (cosine_similarity_bounds [3; 4] [4; 3]).
  - reflexivity.
  - apply Exists_cons_hd. lra.
  - apply Exists_cons_hd. lra.
Defined.


(** A vector whose squared norm is in range is not the zero vector. *)
Lemma norm_in_range_nonzero (v : list R) :
  Measures.norm_in_range v -> Exists (fun x => x <> 0) v.
Proof.
  intros [Hlow _].
  assert (Hpos : 0 < dot v v).
  { apply Rlt_le_trans with (/ 2 ^ 500); [|exact Hlow].
    apply Rinv_0_lt_compat, pow_lt. lra. }
  clear Hlow. induction v as [|x v IH]; simpl in Hpos; [lra|].
  destruct (Req_dec x 0) as [->|Hx]; [|left; exact Hx].
  right. apply IH. lra.
Qed.

End EmbeddingFacts.
(* ===================================================================== *)
(** * Rounding in cosineSimilarity *)
(* ===================================================================== *)

Module RoundingFacts.
Import PrimFloat.
Local Open Scope float_scope.

(** The three sums for the vector (1, 1, 1) against itself are exact. *)
Lemma sums_of_ones : Binary64.sums [1; 1; 1] [1; 1; 1] = (3, 3, 3).
Proof. reflexivity. Qed.

(** The square root of 3 is rounded down, and so is its square. *)
Lemma sqrt_3_squared : sqrt 3 * sqrt 3 = 0x1.7ffffffffffffp+1.
Proof. reflexivity. Qed.

Lemma sqrt_3_squared_below_3 : (sqrt 3 * sqrt 3 <? 3) = true.
Proof. reflexivity. Qed.

(** The square of 2^-600 is below the least positive number. *)
Lemma square_underflows : 0x1p-600 * 0x1p-600 = 0.
Proof. reflexivity. Qed.

Lemma sums_of_small : Binary64.sums [0x1p-600; 0] [1; 0] = (0x1p-600, 0, 1).
Proof. reflexivity. Qed.

Lemma sums_of_small_self : Binary64.sums [0x1p-600; 0] [0x1p-600; 0] = (0, 0, 0).
Proof. reflexivity. Qed.

(** The vector with the three components 1 / sqrt 3: its squared norm, as
    the loop adds it up, is the number after 1, and the root of that, the
    norm, is 1. *)
Lemma sums_of_unit :
  Binary64.sums [1 / sqrt 3; 1 / sqrt 3; 1 / sqrt 3] [1 / sqrt 3; 1 / sqrt 3; 1 / sqrt 3]
  = (0x1.0000000000001p+0, 0x1.0000000000001p+0, 0x1.0000000000001p+0).
Proof. reflexivity. Qed.

Lemma norm_of_unit : sqrt 0x1.0000000000001p+0 = 1.
Proof. reflexivity. Qed.

(** C9 (the code departs from the claim).  Four pairs of nonzero vectors
    of equal length.  The vector (1, 1, 1) against itself: both
    [cosineSimilarity] functions return 1.0000000000000002, the number
    after 1, which is above 1.  So does the embedding service for the
    vector of norm 1 with three equal components.  The vector (2^-600, 0)
    against (1, 0): the squared norm underflows to 0 and the embedding
    service returns Infinity.  The vector (2^-600, 0) against itself: it
    returns NaN, which is not 1 within any tolerance. *)
Theorem cosineSimilarity_leaves_the_interval :
  let above_1 := 0x1.0000000000001p+0 in
  let normalized := [1 / sqrt 3; 1 / sqrt 3; 1 / sqrt 3] in
  (1 <? above_1) = true
  /\ Binary64.cosineSimilarity [1; 1; 1] [1; 1; 1] = inr above_1
  /\ Binary64.cosineSimilarity_of_indexer [1; 1; 1] [1; 1; 1] = inr above_1
  /\ Binary64.cosineSimilarity normalized normalized = inr above_1
  /\ Binary64.cosineSimilarity [0x1p-600; 0] [1; 0] = inr infinity
  /\ Binary64.cosineSimilarity [0x1p-600; 0] [0x1p-600; 0] = inr nan.
Proof.
  intros above_1 normalized. subst above_1 normalized.
  unfold Binary64.cosineSimilarity, Binary64.cosineSimilarity_of_indexer, Binary64.cosine.
  cbn [List.length Nat.eqb negb].
  rewrite sums_of_ones, sums_of_unit, sums_of_small, sums_of_small_self.
  rewrite sqrt_3_squared, norm_of_unit.
  split; [reflexivity|]. split; [reflexivity|]. split; [reflexivity|].
  split; [reflexivity|]. split; reflexivity.
Qed.

End RoundingFacts.


(* ===================================================================== *)
(** * Properties of the example ledger and of retrieval *)
(* ===================================================================== *)

Module RetrievalFacts.
Import Js CodeRetrievalService.

Section Service.
Variable cfg : E.Config.
Variable fetch : E.Network.
Variable Collection : Type.
Variable client_upsert : Q.CodePoint -> M Collection unit.
Variable client_search :
  list R -> Z -> option Q.Filter -> Collection -> Result (list Q.SearchResult).
Variable defaultTopK : Z.
Variable defaultThreshold : R.
Variable Date_now : Z.

Local Abbreviation store :=
  (storeExample cfg fetch Collection client_upsert Date_now).
Local Abbreviation retrieve :=
  (retrieveSimilarExamples cfg fetch Collection client_search defaultTopK defaultThreshold).

(** ** Submission *)

(** C1.  When the embedding of the task and the INSERT succeed and the
    upsert into the collection throws, [storeExample] returns the identifier
    of the new row and throws nothing, and the row is in the table: the table
    is the old one followed by the new row. *)
Theorem storeExample_survives_vector_failure :
  forall (example0 : Example) (s : State Collection) r n' e c',
    E.generateEmbedding cfg fetch (ex_task example0) (net s) = (inr r, n') ->
    client_upsert (codePoint Date_now example0 (seq s + 1) (E.embedding r)) (vectors s)
      = (inl e, c') ->
    store None example0 s =
    (inr (seq s + 1),
     {| net := n';
        rows := rows s ++ [example_row Date_now example0 (seq s + 1) (E.embedding r)];
        seq := seq s + 1;
        vectors := c' |}).
Proof.
  intros example0 s r n' e c' Hemb Hup.
  unfold storeExample, try_catch, bind, on_net, on_vectors, db_insert, ret,
    Q.upsertPoint.
  rewrite Hemb. cbn. rewrite Hup. reflexivity.
Qed.

(** The same call with a reachable collection differs only in the state of
    the collection. *)
Lemma storeExample_stores_both (example0 : Example) (s : State Collection) r n' c' :
  E.generateEmbedding cfg fetch (ex_task example0) (net s) = (inr r, n') ->
  client_upsert (codePoint Date_now example0 (seq s + 1) (E.embedding r)) (vectors s)
    = (inr tt, c') ->
  store None example0 s =
  (inr (seq s + 1),
   {| net := n';
      rows := rows s ++ [example_row Date_now example0 (seq s + 1) (E.embedding r)];
      seq := seq s + 1;
      vectors := c' |}).
Proof.
  intros Hemb Hup.
  unfold storeExample, try_catch, bind, on_net, on_vectors, db_insert, ret,
    Q.upsertPoint.
  rewrite Hemb. cbn. rewrite Hup. reflexivity.
Qed.

(** A failure of the embedding reaches the caller, and nothing is written. *)
Lemma storeExample_embedding_error_propagates fault (example0 : Example)
    (s : State Collection) e n' :
  E.generateEmbedding cfg fetch (ex_task example0) (net s) = (inl e, n') ->
  store fault example0 s =
  (inl e, {| net := n'; rows := rows s; seq := seq s; vectors := vectors s |}).
Proof.
  intros Hemb. unfold storeExample, try_catch, bind, on_net, throw.
  rewrite Hemb. reflexivity.
Qed.

(** A failure of the INSERT reaches the caller, and the collection is not
    called. *)
Lemma storeExample_insert_error_propagates e (example0 : Example)
    (s : State Collection) r n' :
  E.generateEmbedding cfg fetch (ex_task example0) (net s) = (inr r, n') ->
  store (Some e) example0 s =
  (inl e, {| net := n'; rows := rows s; seq := seq s; vectors := vectors s |}).
Proof.
  intros Hemb. unfold storeExample, try_catch, bind, on_net, db_insert, throw.
  rewrite Hemb. reflexivity.
Qed.

(** ** Retrieval *)

(** [retrieveSimilarExamples] returns a list on every input. *)
Lemma retrieveSimilarExamples_never_throws task0 options (s : State Collection) :
  exists l, fst (retrieve task0 options s) = inr l.
Proof.
  unfold retrieveSimilarExamples, try_catch, bind, on_net, on_vectors, ret,
    Q.searchDense.
  destruct (E.generateEmbedding cfg fetch task0 (net s)) as [[e|r] n']; cbn.
  - eexists; reflexivity.
  - destruct (client_search _ _ _ _) as [e|found]; cbn; eexists; reflexivity.
Qed.

(** So does [retrieveSimilarErrors], whose ranking is done in memory. *)
Lemma retrieveSimilarErrors_never_throws task0 options (s : State Collection) :
  exists l,
    fst (retrieveSimilarErrors cfg fetch Collection defaultTopK defaultThreshold
           task0 options s) = inr l.
Proof.
  unfold retrieveSimilarErrors, try_catch, bind, on_net, lift, ret.
  destruct (E.generateEmbedding cfg fetch task0 (net s)) as [[e|r] n'];
    [eexists; reflexivity|].
  cbv beta iota.
  destruct (E.findMostSimilar _ _ _ _); eexists; reflexivity.
Qed.

(** C2.  When the embedding of the query throws, or the search of the
    collection throws, [retrieveSimilarExamples] returns the empty list and
    throws nothing. *)
Theorem retrieveSimilarExamples_degrades_to_empty :
  forall task0 options (s : State Collection),
    embedding_fails cfg fetch Collection task0 s
    \/ index_unavailable cfg fetch Collection client_search defaultTopK task0 options s ->
    fst (retrieve task0 options s) = inr [].
Proof.
  intros task0 options s [(e & n' & Hemb) | (r & n' & e & Hemb & Hsearch)];
    unfold retrieveSimilarExamples, try_catch, bind, on_net, on_vectors, ret,
      Q.searchDense; rewrite Hemb; cbn.
  - reflexivity.
  - cbn in Hsearch. rewrite Hsearch. reflexivity.
Qed.

(** The list returned with threshold [t]: the hits of the search whose score
    is at least [t], in the order of the search. *)
Lemma retrieveSimilarExamples_success task0 options (s : State Collection) r n' found :
  E.generateEmbedding cfg fetch task0 (net s) = (inr r, n') ->
  client_search (E.embedding r)
    (Q.limit_of {| Q.topK := Some (topK_of defaultTopK options);
                   Q.filter := Some (build_filter (opt_tool options) (opt_language options)) |})
    (Some (build_filter (opt_tool options) (opt_language options)))
    (vectors s) = inr found ->
  fst (retrieve task0 options s) =
  inr (map to_result
         (List.filter (fun result => Rgeb (Q.score result) (threshold_of defaultThreshold options))
            found)).
Proof.
  intros Hemb Hsearch.
  unfold retrieveSimilarExamples, try_catch, bind, on_net, on_vectors, ret,
    Q.searchDense. rewrite Hemb. cbn. cbn in Hsearch. rewrite Hsearch. reflexivity.
Qed.

(** C5.  With the same query, state and other options, the list returned for
    the higher threshold [t2] consists of the results of the list for the
    lower threshold [t1] whose similarity is at least [t2], in the same
    order; so it is included in it, and every result of either list has a
    similarity of at least the threshold asked for. *)
Theorem retrieveSimilarExamples_threshold_monotone :
  forall task0 options (s : State Collection) (t1 t2 : R),
    (t1 < t2)%R ->
    exists l1 l2,
      fst (retrieve task0 (with_threshold t1 options) s) = inr l1
      /\ fst (retrieve task0 (with_threshold t2 options) s) = inr l2
      /\ l2 = List.filter (fun r => Rgeb (similarity r) t2) l1
      /\ incl l2 l1
      /\ Forall (fun r => (t1 <= similarity r)%R) l1
      /\ Forall (fun r => (t2 <= similarity r)%R) l2.
Proof.
  intros task0 options s t1 t2 Hlt.
  unfold retrieveSimilarExamples, try_catch, bind, on_net, on_vectors, ret,
    Q.searchDense.
  destruct (E.generateEmbedding cfg fetch task0 (net s)) as [[e|r] n']; cbn.
  - exists [], []. repeat split; try reflexivity; try constructor.
    apply incl_refl.
  - change (topK_of defaultTopK (with_threshold t1 options))
      with (topK_of defaultTopK options).
    change (topK_of defaultTopK (with_threshold t2 options))
      with (topK_of defaultTopK options).
    destruct (client_search _ _ _ _) as [e|found]; cbn.
    + exists [], []. repeat split; try reflexivity; try constructor.
      apply incl_refl.
    + eexists. eexists. split; [reflexivity|]. split; [reflexivity|].
      assert (Heq :
        map to_result (List.filter (fun result => Rgeb (Q.score result) t2) found)
        = List.filter (fun r0 => Rgeb (similarity r0) t2)
            (map to_result (List.filter (fun result => Rgeb (Q.score result) t1) found))).
      { rewrite JsFacts.filter_map_commute. cbn [similarity to_result].
        rewrite JsFacts.filter_filter_stronger; [reflexivity|].
        intros x Hx. apply JsFacts.Rgeb_true in Hx. apply JsFacts.Rgeb_true. lra. }
      split; [exact Heq|]. split.
      * rewrite Heq. intros x Hx. apply filter_In in Hx. tauto.
      * split; apply Forall_forall; intros x Hx; apply in_map_iff in Hx;
          destruct Hx as (y & <- & Hy); apply filter_In in Hy;
          destruct Hy as [_ Hy]; apply JsFacts.Rgeb_true in Hy; exact Hy.
Qed.

End Service.

(** An example stored while the collection is unreachable. *)
Lemma storeExample_survives_vector_failure_witness :
  storeExample Samples.cfg (Samples.always (Samples.embeds [1; 0]%R)) unit
    Samples.unreachable_upsert 1700000000000 None
    Samples.reverse_example Samples.empty_ledger =
  (inr 1,
   {| net := E.sent E.net0;
      rows := [example_row 1700000000000 Samples.reverse_example 1 [1; 0]%R];
      seq := 1;
      vectors := tt |}).
Proof.
  apply (storeExample_survives_vector_failure
           Samples.cfg (Samples.always (Samples.embeds [1; 0]%R)) unit
           Samples.unreachable_upsert 1700000000000
           Samples.reverse_example Samples.empty_ledger
           {| E.embedding := [1; 0]%R; E.tokens := 4;
              E.result_model := E.defaultModel Samples.cfg |}
           (E.sent E.net0)
           (mkError "connect ECONNREFUSED 54.37.225.188:6333" (Some "ECONNREFUSED"))
           tt); reflexivity.
Defined.

(** A query made while the collection is unreachable. *)
Lemma retrieveSimilarExamples_degrades_to_empty_witness :
  fst (retrieveSimilarExamples Samples.cfg (Samples.always (Samples.embeds [1; 0]%R))
         unit Samples.unreachable_search 3 0.6%R
         "reverse a string" Samples.no_options Samples.empty_ledger) = inr [].
Proof.
  apply (retrieveSimilarExamples_degrades_to_empty
           Samples.cfg (Samples.always (Samples.embeds [1; 0]%R))
           unit Samples.unreachable_search 3 0.6%R
           "reverse a string" Samples.no_options Samples.empty_ledger).
  right.
  exists {| E.embedding := [1; 0]%R; E.tokens := 4;
            E.result_model := E.defaultModel Samples.cfg |}.
  exists (E.sent E.net0).
  exists (mkError "connect ECONNREFUSED 54.37.225.188:6333" (Some "ECONNREFUSED")).
  split; reflexivity.
Defined.

(** The thresholds 0.5 and 0.8 over a search that finds scores 0.9 and 0.6. *)
Lemma retrieveSimilarExamples_threshold_monotone_witness :
  exists l1 l2,
    fst (retrieveSimilarExamples Samples.cfg (Samples.always (Samples.embeds [1; 0]%R))
           unit Samples.two_hits 3 0.6%R "reverse a string"
           (with_threshold 0.5 Samples.no_options) Samples.empty_ledger) = inr l1
    /\ fst (retrieveSimilarExamples Samples.cfg (Samples.always (Samples.embeds [1; 0]%R))
              unit Samples.two_hits 3 0.6%R "reverse a string"
              (with_threshold 0.8 Samples.no_options) Samples.empty_ledger) = inr l2
    /\ l2 = List.filter (fun r => Rgeb (similarity r) 0.8) l1
    /\ incl l2 l1
    /\ Forall (fun r => (0.5 <= similarity r)%R) l1
    /\ Forall (fun r => (0.8 <= similarity r)%R) l2.
Proof.
  apply (retrieveSimilarExamples_threshold_monotone
           Samples.cfg (Samples.always (Samples.embeds [1; 0]%R))
           unit Samples.two_hits 3 0.6%R "reverse a string"
           Samples.no_options Samples.empty_ledger 0.5%R 0.8%R).
  lra.
Defined.

(** The two lists of that run: both hits pass 0.5, one passes 0.8. *)
Lemma two_hits_thresholds :
  map similarity
    (match fst (retrieveSimilarExamples Samples.cfg
                  (Samples.always (Samples.embeds [1; 0]%R))
                  unit Samples.two_hits 3 0.6%R "reverse a string"
                  (with_threshold 0.5 Samples.no_options) Samples.empty_ledger) with
     | inr l => l
     | inl _ => []
     end) = [0.9; 0.6]%R
  /\ map similarity
       (match fst (retrieveSimilarExamples Samples.cfg
                     (Samples.always (Samples.embeds [1; 0]%R))
                     unit Samples.two_hits 3 0.6%R "reverse a string"
                     (with_threshold 0.8 Samples.no_options) Samples.empty_ledger) with
        | inr l => l
        | inl _ => []
        end) = [0.9]%R.
Proof.
  split.
  - erewrite retrieveSimilarExamples_success; [| reflexivity | reflexivity].
    cbn. unfold Rgeb.
    destruct (Rle_dec 0.5 0.9) as [_|H]; [| exfalso; apply H; lra].
    destruct (Rle_dec 0.5 0.6) as [_|H]; [| exfalso; apply H; lra].
    reflexivity.
  - erewrite retrieveSimilarExamples_success; [| reflexivity | reflexivity].
    cbn. unfold Rgeb.
    destruct (Rle_dec 0.8 0.9) as [_|H]; [| exfalso; apply H; lra].
    destruct (Rle_dec 0.8 0.6) as [H|_]; [exfalso; lra |].
    reflexivity.
Qed.

End RetrievalFacts.

(* ===================================================================== *)
(** * Properties of the statistics over the ledger *)
(* ===================================================================== *)

Module LedgerFacts.
Import Js CodeRetrievalService.

(** ** Groups and their counts *)

Lemma bump_keys (k k' : string) (groups : list (string * Z)) :
  In k' (map fst (bump k groups)) <-> k' = k \/ In k' (map fst groups).
Proof.
  induction groups as [|[k0 n] rest IH]; simpl.
  - intuition congruence.
  - destruct (String.eqb_spec k k0) as [->|Hne]; simpl; [intuition congruence|].
    rewrite IH. tauto.
Qed.

Lemma bump_well_grouped (k : string) (groups : list (string * Z)) :
  well_grouped groups -> well_grouped (bump k groups).
Proof.
  intros [Hnd Hpos]. induction groups as [|[k0 n] rest IH]; simpl.
  - split; repeat constructor. simpl. tauto.
  - inversion Hnd as [|? ? Hnotin Hnd']; subst.
    inversion Hpos as [|? ? Hn Hpos']; subst. simpl in Hn.
    destruct (String.eqb_spec k k0) as [->|Hne]; simpl.
    + split; constructor; simpl; try assumption. lia.
    + destruct (IH Hnd' Hpos') as [IH1 IH2].
      split; constructor; simpl; try assumption.
      rewrite bump_keys. intros [->|Hin]; [congruence | contradiction].
Qed.

Lemma tally_bump (k k' : string) (groups : list (string * Z)) :
  tally k' (bump k groups) = tally k' groups + (if String.eqb k' k then 1 else 0).
Proof.
  unfold tally. induction groups as [|[k0 n] rest IH]; simpl.
  - destruct (String.eqb k' k); reflexivity.
  - destruct (String.eqb_spec k k0) as [->|Hne]; simpl.
    + destruct (String.eqb k' k0); lia.
    + destruct (String.eqb_spec k' k0) as [->|Hne'].
      * destruct (String.eqb_spec k0 k) as [->|_]; [congruence | lia].
      * exact IH.
Qed.

Lemma assoc_tally (k : string) (groups : list (string * Z)) :
  well_grouped groups -> assoc k groups = entry_of (tally k groups).
Proof.
  intros [_ Hpos]. unfold tally, entry_of.
  induction Hpos as [|[k0 n] rest Hn _ IH]; simpl; [reflexivity|].
  simpl in Hn. destruct (String.eqb k k0).
  - destruct (Z.eqb_spec n 0); [lia | reflexivity].
  - exact IH.
Qed.

(** ** GROUP BY *)

Lemma count_where_cons (p : Row -> bool) (r : Row) (table : list Row) :
  count_where p (r :: table) = (if p r then 1 else 0) + count_where p table.
Proof.
  unfold count_where. simpl. destruct (p r); simpl List.length; lia.
Qed.

Lemma group_count_from (p : Row -> bool) (key : Row -> option string)
    (table : list Row) : forall groups,
  well_grouped groups ->
  let result :=
    fold_left (fun groups r =>
                 if p r then match key r with
                             | Some k => bump k groups
                             | None => groups
                             end
                 else groups) table groups in
  well_grouped result
  /\ forall k, tally k result = tally k groups + count_where (in_group p key k) table.
Proof.
  induction table as [|r table IH]; intros groups Hwg; simpl.
  - split; [assumption|]. intros k. unfold count_where. simpl. lia.
  - set (groups' := if p r then match key r with
                                | Some k => bump k groups
                                | None => groups
                                end
                    else groups).
    assert (Hwg' : well_grouped groups').
    { unfold groups'. destruct (p r); [destruct (key r)|]; try assumption.
      apply bump_well_grouped. assumption. }
    destruct (IH groups' Hwg') as [IH1 IH2]. split; [exact IH1|].
    intros k. rewrite IH2, count_where_cons. unfold groups', in_group.
    destruct (p r); simpl; [destruct (key r) as [k0|]|]; try lia.
    rewrite tally_bump. lia.
Qed.

Lemma group_count_spec (p : Row -> bool) (key : Row -> option string)
    (table : list Row) :
  well_grouped (group_count p key table)
  /\ forall k, tally k (group_count p key table) = count_where (in_group p key k) table.
Proof.
  destruct (group_count_from p key table [] (conj (NoDup_nil _) (Forall_nil _)))
    as [H1 H2].
  split; [exact H1|]. intros k. unfold group_count. rewrite (H2 k). reflexivity.
Qed.

(** Rows outside the WHERE clause do not matter to the groups. *)
Lemma group_count_filter (p q : Row -> bool) (key : Row -> option string)
    (table : list Row) :
  (forall r, p r = true -> q r = true) ->
  group_count p key (List.filter q table) = group_count p key table.
Proof.
  intros Himp. unfold group_count. generalize (@nil (string * Z)).
  induction table as [|r table IH]; intros groups; simpl; [reflexivity|].
  destruct (q r) eqn:Hq; simpl.
  - apply IH.
  - destruct (p r) eqn:Hp; [rewrite (Himp r Hp) in Hq; discriminate | apply IH].
Qed.

Lemma count_where_filter (p q : Row -> bool) (table : list Row) :
  (forall r, p r = true -> q r = true) ->
  count_where p (List.filter q table) = count_where p table.
Proof.
  intros Himp. unfold count_where.
  rewrite JsFacts.filter_filter_stronger by assumption. reflexivity.
Qed.

(** ** Object.fromEntries *)

Lemma fromEntries_from (entries : list (string * Z)) : forall (m : gmap string Z) k,
  NoDup (map fst entries) ->
  fold_left (fun m kv => <[fst kv := snd kv]> m) entries m !! k =
  match assoc k entries with
  | Some v => Some v
  | None => m !! k
  end.
Proof.
  induction entries as [|[k0 v] rest IH]; intros m k Hnd; simpl; [reflexivity|].
  inversion Hnd as [|? ? Hnotin Hnd']; subst.
  rewrite IH by assumption.
  destruct (String.eqb_spec k k0) as [->|Hne].
  - assert (Hnone : assoc k0 rest = None).
    { clear -Hnotin. induction rest as [|[k1 v1] rest IH]; simpl; [reflexivity|].
      simpl in Hnotin. destruct (String.eqb_spec k0 k1) as [->|_]; [tauto|].
      apply IH. tauto. }
    rewrite Hnone. apply lookup_insert_eq.
  - destruct (assoc k rest); [reflexivity|].
    apply lookup_insert_ne. congruence.
Qed.

Lemma fromEntries_lookup (entries : list (string * Z)) (k : string) :
  NoDup (map fst entries) -> fromEntries entries !! k = assoc k entries.
Proof.
  intros Hnd. unfold fromEntries. rewrite fromEntries_from by assumption.
  destruct (assoc k entries); [reflexivity | apply lookup_empty].
Qed.

(** The object built from a GROUP BY maps each key to the number of rows of
    its group, and has no entry for a key without rows. *)
Lemma grouped_lookup (p : Row -> bool) (key : Row -> option string)
    (table : list Row) (k : string) :
  fromEntries (group_count p key table) !! k
  = entry_of (count_where (in_group p key k) table).
Proof.
  destruct (group_count_spec p key table) as [Hwg Htally].
  rewrite fromEntries_lookup by apply Hwg.
  rewrite assoc_tally by assumption. rewrite Htally. reflexivity.
Qed.

(** ** The two statistics *)

Lemma succeeded_not_failed (r : Row) : succeeded r = true -> negb (failed r) = true.
Proof.
  unfold succeeded, failed. intros H. apply Z.eqb_eq in H. rewrite H. reflexivity.
Qed.

(** C10.  The total of [getStats] is the number of rows with [success = 1],
    its objects map a tool, or a language, to the number of such rows with
    that tool, or language, and removing every failed row from the table
    changes none of the three.  The total of [getErrorStats] is the number of
    rows with [success = 0], its objects count such rows by language and by
    error type, and it is computed from the failed rows alone. *)
Theorem getStats_counts_successes_only :
  forall table : list Row,
    total (getStats table) = Z.of_nat (List.length (List.filter succeeded table))
    /\ (forall t,
          byTool (getStats table) !! t =
          entry_of (count_where (fun r => succeeded r && String.eqb t (tool r)) table))
    /\ (forall l,
          byLanguage (getStats table) !! l =
          entry_of (count_where (fun r => succeeded r && String.eqb l (language r)) table))
    /\ getStats (List.filter (fun r => negb (failed r)) table) = getStats table
    /\ totalErrors (getErrorStats table)
       = Z.of_nat (List.length (List.filter failed table))
    /\ (forall l,
          errorsByLanguage (getErrorStats table) !! l =
          entry_of (count_where (fun r => failed r && String.eqb l (language r)) table))
    /\ (forall t,
          byErrorType (getErrorStats table) !! t =
          entry_of (count_where (in_group failed error_type t) table))
    /\ getErrorStats (List.filter failed table) = getErrorStats table.
Proof.
  intros table. repeat split.
  - intros t. apply (grouped_lookup succeeded (fun r => Some (tool r))).
  - intros l. apply (grouped_lookup succeeded (fun r => Some (language r))).
  - unfold getStats.
    rewrite !group_count_filter, count_where_filter
      by (intros r; apply succeeded_not_failed).
    reflexivity.
  - intros l. apply (grouped_lookup failed (fun r => Some (language r))).
  - intros t. apply (grouped_lookup failed error_type).
  - unfold getErrorStats.
    rewrite !group_count_filter, count_where_filter by (intros r H; exact H).
    rewrite JsFacts.filter_filter_stronger by (intros r H; exact H).
    reflexivity.
Qed.

(** A ledger with a success and a failure of the same tool. *)
Example stats_of_mixed_ledger :
  let ok := example_row 0 Samples.reverse_example 1 [] in
  let ko := {| id := 2; task := "t"; code := "c"; language := "x"; framework := None;
               tool := "gen"; success := 0; embedding := [];
               timestamp := 5; error_message := Some "boom";
               error_type := Some "runtime" |} in
  total (getStats [ok; ko]) = 1
  /\ byTool (getStats [ok; ko]) !! "gen" = Some 1
  /\ totalErrors (getErrorStats [ok; ko]) = 1
  /\ byErrorType (getErrorStats [ok; ko]) !! "runtime" = Some 1
  /\ byErrorType (getErrorStats [ok; ko]) !! "syntax" = None.
Proof.
  cbv zeta. unfold getStats, getErrorStats.
  cbn [total byTool totalErrors byErrorType].
  rewrite !grouped_lookup. repeat split.
Qed.

End LedgerFacts.

(* ===================================================================== *)
(** * Properties of the codebase indexer *)
(* ===================================================================== *)

Module IndexerFacts.
Import Js CodebaseIndexerService.
Local Open Scope list_scope.

(** What a step of [indexFile] leaves alone: the flag, the suspended passes,
    the statistics row and the count of [glob] calls. *)
Definition same_control (s s' : State) : Prop :=
  isIndexing s' = isIndexing s
  /\ running s' = running s
  /\ index_stats s' = index_stats s
  /\ globCalls s' = globCalls s.

Lemma same_control_refl (s : State) : same_control s s.
Proof. repeat split. Qed.

Lemma same_control_trans (s1 s2 s3 : State) :
  same_control s1 s2 -> same_control s2 s3 -> same_control s1 s3.
Proof.
  unfold same_control. intros (A1 & A2 & A3 & A4) (B1 & B2 & B3 & B4).
  repeat split; congruence.
Qed.

Lemma rows_of_file_app (f : string) (l1 l2 : list ChunkRow) :
  rows_of_file f (l1 ++ l2) = rows_of_file f l1 ++ rows_of_file f l2.
Proof. apply filter_app. Qed.

Lemma rows_of_others_app (f : string) (l1 l2 : list ChunkRow) :
  rows_of_others f (l1 ++ l2) = rows_of_others f l1 ++ rows_of_others f l2.
Proof. apply filter_app. Qed.

Lemma rows_of_file_others (f : string) (l : list ChunkRow) :
  rows_of_file f (rows_of_others f l) = [].
Proof.
  induction l as [|r l IH]; simpl; [reflexivity|].
  destruct (String.eqb (file_path r) f) eqn:E; simpl; [exact IH|].
  rewrite E. exact IH.
Qed.

Lemma rows_of_others_idem (f : string) (l : list ChunkRow) :
  rows_of_others f (rows_of_others f l) = rows_of_others f l.
Proof.
  induction l as [|r l IH]; simpl; [reflexivity|].
  destruct (String.eqb (file_path r) f) eqn:E; simpl; [exact IH|].
  rewrite E. simpl. rewrite IH. reflexivity.
Qed.

Lemma rows_of_file_all (f : string) (l : list ChunkRow) :
  Forall (fun r => file_path r = f) l -> rows_of_file f l = l /\ rows_of_others f l = [].
Proof.
  induction 1 as [|r l Hr _ [IH1 IH2]]; simpl; [split; reflexivity|].
  rewrite Hr, String.eqb_refl. simpl. rewrite IH1, IH2. split; reflexivity.
Qed.

(** ** Statistics *)

(** [getStats] counts the chunks and reports 0 for the three properties it
    reads from the statistics row, whatever the row holds. *)
Lemma getStats_reads_chunk_count_only (s : State) :
  totalChunks (getStats s) = Z.of_nat (List.length (code_chunks s))
  /\ totalFiles (getStats s) = 0
  /\ lastIndexed (getStats s) = 0
  /\ indexDuration (getStats s) = 0.
Proof. repeat split. Qed.

(** ** Lists of passes *)

Lemma drop_nth_length {A} (k : nat) (l : list A) :
  (k < List.length l)%nat -> List.length (drop_nth k l) = (List.length l - 1)%nat.
Proof.
  intros Hk. unfold drop_nth.
  rewrite length_app, firstn_length_le, length_skipn by lia. lia.
Qed.

(** ** The rows and results of a search *)


(** With stored vectors of the length of the query vector, every row gets its
    result. *)
Lemma map_to_hit_ok (queryEmbedding : list R) (rows : list ChunkRow) :
  (forall row, In row rows ->
               List.length (embedding row) = List.length queryEmbedding) ->
  E.map_result (to_hit queryEmbedding) rows =
  inr (map (fun row => hit_with (E.cosine queryEmbedding (embedding row)) row) rows).
Proof.
  induction rows as [|row rows IH]; intros Hlen; simpl; [reflexivity|].
  unfold to_hit at 1, cosineSimilarity.
  rewrite (Hlen row (or_introl eq_refl)), Nat.eqb_refl.
  change (negb true) with false. cbv iota.
  rewrite IH; [reflexivity|]. intros r0 Hr0. apply Hlen. right. exact Hr0.
Qed.

(** A stored vector of another length ends the search with no result. *)
Lemma map_to_hit_mismatch (queryEmbedding : list R) (rows : list ChunkRow) :
  Exists (fun row => List.length (embedding row) <> List.length queryEmbedding) rows ->
  exists e, E.map_result (to_hit queryEmbedding) rows = inl e.
Proof.
  induction 1 as [row rows Hne | row rows _ [e IH]]; simpl.
  - unfold to_hit, cosineSimilarity.
    replace (List.length queryEmbedding =? List.length (embedding row))%nat with false
      by (symmetry; apply Nat.eqb_neq; congruence).
    eexists; reflexivity.
  - destruct (to_hit queryEmbedding row); [eexists; reflexivity|].
    rewrite IH. eexists; reflexivity.
Qed.

Section Service.
Variable cfg : E.Config.
Variable fetch : E.Network.
Variable projectRoot : string.
Variable extname : string -> string.
Variable relative : string -> string -> string.
Variable ignoreFilter : option (string -> bool).
Variable chunkCode : string -> Language -> Result (list CodeChunk).
Variable EMBEDDING_BACKEND : option string.

Local Abbreviation should_index := (shouldIndexFile projectRoot extname relative ignoreFilter).
Local Abbreviation language_for := (getLanguage extname).
Local Abbreviation index_one := (index_chunk cfg fetch EMBEDDING_BACKEND).
Local Abbreviation index_file :=
  (indexFile cfg fetch projectRoot extname relative ignoreFilter chunkCode
     EMBEDDING_BACKEND).

(** ** Languages *)

(** A file that passes [shouldIndexFile] has a known language. *)
Lemma supported_language (filePath0 : string) :
  should_index filePath0 = true -> is_unknown (language_for filePath0) = false.
Proof.
  unfold shouldIndexFile, getLanguage, SUPPORTED_EXTENSIONS. simpl existsb.
  destruct (String.eqb (extname filePath0) ".ts");
    destruct (String.eqb (extname filePath0) ".tsx");
    destruct (String.eqb (extname filePath0) ".js");
    destruct (String.eqb (extname filePath0) ".jsx");
    destruct (String.eqb (extname filePath0) ".py"); simpl; congruence.
Qed.

(** ** The idempotent skip *)

(** C3.  When the row found for the file carries a modification time that is
    not older than the one the file system reports, [indexFile] returns
    without a change of state: no row of the chunk store is deleted or
    inserted, and no embedding request is sent. *)
Theorem indexFile_skips_unmodified_file :
  forall (fs : FileSystem) (filePath0 : string) (s : State) (stored lastModified : Z),
    mtimeMs fs filePath0 = inr lastModified ->
    stored_last_modified filePath0 (code_chunks s) = Some stored ->
    lastModified <= stored ->
    index_file fs filePath0 s = (inr tt, s).
Proof.
  intros fs filePath0 s stored lastModified Hstat Hstored Hle.
  unfold indexFile, try_catch, bind, lift, ret.
  destruct (should_index filePath0); [|reflexivity].
  rewrite Hstat. cbn. rewrite Hstored.
  apply Z.leb_le in Hle. rewrite Hle. reflexivity.
Qed.

(** ** One chunk *)

(** Whatever the endpoint does, one round of the loop throws nothing, leaves
    the rows in place and adds at most the row of its chunk. *)
Lemma index_chunk_cases (filePath0 relativePath0 : string) (lastModified : Z)
    (chunk : CodeChunk) (s : State) :
  exists s',
    index_one filePath0 relativePath0 lastModified chunk s = (inr tt, s')
    /\ same_control s s'
    /\ (code_chunks s' = code_chunks s
        \/ exists embedding0,
             code_chunks s' =
             code_chunks s ++ [row_of filePath0 relativePath0 lastModified chunk embedding0]).
Proof.
  unfold index_chunk, try_catch, bind, on_net, insert_row, ret.
  destruct (E.generateEmbedding cfg fetch (c_code chunk) (net s)) as [[e|r] n'].
  - eexists. split; [reflexivity|]. split; [repeat split | left; reflexivity].
  - cbn [set_net code_chunks].
    destruct (existsb _ (code_chunks s)).
    + eexists. split; [reflexivity|]. split; [repeat split | left; reflexivity].
    + destruct EMBEDDING_BACKEND as [b|]; [destruct (String.eqb b "api")|];
        cbn; eexists; (split; [reflexivity|]);
        (split; [repeat split | right; eexists; reflexivity]).
Qed.

(** With a key, an endpoint that answers and an unused identifier, the row of
    the chunk is added. *)
Lemma index_chunk_ok (emb : string -> list R) (filePath0 relativePath0 : string)
    (lastModified : Z) (chunk : CodeChunk) (s : State) :
  truthy (E.apiKey cfg) = true ->
  E.answers cfg fetch emb ->
  ~ In (chunk_id relativePath0 chunk) (map id (code_chunks s)) ->
  exists s',
    index_one filePath0 relativePath0 lastModified chunk s = (inr tt, s')
    /\ code_chunks s' =
       code_chunks s
       ++ [row_of filePath0 relativePath0 lastModified chunk (emb (c_code chunk))].
Proof.
  intros Hkey Hans Hfresh.
  destruct (Hans (E.requests (net s)) (c_code chunk)) as (r & body & Hf & Hok & Hjson & Hemb).
  unfold index_chunk, try_catch, bind, on_net, insert_row, ret.
  rewrite (EmbeddingFacts.generateEmbedding_ok cfg fetch _ _ r body Hkey Hf Hok Hjson).
  cbn [set_net code_chunks E.embedding row_of id].
  assert (Hex : existsb (fun r0 => String.eqb (id r0) (chunk_id relativePath0 chunk))
                  (code_chunks s) = false).
  { apply Bool.not_true_is_false. intros Hex. apply existsb_exists in Hex.
    destruct Hex as (r0 & Hin & Heq). apply String.eqb_eq in Heq.
    apply Hfresh. rewrite <- Heq. apply in_map. exact Hin. }
  rewrite Hex, Hemb.
  destruct EMBEDDING_BACKEND as [b|]; [destruct (String.eqb b "api")|];
    cbn; eexists; split; reflexivity.
Qed.

(** ** The loop over the chunks *)

Lemma for_each_chunks_cases (filePath0 relativePath0 : string) (lastModified : Z)
    (chunks : list CodeChunk) : forall s,
  exists s' extra,
    for_each chunks (index_one filePath0 relativePath0 lastModified) s = (inr tt, s')
    /\ same_control s s'
    /\ code_chunks s' = code_chunks s ++ extra
    /\ Forall (fun row => exists chunk embedding0,
                 In chunk chunks
                 /\ row = row_of filePath0 relativePath0 lastModified chunk embedding0)
         extra.
Proof.
  induction chunks as [|chunk chunks IH]; intros s; simpl.
  - exists s, []. unfold ret. rewrite app_nil_r.
    repeat split; constructor.
  - destruct (index_chunk_cases filePath0 relativePath0 lastModified chunk s)
      as (s1 & Hrun & Hctl & Hrows).
    destruct (IH s1) as (s2 & extra & Hrun2 & Hctl2 & Hrows2 & Hall).
    unfold bind. rewrite Hrun, Hrun2.
    assert (Hall' : Forall (fun row => exists chunk0 embedding0,
                              (chunk = chunk0 \/ In chunk0 chunks)
                              /\ row = row_of filePath0 relativePath0 lastModified
                                         chunk0 embedding0) extra).
    { eapply Forall_impl; [|exact Hall]. intros row (c & e0 & Hin & ->).
      exists c, e0. split; [right; exact Hin | reflexivity]. }
    destruct Hrows as [Hsame | (e0 & Hadd)].
    + exists s2, extra. split; [reflexivity|].
      split; [eapply same_control_trans; eassumption|].
      split; [rewrite Hrows2, Hsame; reflexivity | exact Hall'].
    + exists s2, (row_of filePath0 relativePath0 lastModified chunk e0 :: extra).
      split; [reflexivity|].
      split; [eapply same_control_trans; eassumption|].
      split; [rewrite Hrows2, Hadd, <- app_assoc; reflexivity|].
      constructor; [|exact Hall'].
      exists chunk, e0. split; [left; reflexivity | reflexivity].
Qed.

Lemma for_each_chunks_ok (emb : string -> list R) (filePath0 relativePath0 : string)
    (lastModified : Z) (chunks : list CodeChunk) : forall s,
  truthy (E.apiKey cfg) = true ->
  E.answers cfg fetch emb ->
  NoDup (map (chunk_id relativePath0) chunks) ->
  (forall chunk, In chunk chunks ->
                 ~ In (chunk_id relativePath0 chunk) (map id (code_chunks s))) ->
  exists s',
    for_each chunks (index_one filePath0 relativePath0 lastModified) s = (inr tt, s')
    /\ code_chunks s' =
       code_chunks s
       ++ map (fun chunk => row_of filePath0 relativePath0 lastModified chunk
                              (emb (c_code chunk))) chunks.
Proof.
  induction chunks as [|chunk chunks IH]; intros s Hkey Hans Hnd Hfresh; simpl.
  - exists s. unfold ret. rewrite app_nil_r. split; reflexivity.
  - inversion Hnd as [|? ? Hnotin Hnd']; subst.
    destruct (index_chunk_ok emb filePath0 relativePath0 lastModified chunk s Hkey Hans)
      as (s1 & Hrun & Hrows).
    { apply Hfresh. left. reflexivity. }
    destruct (IH s1 Hkey Hans Hnd') as (s2 & Hrun2 & Hrows2).
    { intros c Hc. rewrite Hrows, map_app, in_app_iff. simpl.
      intros [Hin | [Heq | []]].
      - exact (Hfresh c (or_intror Hc) Hin).
      - apply Hnotin. rewrite Heq. apply in_map. exact Hc. }
    exists s2. unfold bind. rewrite Hrun, Hrun2. split; [reflexivity|].
    rewrite Hrows2, Hrows, <- app_assoc. reflexivity.
Qed.

(** ** One file *)

(** [indexFile], case by case. *)
Lemma indexFile_unfold (fs : FileSystem) (filePath0 : string) (s : State) :
  index_file fs filePath0 s =
  if should_index filePath0 then
    match mtimeMs fs filePath0 with
    | inl _ => (inr tt, s)
    | inr lastModified =>
        if match stored_last_modified filePath0 (code_chunks s) with
           | Some stored => lastModified <=? stored
           | None => false
           end
        then (inr tt, s)
        else
          match readFile fs filePath0 with
          | inl _ => (inr tt, s)
          | inr content0 =>
              if is_unknown (language_for filePath0) then (inr tt, s)
              else
                let s1 := set_chunks (rows_of_others filePath0 (code_chunks s)) s in
                match chunkCode content0 (language_for filePath0) with
                | inl _ => (inr tt, s1)
                | inr chunks =>
                    try_catch
                      (for_each chunks
                         (index_one filePath0 (relative projectRoot filePath0)
                            lastModified))
                      (fun _ => ret tt) s1
                end
          end
    end
  else (inr tt, s).
Proof.
  unfold indexFile, try_catch, bind, lift, ret.
  destruct (should_index filePath0); [|reflexivity].
  change (negb true) with false. cbv beta iota.
  destruct (mtimeMs fs filePath0) as [e|lastModified]; [reflexivity|].
  cbv beta iota.
  destruct (match stored_last_modified filePath0 (code_chunks s) with
            | Some stored => lastModified <=? stored
            | None => false
            end); [reflexivity|].
  destruct (readFile fs filePath0) as [e|content0]; [reflexivity|].
  destruct (is_unknown (language_for filePath0)); [reflexivity|].
  destruct (chunkCode content0 (language_for filePath0)) as [e|chunks]; reflexivity.
Qed.

(** [indexFile] throws nothing and leaves the flag, the suspended passes, the
    statistics row and the count of [glob] calls as they are. *)
Lemma indexFile_frame (fs : FileSystem) (filePath0 : string) (s : State) :
  exists s', index_file fs filePath0 s = (inr tt, s') /\ same_control s s'.
Proof.
  rewrite indexFile_unfold.
  destruct (should_index filePath0);
    [| eexists; split; [reflexivity | apply same_control_refl]].
  destruct (mtimeMs fs filePath0) as [e|lastModified];
    [eexists; split; [reflexivity | apply same_control_refl] |].
  destruct (match stored_last_modified filePath0 (code_chunks s) with
            | Some stored => lastModified <=? stored
            | None => false
            end);
    [eexists; split; [reflexivity | apply same_control_refl] |].
  destruct (readFile fs filePath0) as [e|content0];
    [eexists; split; [reflexivity | apply same_control_refl] |].
  destruct (is_unknown (language_for filePath0));
    [eexists; split; [reflexivity | apply same_control_refl] |].
  cbv zeta.
  destruct (chunkCode content0 (language_for filePath0)) as [e|chunks];
    [eexists; split; [reflexivity | repeat split] |].
  destruct (for_each_chunks_cases filePath0 (relative projectRoot filePath0)
              lastModified chunks
              (set_chunks (rows_of_others filePath0 (code_chunks s)) s))
    as (s' & extra & Hrun & Hctl & _).
  unfold try_catch. rewrite Hrun.
  eexists. split; [reflexivity|].
  eapply same_control_trans; [|exact Hctl]. repeat split.
Qed.

(** The path of [indexFile] for a modified file that is read and chunked:
    the rows of the file are deleted and the loop runs over the chunks. *)
Lemma indexFile_modified (fs : FileSystem) (filePath0 : string) (s : State)
    (lastModified : Z) (content0 : string) (chunks : list CodeChunk) :
  should_index filePath0 = true ->
  mtimeMs fs filePath0 = inr lastModified ->
  (forall stored, stored_last_modified filePath0 (code_chunks s) = Some stored ->
                  stored < lastModified) ->
  readFile fs filePath0 = inr content0 ->
  chunkCode content0 (language_for filePath0) = inr chunks ->
  index_file fs filePath0 s =
  try_catch
    (for_each chunks
       (index_one filePath0 (relative projectRoot filePath0) lastModified))
    (fun _ => ret tt)
    (set_chunks (rows_of_others filePath0 (code_chunks s)) s).
Proof.
  intros Hshould Hstat Hnewer Hread Hchunk.
  rewrite indexFile_unfold, Hshould, Hstat.
  assert (Hcmp : match stored_last_modified filePath0 (code_chunks s) with
                 | Some stored => lastModified <=? stored
                 | None => false
                 end = false).
  { destruct (stored_last_modified filePath0 (code_chunks s)) as [stored|];
      [|reflexivity].
    apply Z.leb_gt. apply Hnewer. reflexivity. }
  rewrite Hcmp, Hread, (supported_language filePath0 Hshould).
  cbv zeta. rewrite Hchunk. reflexivity.
Qed.






(** The row found for a file once its rows follow those of the others. *)
Lemma stored_last_modified_app (filePath0 : string) (others mine : list ChunkRow) :
  rows_of_file filePath0 others = [] ->
  stored_last_modified filePath0 (others ++ mine)
  = stored_last_modified filePath0 mine.
Proof.
  unfold stored_last_modified, rows_of_file. intros Hnone.
  induction others as [|r others IH]; simpl; [reflexivity|].
  simpl in Hnone. destruct (String.eqb (file_path r) filePath0); [discriminate|].
  apply IH, Hnone.
Qed.

(** The second call.  Once [indexFile] has run for a modified file and has
    stored at least one row for it, a second call under the same file system
    changes nothing and sends no embedding request. *)
Lemma indexFile_second_call_skips (fs : FileSystem) (filePath0 : string) (s : State)
    (lastModified : Z) (content0 : string) (chunks : list CodeChunk) :
  should_index filePath0 = true ->
  mtimeMs fs filePath0 = inr lastModified ->
  (forall stored, stored_last_modified filePath0 (code_chunks s) = Some stored ->
                  stored < lastModified) ->
  readFile fs filePath0 = inr content0 ->
  chunkCode content0 (language_for filePath0) = inr chunks ->
  rows_of_file filePath0 (code_chunks (snd (index_file fs filePath0 s))) <> [] ->
  index_file fs filePath0 (snd (index_file fs filePath0 s))
  = (inr tt, snd (index_file fs filePath0 s)).
Proof.
  intros Hshould Hstat Hnewer Hread Hchunk.
  rewrite (indexFile_modified fs filePath0 s lastModified content0 chunks)
    by assumption.
  destruct (for_each_chunks_cases filePath0 (relative projectRoot filePath0)
              lastModified chunks
              (set_chunks (rows_of_others filePath0 (code_chunks s)) s))
    as (s' & extra & Hrun & _ & Hrows & Hall).
  unfold try_catch. rewrite Hrun. cbn [snd].
  change (code_chunks (set_chunks (rows_of_others filePath0 (code_chunks s)) s))
    with (rows_of_others filePath0 (code_chunks s)) in Hrows.
  intros Hsome.
  assert (Hstored : stored_last_modified filePath0 (code_chunks s') = Some lastModified).
  { rewrite Hrows, stored_last_modified_app by apply rows_of_file_others.
    rewrite Hrows, rows_of_file_app, rows_of_file_others in Hsome.
    destruct Hall as [|row extra (c & e0 & _ & ->) _]; [contradiction|].
    unfold stored_last_modified. simpl. rewrite String.eqb_refl. reflexivity. }
  rewrite indexFile_unfold, Hshould, Hstat, Hstored, Z.leb_refl. reflexivity.
Qed.

(** ** Search *)

Local Abbreviation search := (searchSimilar cfg fetch).

(** [searchSimilar] returns a list on every input. *)
Lemma searchSimilar_never_throws query options (s : State) :
  exists hits, fst (search query options s) = inr hits.
Proof.
  unfold searchSimilar, try_catch, bind, on_net, lift, ret.
  destruct (E.generateEmbedding cfg fetch query (net s)) as [[e|r] n'];
    [eexists; reflexivity|].
  cbv beta iota.
  destruct (E.map_result _ _); eexists; reflexivity.
Qed.

(** The value of [searchSimilar] when the query is embedded and the stored
    vectors have the length of the query vector. *)
Lemma searchSimilar_success query options (s : State) r n' :
  E.generateEmbedding cfg fetch query (net s) = (inr r, n') ->
  (forall row, In row (candidates options (code_chunks s)) ->
               List.length (embedding row) = List.length (E.embedding r)) ->
  search query options s =
  (inr (slice0 (topK_of options)
          (sort_desc similarity
             (List.filter (fun h => Rgeb (similarity h) (threshold_of options))
                (map (fun row => hit_with (E.cosine (E.embedding r) (embedding row)) row)
                   (candidates options (code_chunks s)))))),
   set_net n' s).
Proof.
  intros Hemb Hlen.
  unfold searchSimilar, try_catch, bind, on_net, lift, ret.
  rewrite Hemb. cbv beta iota.
  change (code_chunks (set_net n' s)) with (code_chunks s).
  rewrite (map_to_hit_ok _ _ Hlen). reflexivity.
Qed.




(** ** Full passes *)

Local Abbreviation step1 :=
  (step cfg fetch projectRoot extname relative ignoreFilter chunkCode EMBEDDING_BACKEND).
Local Abbreviation run_events :=
  (run cfg fetch projectRoot extname relative ignoreFilter chunkCode EMBEDDING_BACKEND).
Local Abbreviation is_reachable :=
  (reachable cfg fetch projectRoot extname relative ignoreFilter chunkCode
     EMBEDDING_BACKEND).

(** A batch of [indexFile] calls throws nothing and leaves the control state
    as it is. *)
Lemma batch_frame (fs : FileSystem) (files : list string) : forall s,
  exists s', for_each files (index_file fs) s = (inr tt, s') /\ same_control s s'.
Proof.
  induction files as [|file files IH]; intros s; simpl.
  - exists s. split; [reflexivity | apply same_control_refl].
  - destruct (indexFile_frame fs file s) as (s1 & Hrun & Hctl).
    destruct (IH s1) as (s2 & Hrun2 & Hctl2).
    exists s2. unfold bind. rewrite Hrun, Hrun2.
    split; [reflexivity | eapply same_control_trans; eassumption].
Qed.

(** Every segment keeps the flag and the number of passes in step. *)
Lemma step_keeps_flag (ev : Event) (s s' : State) (out : Outcome) :
  flag_counts_passes s -> step1 ev s = Some (s', out) -> flag_counts_passes s'.
Proof.
  unfold flag_counts_passes, passes_in_progress. intros Hinv Hstep.
  destruct ev as [now | k files times | k e | k fs times | fs file | file | ];
    simpl in Hstep.
  - destruct (isIndexing s) eqn:Hflag.
    + injection Hstep as <- _. rewrite Hflag. exact Hinv.
    + injection Hstep as <- _. simpl. rewrite length_app, Hinv. reflexivity.
  - destruct (nth_error (running s) k) as [[startTime|]|] eqn:Hk; try discriminate.
    assert (Hlt : (k < List.length (running s))%nat)
      by (apply nth_error_Some; congruence).
    destruct (0 <? List.length files)%nat.
    + injection Hstep as <- _. simpl. rewrite length_insert. exact Hinv.
    + unfold complete in Hstep. injection Hstep as <- _. simpl.
      apply drop_nth_length in Hlt. rewrite Hlt, Hinv.
      destruct (isIndexing s); reflexivity.
  - destruct (nth_error (running s) k) as [[startTime|]|] eqn:Hk; try discriminate.
    assert (Hlt : (k < List.length (running s))%nat)
      by (apply nth_error_Some; congruence).
    injection Hstep as <- _. simpl.
    apply drop_nth_length in Hlt. rewrite Hlt, Hinv.
    destruct (isIndexing s); reflexivity.
  - destruct (nth_error (running s) k) as [[|startTime files i]|] eqn:Hk;
      try discriminate.
    assert (Hlt : (k < List.length (running s))%nat)
      by (apply nth_error_Some; congruence).
    destruct (batch_frame fs (slice i (i + batchSize) files) s)
      as (s1 & Hrun & Hflag & Hpasses & _).
    rewrite Hrun in Hstep. rewrite <- Hpasses in Hlt.
    rewrite <- Hpasses, <- Hflag in Hinv.
    destruct (i + batchSize <? List.length files)%nat.
    + injection Hstep as <- _. simpl. rewrite length_insert. exact Hinv.
    + unfold complete in Hstep. injection Hstep as <- _. simpl.
      apply drop_nth_length in Hlt. rewrite Hlt, Hinv.
      destruct (isIndexing s1); reflexivity.
  - destruct (indexFile_frame fs file s) as (s1 & Hrun & Hflag & Hpasses & _).
    rewrite Hrun in Hstep. injection Hstep as <- _. simpl.
    rewrite Hpasses, Hflag. exact Hinv.
  - injection Hstep as <- _. exact Hinv.
  - injection Hstep as <- _. exact Hinv.
Qed.

Lemma run_keeps_flag (evs : list Event) : forall s s',
  flag_counts_passes s -> run_events evs s = Some s' -> flag_counts_passes s'.
Proof.
  induction evs as [|ev evs IH]; intros s s' Hinv Hrun; simpl in Hrun.
  - injection Hrun as <-. exact Hinv.
  - destruct (step1 ev s) as [[s1 out]|] eqn:Hstep; [|discriminate].
    exact (IH s1 s' (step_keeps_flag ev s s1 out Hinv Hstep) Hrun).
Qed.

Lemma reachable_flag (s : State) : is_reachable s -> flag_counts_passes s.
Proof.
  intros (s0 & evs & [Hflag Hnone] & Hrun).
  apply (run_keeps_flag evs s0 s); [|exact Hrun].
  unfold flag_counts_passes, passes_in_progress. rewrite Hflag, Hnone. reflexivity.
Qed.

(** In every state that the service can reach, at most one pass of
    [indexCodebase] is in progress; and a call made while one is in progress
    returns what [getStats] gives at that moment and leaves the whole state
    as it is: no [glob] call, no row written, no embedding request, no
    further pass. *)
Theorem indexCodebase_runs_one_pass_at_a_time :
  forall (s : State) (now : Z),
    is_reachable s ->
    (passes_in_progress s <= 1)%nat
    /\ ((1 <= passes_in_progress s)%nat ->
        step1 (Call now) s = Some (s, Returned (getStats s))).
Proof.
  intros s now Hreach. apply reachable_flag in Hreach.
  unfold flag_counts_passes in Hreach. split.
  - rewrite Hreach. destruct (isIndexing s); lia.
  - intros Hbusy. simpl. destruct (isIndexing s); [reflexivity | lia].
Qed.

(** What such a call returns does not depend on the statistics row: the
    number of files, the time of the last pass and its duration are
    reported as 0 whatever the row holds. *)
Lemma busy_call_ignores_statistics_row (s : State) (now : Z) :
  is_reachable s ->
  isIndexing s = true ->
  step1 (Call now) s
  = Some (s, Returned {| totalFiles := 0;
                         totalChunks := Z.of_nat (List.length (code_chunks s));
                         lastIndexed := 0;
                         indexDuration := 0 |}).
Proof. intros _ Hbusy. simpl. rewrite Hbusy. reflexivity. Qed.

End Service.

(** A second call made while the first one waits for [glob]. *)
Lemma indexCodebase_runs_one_pass_at_a_time_witness :
  (passes_in_progress Samples.busy_index <= 1)%nat
  /\ step Samples.cfg (Samples.always (Samples.embeds [1; 0]%R))
        Samples.projectRoot Samples.extname Samples.relative None Samples.whole_file None
        (Call 200) Samples.busy_index
     = Some (Samples.busy_index,
             Returned {| totalFiles := 0; totalChunks := 0;
                         lastIndexed := 0; indexDuration := 0 |}).
Proof.
  destruct (indexCodebase_runs_one_pass_at_a_time
              Samples.cfg (Samples.always (Samples.embeds [1; 0]%R))
              Samples.projectRoot Samples.extname Samples.relative None
              Samples.whole_file None Samples.busy_index 200) as [Hone Hcall].
  - exists Samples.fresh_index, [Call 100]. split; [split; reflexivity | reflexivity].
  - split; [exact Hone | apply Hcall; apply Nat.le_refl].
Defined.

(** C8 (the code departs from the claim).  After a pass over one file the
    statistics row holds 1 file, 1 chunk, the time 131 of the pass and its
    duration 30.  A call of [indexCodebase] made while a second pass waits
    for [glob] does no work and leaves the state as it is, as the claim
    says, but the statistics it returns are not the current ones: it
    reports 0 files, 0 for the time of the last pass and 0 for its
    duration, because [getStats] reads [totalFiles], [lastIndexed] and
    [indexDuration] from a row whose columns are [total_files],
    [last_indexed] and [index_duration]. *)
Theorem indexCodebase_busy_call_returns_zeroed_statistics :
  run Samples.cfg (Samples.always (Samples.embeds [1; 0]%R))
    Samples.projectRoot Samples.extname Samples.relative None Samples.whole_file None
    [Call 100; GlobResolved 0 [Samples.a_ts] (0, 0);
     BatchSettled 0 Samples.disk (130, 131); Call 200]
    Samples.fresh_index
  = Some MoreSamples.busy_after_pass
  /\ index_stats MoreSamples.busy_after_pass
     = {| total_files := 1; total_chunks := 1; last_indexed := 131; index_duration := 30 |}
  /\ step Samples.cfg (Samples.always (Samples.embeds [1; 0]%R))
        Samples.projectRoot Samples.extname Samples.relative None Samples.whole_file None
        (Call 300) MoreSamples.busy_after_pass
     = Some (MoreSamples.busy_after_pass,
             Returned {| totalFiles := 0; totalChunks := 1;
                         lastIndexed := 0; indexDuration := 0 |}).
Proof.
  split; [reflexivity|]. split; [reflexivity|].
  apply (busy_call_ignores_statistics_row
           Samples.cfg (Samples.always (Samples.embeds [1; 0]%R))
           Samples.projectRoot Samples.extname Samples.relative None
           Samples.whole_file None MoreSamples.busy_after_pass 300).
  - exists Samples.fresh_index,
      [Call 100; GlobResolved 0 [Samples.a_ts] (0, 0);
       BatchSettled 0 Samples.disk (130, 131); Call 200].
    split; [split; reflexivity | reflexivity].
  - reflexivity.
Qed.

(** A second call for [a.ts], indexed at its modification time 10. *)
Lemma indexFile_skips_unmodified_file_witness :
  indexFile Samples.cfg (Samples.always (Samples.embeds [1; 0]%R))
    Samples.projectRoot Samples.extname Samples.relative None Samples.whole_file None
    Samples.disk Samples.a_ts (Samples.indexed [1; 0]%R)
  = (inr tt, Samples.indexed [1; 0]%R).
Proof.
  apply (indexFile_skips_unmodified_file
           Samples.cfg (Samples.always (Samples.embeds [1; 0]%R))
           Samples.projectRoot Samples.extname Samples.relative None
           Samples.whole_file None
           Samples.disk Samples.a_ts (Samples.indexed [1; 0]%R) 10 10).
  - reflexivity.
  - reflexivity.
  - lia.
Defined.

(** A pass over a project whose only file is [a.ts]: the call, the result
    of [glob], and the end of the only batch. *)
Example full_pass_over_one_file :
  run Samples.cfg (Samples.always (Samples.embeds [1; 0]%R))
    Samples.projectRoot Samples.extname Samples.relative None Samples.whole_file None
    [Call 100; GlobResolved 0 [Samples.a_ts] (0, 0); BatchSettled 0 Samples.disk (130, 131)]
    Samples.fresh_index
  = Some {| net := E.sent E.net0;
            code_chunks := [Samples.a_ts_row [1; 0]%R];
            index_stats := {| total_files := 1; total_chunks := 1;
                              last_indexed := 131; index_duration := 30 |};
            isIndexing := false;
            globCalls := 1;
            running := [] |}.
Proof. reflexivity. Qed.



(** The similarity of (1, 0) to (3, 4). *)
Lemma cosine_10_34 : E.cosine [1; 0]%R [3; 4]%R = (3 / 5)%R.
Proof.
  rewrite EmbeddingFacts.cosine_dot by reflexivity. simpl.
  replace (1 * 1 + (0 * 0 + 0))%R with 1%R by lra.
  replace (3 * 3 + (4 * 4 + 0))%R with (5 * 5)%R by lra.
  replace (1 * 3 + (0 * 4 + 0))%R with 3%R by lra.
  rewrite sqrt_1, sqrt_square by lra. lra.
Qed.


(** What that search returns: the row of similarity 0 is below the
    threshold, the row of similarity 1 goes in front of the row of
    similarity 0.6, which is stored before it, and one result is kept. *)
Lemma searchSimilar_over_three_files :
  fst (searchSimilar Samples.cfg (Samples.always (Samples.embeds [1; 0]%R)) "constant"
         (Samples.search_options (Some 1) (Some 0.5%R) (Some "typescript"))
         MoreSamples.three_files)
  = inr [Samples.a_ts_hit [1; 0]%R 1%R]
  /\ fst (searchSimilar Samples.cfg (Samples.always (Samples.embeds [1; 0]%R)) "constant"
            (Samples.search_options (Some 2) (Some 0.5%R) (Some "typescript"))
            MoreSamples.three_files)
     = inr [Samples.a_ts_hit [1; 0]%R 1%R; hit_with (3 / 5)%R MoreSamples.c_ts_row].
Proof.
  assert (Hself : E.cosine [1; 0]%R [1; 0]%R = 1%R).
  { apply EmbeddingFacts.cosine_self. apply Exists_cons_hd. lra. }
  assert (Horth : E.cosine [1; 0]%R [0; 1]%R = 0%R).
  { apply EmbeddingFacts.cosine_orthogonal; [reflexivity | simpl; lra]. }
  split.
  - rewrite (searchSimilar_success Samples.cfg (Samples.always (Samples.embeds [1; 0]%R))
               "constant" _ MoreSamples.three_files
               {| E.embedding := [1; 0]%R; E.tokens := 4;
                  E.result_model := E.defaultModel Samples.cfg |}
               (E.sent E.net0) eq_refl).
    + cbn -[E.cosine]. rewrite Hself, Horth, cosine_10_34.
      destruct (Req_dec_T 0.5 0) as [H0|_]; [exfalso; lra|].
      unfold Rgeb.
      destruct (Rle_dec 0.5 0) as [H|_]; [exfalso; lra|].
      destruct (Rle_dec 0.5 (3 / 5)) as [_|H]; [|exfalso; apply H; lra].
      destruct (Rle_dec 0.5 1) as [_|H]; [|exfalso; apply H; lra].
      cbn -[E.cosine].
      destruct (Rlt_dec (3 / 5) 1) as [_|H]; [|exfalso; apply H; lra].
      reflexivity.
    + intros row [<- | [<- | [<- | []]]]; reflexivity.
  - rewrite (searchSimilar_success Samples.cfg (Samples.always (Samples.embeds [1; 0]%R))
               "constant" _ MoreSamples.three_files
               {| E.embedding := [1; 0]%R; E.tokens := 4;
                  E.result_model := E.defaultModel Samples.cfg |}
               (E.sent E.net0) eq_refl).
    + cbn -[E.cosine]. rewrite Hself, Horth, cosine_10_34.
      destruct (Req_dec_T 0.5 0) as [H0|_]; [exfalso; lra|].
      unfold Rgeb.
      destruct (Rle_dec 0.5 0) as [H|_]; [exfalso; lra|].
      destruct (Rle_dec 0.5 (3 / 5)) as [_|H]; [|exfalso; apply H; lra].
      destruct (Rle_dec 0.5 1) as [_|H]; [|exfalso; apply H; lra].
      cbn -[E.cosine].
      destruct (Rlt_dec (3 / 5) 1) as [_|H]; [|exfalso; apply H; lra].
      reflexivity.
    + intros row [<- | [<- | [<- | []]]]; reflexivity.
Qed.


(** A threshold of 0 is replaced by 0.7 as well: the only chunk, whose
    similarity to the query vector (0, 1) is 0, is not returned. *)
Lemma searchSimilar_zero_threshold_counts_as_default :
  fst (searchSimilar Samples.cfg (Samples.always (Samples.embeds [0; 1]%R)) "constant"
         (Samples.search_options None (Some 0%R) None) (Samples.indexed [1; 0]%R))
  = inr [].
Proof.
  rewrite (searchSimilar_success Samples.cfg (Samples.always (Samples.embeds [0; 1]%R))
             "constant" _ (Samples.indexed [1; 0]%R)
             {| E.embedding := [0; 1]%R; E.tokens := 4;
                E.result_model := E.defaultModel Samples.cfg |}
             (E.sent (E.sent E.net0)) eq_refl).
  - assert (Hsim : E.cosine [0; 1]%R [1; 0]%R = 0%R).
    { apply EmbeddingFacts.cosine_orthogonal; [reflexivity | simpl; lra]. }
    cbn -[E.cosine]. rewrite Hsim.
    destruct (Req_dec_T 0 0) as [_|Hn]; [|contradiction].
    unfold Rgeb. destruct (Rle_dec 0.7 0) as [Hle|_]; [exfalso; lra | reflexivity].
  - intros row [<-|[]]. reflexivity.
Qed.


End IndexerFacts.

(* ===================================================================== *)
(** * Properties of the loops over batches *)
(* ===================================================================== *)

Module BatchFacts.
Import Js Batches.
Local Open Scope list_scope.
Local Open Scope nat_scope.

Lemma slice_batch {A} (i size : nat) (l : list A) :
  slice i (i + size) l = firstn size (skipn i l).
Proof. unfold slice. replace (i + size - i) with size by lia. reflexivity. Qed.

Lemma skipn_plus {A} (a b : nat) (l : list A) : skipn (a + b) l = skipn b (skipn a l).
Proof. rewrite Nat.add_comm. symmetry. apply skipn_skipn. Qed.

Lemma rounds_next (len i size : nat) :
  0 < size -> i < len ->
  (len - i + size - 1) / size = S ((len - (i + size) + size - 1) / size).
Proof.
  intros Hsize Hi. destruct (Nat.le_gt_cases len (i + size)) as [Hlast | Hmore].
  - replace (len - (i + size)) with 0 by lia.
    rewrite (Nat.div_small (0 + size - 1)) by lia.
    replace (len - i + size - 1) with ((len - i - 1) + 1 * size) by lia.
    rewrite Nat.div_add by lia. rewrite Nat.div_small by lia. reflexivity.
  - replace (len - i + size - 1) with ((len - (i + size) + size - 1) + 1 * size) by lia.
    rewrite Nat.div_add by lia. lia.
Qed.

(** The rounds of the loop from [i] on, with enough fuel to reach the end. *)
Lemma batches_from_spec {A} (size : nat) (l : list A) :
  0 < size ->
  forall fuel i,
    List.length l - i <= fuel ->
    List.concat (batches_from fuel i size l) = skipn i l
    /\ Forall (fun batch => 0 < List.length batch <= size) (batches_from fuel i size l)
    /\ List.length (batches_from fuel i size l) = (List.length l - i + size - 1) / size.
Proof.
  intros Hsize. induction fuel as [|fuel IH]; intros i Hfuel; simpl.
  - split; [|split].
    + symmetry. apply skipn_all2. lia.
    + constructor.
    + replace (List.length l - i) with 0 by lia.
      symmetry. apply Nat.div_small. lia.
  - destruct (Nat.ltb_spec i (List.length l)) as [Hi | Hi].
    + destruct (IH (i + size) ltac:(lia)) as (Hcat & Hall & Hlen).
      split; [|split].
      * simpl. rewrite Hcat, slice_batch, skipn_plus. apply firstn_skipn.
      * constructor; [|exact Hall].
        rewrite slice_batch, length_firstn, length_skipn. lia.
      * simpl. rewrite Hlen. symmetry. apply rounds_next; assumption.
    + split; [|split].
      * symmetry. apply skipn_all2. lia.
      * constructor.
      * replace (List.length l - i) with 0 by lia.
        symmetry. apply Nat.div_small. lia.
Qed.

(** X1.  The batches of the loop cover the array: put end to end they give the
    array back, each has at least one element and at most [size], and there
    are as many as the quotient of the length by [size], rounded up. *)
Theorem batches_cover_the_array :
  forall (A : Type) (size : nat) (l : list A),
    0 < size ->
    List.concat (batches size l) = l
    /\ Forall (fun batch => 0 < List.length batch <= size) (batches size l)
    /\ List.length (batches size l) = (List.length l + size - 1) / size.
Proof.
  intros A size l Hsize. unfold batches.
  destruct (batches_from_spec size l Hsize (List.length l) 0 ltac:(lia))
    as (Hcat & Hall & Hlen).
  rewrite Nat.sub_0_r in Hlen. auto.
Qed.

(** Twenty-five elements in batches of ten. *)
Lemma batches_cover_the_array_witness :
  List.concat (batches 10 (seq 0 25)) = seq 0 25
  /\ Forall (fun batch => 0 < List.length batch <= 10) (batches 10 (seq 0 25))
  /\ List.length (batches 10 (seq 0 25)) = (List.length (seq 0 25) + 10 - 1) / 10.
Proof.
  apply (batches_cover_the_array nat 10 (seq 0 25)). lia.
Defined.

End BatchFacts.

(* ===================================================================== *)
(** * More on retries: bounds, recovery, and the second gateway *)
(* ===================================================================== *)

Module RetryFacts.
Import Js EmbeddingService.
Module H := HybridEmbeddingService.
Local Open Scope list_scope.

(** ** Substrings *)

Lemma prefix_app (p rest : string) : String.prefix p (p ++ rest)%string = true.
Proof.
  induction p as [|c p IH]; simpl; [destruct rest; reflexivity|].
  destruct (ascii_dec c c); [exact IH | congruence].
Qed.

Lemma prefix_app_r (p s rest : string) :
  String.prefix p s = true -> String.prefix p (s ++ rest)%string = true.
Proof.
  revert s. induction p as [|c p IH]; intros [|d s]; simpl; try congruence.
  - intros _. destruct rest; reflexivity.
  - destruct (ascii_dec c d); [apply IH | congruence].
Qed.

Lemma includes_unfold (c : ascii) (hay needle : string) :
  includes (String c hay) needle
  = if String.prefix needle (String c hay) then true else includes hay needle.
Proof. reflexivity. Qed.

Lemma includes_cons (c : ascii) (hay needle : string) :
  includes hay needle = true -> includes (String c hay) needle = true.
Proof.
  intros H. rewrite includes_unfold, H.
  destruct (String.prefix needle (String c hay)); reflexivity.
Qed.

Lemma includes_skip (pre hay needle : string) :
  includes hay needle = true -> includes (pre ++ hay)%string needle = true.
Proof.
  intros H. induction pre as [|c pre IH]; [exact H|].
  change (String c pre ++ hay)%string with (String c (pre ++ hay)%string).
  apply includes_cons, IH.
Qed.

Lemma includes_app_r (hay rest needle : string) :
  includes hay needle = true -> includes (hay ++ rest)%string needle = true.
Proof.
  induction hay as [|c hay IH].
  - destruct needle; [intros _ | simpl; discriminate].
    destruct rest; reflexivity.
  - rewrite includes_unfold.
    change (String c hay ++ rest)%string with (String c (hay ++ rest)%string).
    destruct (String.prefix needle (String c hay)) eqn:Hp.
    + intros _. rewrite includes_unfold.
      change (String c (hay ++ rest)%string) with (String c hay ++ rest)%string.
      rewrite (prefix_app_r _ _ rest Hp). reflexivity.
    + intros H. apply includes_cons, IH, H.
Qed.

(** The message of the error thrown for a response that is not ok names
    the status. *)
Lemma api_error_names_status (status0 : Z) (body marker : string) :
  includes (decimal status0) marker = true ->
  includes ("Embedding API error: " ++ decimal status0 ++ " - " ++ body)%string marker
  = true.
Proof.
  intros H. apply includes_skip, includes_app_r. exact H.
Qed.

Lemma server_status_has_5 (status0 : Z) :
  500 <= status0 <= 599 -> includes (decimal status0) "5" = true.
Proof.
  intros Hs.
  assert (Hall : forallb (fun i => includes (decimal (500 + Z.of_nat i)) "5")
                   (seq 0 100) = true) by (vm_compute; reflexivity).
  rewrite forallb_forall in Hall.
  replace status0 with (500 + Z.of_nat (Z.to_nat (status0 - 500))) by lia.
  apply Hall, in_seq. lia.
Qed.

Lemma server_status_not_ok (r : Response) : 500 <= status r <= 599 -> ok r = false.
Proof. intros Hs. unfold ok. apply andb_false_iff. right. lia. Qed.

Lemma server_error_retryable (status0 : Z) (body : string) :
  500 <= status0 <= 599 ->
  isRetryable (Error ("Embedding API error: " ++ decimal status0 ++ " - " ++ body)%string)
  = true.
Proof.
  intros Hs. unfold isRetryable, Error. cbn [message].
  rewrite (api_error_names_status status0 body "5")
    by (apply server_status_has_5; exact Hs).
  apply orb_true_r.
Qed.

Lemma rate_limit_retryable (body : string) :
  isRetryable (Error ("Embedding API error: " ++ decimal 429 ++ " - " ++ body)%string)
  = true.
Proof.
  unfold isRetryable, Error. cbn [message].
  rewrite (api_error_names_status 429 body "429") by reflexivity.
  rewrite orb_true_r. reflexivity.
Qed.

(** ** Retries in general *)

(** A thunk that sends one request per call: after [retryWithBackoff] the
    number of calls is at most [retries + 1], and the waits are the first of
    the doubling delays, one between two calls. *)
Lemma retryWithBackoff_bound {A} (fn : M Net A) :
  (forall n, snd (fn n) = sent n) ->
  forall retries delay n,
    exists k, (k <= retries)%nat
      /\ snd (retryWithBackoff fn retries delay n)
         = {| requests := requests n + S k;
              sleeps := rev (firstn k (backoff retries delay)) ++ sleeps n |}.
Proof.
  intros Hfn. induction retries as [|r IH]; intros delay n;
    rewrite EmbeddingFacts.retryWithBackoff_unfold;
    specialize (Hfn n); destruct (fn n) as [[e|v] n1]; simpl in Hfn; subst n1.
  - exists 0%nat. split; [lia|]. simpl. unfold sent. f_equal. lia.
  - exists 0%nat. split; [lia|]. simpl. unfold sent. f_equal. lia.
  - destruct (isRetryable e); simpl negb; cbv iota.
    + destruct (IH (delay * 2) (snd (setTimeout delay (sent n)))) as (k & Hk & Heq).
      exists (S k). split; [lia|]. rewrite Heq. simpl.
      f_equal; [lia|]. rewrite <- app_assoc. reflexivity.
    + exists 0%nat. split; [lia|]. simpl. unfold sent. f_equal. lia.
  - exists 0%nat. split; [lia|]. simpl. unfold sent. f_equal. lia.
Qed.

(** ** Any number of retries *)

(** For a number of retries that is not negative, and with more fuel than
    retries, the loop followed call by call ends as [retryWithBackoff]. *)
Lemma retrying_agrees {A} (fn : M Net A) :
  forall (retries fuel : nat) (delay : Z) (n : Net),
    (retries < fuel)%nat ->
    Retrying.retryWithBackoff fuel fn (Retrying.Count (Z.of_nat retries)) delay n
    = (Some (fst (retryWithBackoff fn retries delay n)),
       snd (retryWithBackoff fn retries delay n)).
Proof.
  induction retries as [|r IH]; intros [|fuel] delay n Hlt; try lia;
    cbn [Retrying.retryWithBackoff]; rewrite EmbeddingFacts.retryWithBackoff_unfold;
    destruct (fn n) as [[e|v] n1]; try reflexivity.
  unfold Retrying.is_zero, Retrying.minus_one.
  destruct (Z.eqb_spec (Z.of_nat (S r)) 0) as [H0|_]; [lia|].
  destruct (negb (isRetryable e)); [reflexivity|].
  replace (Z.of_nat (S r) - 1) with (Z.of_nat r) by lia.
  apply IH. lia.
Qed.

Lemma retrying_agrees_Z {A} (fn : M Net A) (retries : Z) (fuel : nat) (delay : Z)
    (n : Net) :
  0 <= retries ->
  (Z.to_nat retries < fuel)%nat ->
  Retrying.retryWithBackoff fuel fn (Retrying.Count retries) delay n
  = (Some (fst (retryWithBackoff fn (Z.to_nat retries) delay n)),
     snd (retryWithBackoff fn (Z.to_nat retries) delay n)).
Proof.
  intros Hz Hfuel. rewrite <- (retrying_agrees fn _ fuel delay n Hfuel).
  rewrite Z2Nat.id by exact Hz. reflexivity.
Qed.

(** A thunk that fails with the retryable error [e] for the next [k] calls
    and returns [v] at the one after them, with [k] within the retries:
    [v] is returned after [k + 1] calls and [k] waits. *)
Lemma retrying_recovers {A} (fn : M Net A) e v :
  isRetryable e = true ->
  forall (k fuel : nat) (retries delay : Z) (n : Net),
    (k < fuel)%nat ->
    Z.of_nat k <= retries ->
    (forall n0, (requests n <= requests n0 < requests n + k)%nat ->
                fn n0 = (inl e, sent n0)) ->
    (forall n0, requests n0 = (requests n + k)%nat -> fn n0 = (inr v, sent n0)) ->
    Retrying.retryWithBackoff fuel fn (Retrying.Count retries) delay n
    = (Some (inr v), {| requests := requests n + S k;
                        sleeps := rev (backoff k delay) ++ sleeps n |}).
Proof.
  intros Hr. induction k as [|k IH]; intros [|fuel] retries delay n Hfuel Hk Hfail Hok;
    try lia; cbn [Retrying.retryWithBackoff].
  - rewrite Hok by lia. simpl. unfold sent. do 2 f_equal. lia.
  - rewrite Hfail by lia. unfold Retrying.is_zero, Retrying.minus_one.
    destruct (Z.eqb_spec retries 0) as [H0|_]; [lia|].
    rewrite Hr. simpl negb. cbv iota.
    rewrite IH; simpl; try lia.
    + f_equal. f_equal; [lia|]. rewrite <- app_assoc. reflexivity.
    + intros n0 Hn0. apply Hfail. lia.
    + intros n0 Hn0. apply Hok. lia.
Qed.

(** A number of retries that never becomes 0 in the loop: a negative one,
    or NaN.  A thunk that fails with the retryable error [e] every time is
    then called again after every call. *)
Lemma retrying_goes_on {A} (fn : M Net A) e :
  (forall n, fn n = (inl e, sent n)) -> isRetryable e = true ->
  forall (fuel : nat) (retries : Retrying.Retries) (delay : Z) (n : Net),
    match retries with Retrying.Count z => z < 0 | Retrying.NotANumber => True end ->
    Retrying.retryWithBackoff fuel fn retries delay n
    = (None, {| requests := requests n + fuel;
                sleeps := rev (backoff fuel delay) ++ sleeps n |}).
Proof.
  intros Hfn Hr. induction fuel as [|fuel IH]; intros retries delay n Hneg;
    cbn [Retrying.retryWithBackoff].
  - simpl. destruct n as [rq sl]. simpl. f_equal. f_equal. lia.
  - rewrite Hfn, Hr. simpl negb.
    assert (Hz : Retrying.is_zero retries = false).
    { destruct retries as [z|]; [apply Z.eqb_neq; lia | reflexivity]. }
    rewrite Hz. cbv iota. rewrite IH.
    + simpl. f_equal. f_equal; [lia|]. rewrite <- app_assoc. reflexivity.
    + destruct retries as [z|]; simpl; [lia | exact I].
Qed.

(** ** The embedding service *)

Section Requests.
Variable cfg : Config.
Variable fetch : Network.

Lemma request_once_sends_one (text0 model0 : string) (n : Net) :
  snd (request_once cfg fetch text0 model0 n) = sent n.
Proof.
  unfold request_once, try_catch, bind, do_fetch, throw, lift, ret.
  destruct (fetch (requests n) _) as [e|r]; [reflexivity|].
  destruct (ok r); simpl; [|reflexivity].
  destruct (json r); reflexivity.
Qed.

(** The request thunk on a response that is not ok, when the message of
    the error has neither of the markers that its [catch] clause replaces. *)
Lemma request_once_error (text0 : string) (n : Net) (r : Response) :
  fetch (requests n) (request_of cfg text0) = Resolves r ->
  ok r = false ->
  let msg := ("Embedding API error: " ++ decimal (status r) ++ " - " ++ text r)%string in
  includes msg "401" = false ->
  includes msg "429" = false ->
  request_once cfg fetch text0 (defaultModel cfg) n = (inl (Error msg), sent n).
Proof.
  intros Hfetch Hok msg H401 H429.
  unfold request_once, try_catch, bind, do_fetch. fold (request_of cfg text0).
  rewrite Hfetch, Hok. change (negb false) with true. cbv beta iota. subst msg.
  unfold throw, rethrow, Error. cbn [code message]. rewrite H401, H429. reflexivity.
Qed.

Lemma request_once_ok (text0 : string) (n : Net) (r : Response) (body : ApiBody) :
  fetch (requests n) (request_of cfg text0) = Resolves r ->
  ok r = true ->
  json r = inr body ->
  request_once cfg fetch text0 (defaultModel cfg) n
  = (inr {| embedding := body_embedding body;
            tokens := match total_tokens body with Some t => t | None => 0 end;
            result_model := defaultModel cfg |},
     sent n).
Proof.
  intros Hfetch Hok Hjson.
  unfold request_once, try_catch, bind, do_fetch. fold (request_of cfg text0).
  rewrite Hfetch, Hok. simpl negb. cbv iota.
  unfold lift, ret. rewrite Hjson. reflexivity.
Qed.

(** X2.  With a key and a number of retries from 0 to 1000, for which the
    countdown and the doubled delays are exact, [generateAPIEmbedding] ends,
    whatever the endpoint does: it sends at least one request and at most
    [maxRetries + 1], and between two requests it waits for the next of the
    delays 1000, 2000, 4000, ... *)
Theorem generateAPIEmbedding_sends_at_most_maxRetries_plus_1 :
  forall (maxRetries : Z) (text0 : string) (n : Net) (fuel : nat),
    truthy (apiKey cfg) = true ->
    0 <= maxRetries <= 1000 ->
    (Z.to_nat maxRetries < fuel)%nat ->
    exists k result, (k <= Z.to_nat maxRetries)%nat
      /\ Retrying.generateAPIEmbedding cfg fetch fuel (Retrying.Count maxRetries) text0 n
         = (Some result,
            {| requests := requests n + S k;
               sleeps := rev (firstn k (backoff (Z.to_nat maxRetries) 1000)) ++ sleeps n |}).
Proof.
  intros maxRetries text0 n fuel Hkey [Hz _] Hfuel.
  unfold Retrying.generateAPIEmbedding. rewrite Hkey. simpl negb. cbv iota.
  rewrite retrying_agrees_Z by assumption.
  destruct (retryWithBackoff_bound (request_once cfg fetch text0 (defaultModel cfg))
              (fun n0 => request_once_sends_one text0 (defaultModel cfg) n0)
              (Z.to_nat maxRetries) 1000 n) as (k & Hk & Hsnd).
  exists k, (fst (retryWithBackoff (request_once cfg fetch text0 (defaultModel cfg))
                    (Z.to_nat maxRetries) 1000 n)).
  split; [exact Hk|]. rewrite Hsnd. reflexivity.
Qed.

(** X3.  A number of retries from 0 to 1000, and an endpoint that answers
    every request with the same server error (status 500 to 599, and a
    message without 401 and 429): the call sends [maxRetries + 1] requests,
    waits 1000, 2000, 4000, ... between them and throws the error of the
    last one. *)
Theorem server_errors_exhaust_the_retries :
  forall (r : Response) (maxRetries : Z) (text0 : string) (n : Net) (fuel : nat),
    truthy (apiKey cfg) = true ->
    0 <= maxRetries <= 1000 ->
    (Z.to_nat maxRetries < fuel)%nat ->
    (forall k, fetch k (request_of cfg text0) = Resolves r) ->
    500 <= status r <= 599 ->
    let msg := ("Embedding API error: " ++ decimal (status r) ++ " - " ++ text r)%string in
    includes msg "401" = false ->
    includes msg "429" = false ->
    Retrying.generateAPIEmbedding cfg fetch fuel (Retrying.Count maxRetries) text0 n
    = (Some (inl (Error msg)),
       {| requests := requests n + S (Z.to_nat maxRetries);
          sleeps := rev (backoff (Z.to_nat maxRetries) 1000) ++ sleeps n |}).
Proof.
  intros r maxRetries text0 n fuel Hkey [Hz _] Hfuel Hfetch Hstatus msg H401 H429.
  unfold Retrying.generateAPIEmbedding. rewrite Hkey. simpl negb. cbv iota.
  rewrite retrying_agrees_Z by assumption.
  rewrite (EmbeddingFacts.retryWithBackoff_exhausts
             (request_once cfg fetch text0 (defaultModel cfg)) (Error msg)).
  - reflexivity.
  - intros n0. apply request_once_error;
      [apply Hfetch | apply server_status_not_ok; exact Hstatus | exact H401 | exact H429].
  - apply server_error_retryable. exact Hstatus.
Qed.

(** X4.  An endpoint that answers the next [k] requests with a server error
    (status 500 to 599, and a message without 401 and 429) and the one
    after them with a well-formed body, with [k] at most the number of
    retries, which is at most 1000: the call returns the vector of that body after [k + 1]
    requests and the waits 1000, 2000, ... between them. *)
Theorem generateAPIEmbedding_recovers_after_server_errors :
  forall (bad good : Response) (body : ApiBody) (k : nat) (maxRetries : Z)
         (text0 : string) (n : Net) (fuel : nat),
    truthy (apiKey cfg) = true ->
    Z.of_nat k <= maxRetries <= 1000 ->
    (k < fuel)%nat ->
    (forall j, (requests n <= j < requests n + k)%nat ->
               fetch j (request_of cfg text0) = Resolves bad) ->
    fetch (requests n + k)%nat (request_of cfg text0) = Resolves good ->
    500 <= status bad <= 599 ->
    includes ("Embedding API error: " ++ decimal (status bad) ++ " - " ++ text bad)%string
      "401" = false ->
    includes ("Embedding API error: " ++ decimal (status bad) ++ " - " ++ text bad)%string
      "429" = false ->
    ok good = true ->
    json good = inr body ->
    Retrying.generateAPIEmbedding cfg fetch fuel (Retrying.Count maxRetries) text0 n
    = (Some (inr {| embedding := body_embedding body;
                    tokens := match total_tokens body with Some t => t | None => 0 end;
                    result_model := defaultModel cfg |}),
       {| requests := requests n + S k;
          sleeps := rev (backoff k 1000) ++ sleeps n |}).
Proof.
  intros bad good body k maxRetries text0 n fuel Hkey [Hk _] Hfuel Hbad Hgood Hstatus
    H401 H429 Hok Hjson.
  unfold Retrying.generateAPIEmbedding. rewrite Hkey. simpl negb. cbv iota.
  apply retrying_recovers
    with (e := Error ("Embedding API error: " ++ decimal (status bad) ++ " - "
                      ++ text bad)%string).
  - apply server_error_retryable. exact Hstatus.
  - exact Hfuel.
  - exact Hk.
  - intros n0 Hn0. apply request_once_error;
      [apply Hbad; exact Hn0 | apply server_status_not_ok; exact Hstatus
       | exact H401 | exact H429].
  - intros n0 Hn0. apply request_once_ok with (r := good);
      [rewrite Hn0; exact Hgood | exact Hok | exact Hjson].
Qed.

End Requests.

(** ** The hybrid embedding service *)

Section Hybrid.
Variable cfg : Config.
Variable fetch : Network.

Lemma hybrid_request_once_error (text0 : string) (n : Net) (r : Response) :
  fetch (requests n) (request_of cfg text0) = Resolves r ->
  ok r = false ->
  H.request_once cfg fetch text0 n
  = (inl (Error ("Embedding API error: " ++ decimal (status r) ++ " - " ++ text r)%string),
     sent n).
Proof.
  intros Hfetch Hok.
  unfold H.request_once, try_catch, bind, do_fetch.
  rewrite Hfetch, Hok. reflexivity.
Qed.

(** X5.  The hybrid service keeps the error of a response as it is, so a rate
    limit is retried there: for a number of retries from 0 to 1000, when
    every request is answered with status 429, or with a status from
    500 to 599, [generateApiDenseEmbedding] sends [maxRetries + 1] requests
    with the doubling waits between them and throws the error of the last
    one. *)
Theorem hybrid_service_retries_rate_limits_and_server_errors :
  forall (r : Response) (maxRetries : Z) (text0 : string) (n : Net) (fuel : nat),
    0 <= maxRetries <= 1000 ->
    (Z.to_nat maxRetries < fuel)%nat ->
    (forall k, fetch k (request_of cfg text0) = Resolves r) ->
    status r = 429 \/ 500 <= status r <= 599 ->
    Retrying.generateApiDenseEmbedding cfg fetch fuel (Retrying.Count maxRetries) text0 n
    = (Some (inl (Error ("Embedding API error: " ++ decimal (status r) ++ " - "
                         ++ text r)%string)),
       {| requests := requests n + S (Z.to_nat maxRetries);
          sleeps := rev (backoff (Z.to_nat maxRetries) 1000) ++ sleeps n |}).
Proof.
  intros r maxRetries text0 n fuel [Hz _] Hfuel Hfetch Hstatus.
  unfold Retrying.generateApiDenseEmbedding.
  rewrite retrying_agrees_Z by assumption.
  rewrite (EmbeddingFacts.retryWithBackoff_exhausts (H.request_once cfg fetch text0)
             (Error ("Embedding API error: " ++ decimal (status r) ++ " - "
                     ++ text r)%string)).
  - reflexivity.
  - intros n0. apply hybrid_request_once_error; [apply Hfetch|].
    destruct Hstatus as [H429 | H5xx];
      [unfold ok; rewrite H429; reflexivity | apply server_status_not_ok; exact H5xx].
  - destruct Hstatus as [H429 | H5xx].
    + rewrite H429. apply rate_limit_retryable.
    + apply server_error_retryable. exact H5xx.
Qed.

End Hybrid.

(** ** A number of retries that never becomes 0 *)

Section Unbounded.
Variable cfg : Config.
Variable fetch : Network.

(** X29.  A number of retries that is negative or NaN never meets the test
    [retries === 0]: when every request is answered with the same server
    error (status 500 to 599, and a message without 401 and 429), neither
    service ever ends the call.  After any number of requests the call has
    not returned and the next request is due. *)
Theorem retries_below_zero_never_end :
  forall (r : Response) (maxRetries : Retrying.Retries) (text0 : string) (n : Net)
         (fuel : nat),
    truthy (apiKey cfg) = true ->
    match maxRetries with Retrying.Count z => z < 0 | Retrying.NotANumber => True end ->
    (forall k, fetch k (request_of cfg text0) = Resolves r) ->
    500 <= status r <= 599 ->
    let msg := ("Embedding API error: " ++ decimal (status r) ++ " - " ++ text r)%string in
    includes msg "401" = false ->
    includes msg "429" = false ->
    (fst (Retrying.generateAPIEmbedding cfg fetch fuel maxRetries text0 n) = None
     /\ requests (snd (Retrying.generateAPIEmbedding cfg fetch fuel maxRetries text0 n))
        = (requests n + fuel)%nat)
    /\ (fst (Retrying.generateApiDenseEmbedding cfg fetch fuel maxRetries text0 n) = None
        /\ requests (snd (Retrying.generateApiDenseEmbedding cfg fetch fuel maxRetries
                            text0 n))
           = (requests n + fuel)%nat).
Proof.
  intros r maxRetries text0 n fuel Hkey Hneg Hfetch Hstatus msg H401 H429.
  split.
  - unfold Retrying.generateAPIEmbedding. rewrite Hkey. simpl negb. cbv iota.
    rewrite (retrying_goes_on (request_once cfg fetch text0 (defaultModel cfg))
               (Error msg)).
    + split; reflexivity.
    + intros n0. apply request_once_error;
        [apply Hfetch | apply server_status_not_ok; exact Hstatus | exact H401 | exact H429].
    + apply server_error_retryable. exact Hstatus.
    + exact Hneg.
  - unfold Retrying.generateApiDenseEmbedding.
    rewrite (retrying_goes_on (H.request_once cfg fetch text0) (Error msg)).
    + split; reflexivity.
    + intros n0. apply hybrid_request_once_error;
        [apply Hfetch | apply server_status_not_ok; exact Hstatus].
    + apply server_error_retryable. exact Hstatus.
    + exact Hneg.
Qed.

End Unbounded.

(** ** Instances *)

(** Two retries, no request answered. *)
Lemma generateAPIEmbedding_sends_at_most_maxRetries_plus_1_witness :
  exists k result, (k <= 2)%nat
    /\ Retrying.generateAPIEmbedding Samples.cfg
         (Samples.always (Samples.http 503 "Service Unavailable")) 5
         (Retrying.Count 2) "text" net0
       = (Some result,
          {| requests := 0 + S k;
             sleeps := rev (firstn k (backoff 2 1000)) ++ [] |}).
Proof.
  apply (generateAPIEmbedding_sends_at_most_maxRetries_plus_1 Samples.cfg
           (Samples.always (Samples.http 503 "Service Unavailable")) 2 "text" net0 5%nat).
  - reflexivity.
  - lia.
  - simpl. lia.
Defined.

(** Status 502 with two retries: three requests, waits of 1000 and 2000. *)
Lemma server_errors_exhaust_the_retries_witness :
  Retrying.generateAPIEmbedding Samples.cfg
    (Samples.always (Resolves MoreSamples.bad_gateway)) 3 (Retrying.Count 2) "text" net0
  = (Some (inl (Error "Embedding API error: 502 - Bad Gateway")),
     {| requests := 3; sleeps := [2000; 1000] |}).
Proof.
  apply (server_errors_exhaust_the_retries Samples.cfg
           (Samples.always (Resolves MoreSamples.bad_gateway))
           MoreSamples.bad_gateway 2 "text" net0 3%nat).
  - reflexivity.
  - lia.
  - simpl. lia.
  - intros k. reflexivity.
  - simpl. lia.
  - reflexivity.
  - reflexivity.
Defined.

(** Down for two requests, three retries allowed. *)
Lemma generateAPIEmbedding_recovers_after_server_errors_witness :
  Retrying.generateAPIEmbedding Samples.cfg (MoreSamples.down_for 2 [1; 0]%R) 3
    (Retrying.Count 3) "text" net0
  = (Some (inr {| embedding := [1; 0]%R; tokens := 4;
                  result_model := "openai/text-embedding-3-small" |}),
     {| requests := 3; sleeps := [2000; 1000] |}).
Proof.
  apply (generateAPIEmbedding_recovers_after_server_errors Samples.cfg
           (MoreSamples.down_for 2 [1; 0]%R)
           MoreSamples.bad_gateway (MoreSamples.embedded [1; 0]%R)
           {| body_embedding := [1; 0]%R; total_tokens := Some 4 |} 2 3 "text" net0 3%nat).
  - reflexivity.
  - simpl. lia.
  - lia.
  - intros j Hj. simpl in Hj. unfold MoreSamples.down_for.
    destruct (Nat.ltb_spec j 2); [reflexivity | lia].
  - reflexivity.
  - simpl. lia.
  - reflexivity.
  - reflexivity.
  - reflexivity.
  - reflexivity.
Defined.

(** A rate limit with one retry: two requests, one wait. *)
Lemma hybrid_service_retries_rate_limits_and_server_errors_witness :
  Retrying.generateApiDenseEmbedding Samples.cfg
    (Samples.always (Resolves MoreSamples.too_many_requests)) 2 (Retrying.Count 1)
    "text" net0
  = (Some (inl (Error "Embedding API error: 429 - Too Many Requests")),
     {| requests := 2; sleeps := [1000] |}).
Proof.
  apply (hybrid_service_retries_rate_limits_and_server_errors Samples.cfg
           (Samples.always (Resolves MoreSamples.too_many_requests))
           MoreSamples.too_many_requests 1 "text" net0 2%nat).
  - lia.
  - simpl. lia.
  - intros k. reflexivity.
  - left. reflexivity.
Defined.

(** RAG_MAX_RETRIES set to a text that is not a number, and an endpoint
    that is down: four requests sent, the fifth one due. *)
Lemma retries_below_zero_never_end_witness :
  (fst (Retrying.generateAPIEmbedding Samples.cfg
          (Samples.always (Resolves MoreSamples.bad_gateway)) 4 Retrying.NotANumber
          "text" net0) = None
   /\ requests (snd (Retrying.generateAPIEmbedding Samples.cfg
                       (Samples.always (Resolves MoreSamples.bad_gateway)) 4
                       Retrying.NotANumber "text" net0)) = 4%nat)
  /\ (fst (Retrying.generateApiDenseEmbedding Samples.cfg
             (Samples.always (Resolves MoreSamples.bad_gateway)) 4 Retrying.NotANumber
             "text" net0) = None
      /\ requests (snd (Retrying.generateApiDenseEmbedding Samples.cfg
                          (Samples.always (Resolves MoreSamples.bad_gateway)) 4
                          Retrying.NotANumber "text" net0)) = 4%nat).
Proof.
  apply (retries_below_zero_never_end Samples.cfg
           (Samples.always (Resolves MoreSamples.bad_gateway))
           MoreSamples.bad_gateway Retrying.NotANumber "text" net0 4%nat).
  - reflexivity.
  - exact I.
  - intros k. reflexivity.
  - simpl. lia.
  - reflexivity.
  - reflexivity.
Defined.

End RetryFacts.

(* ===================================================================== *)
(** * Properties of the hash functions and of the sparse embedding *)
(* ===================================================================== *)

Module HashFacts.
Import Js EmbeddingBatch.
Module H := HybridEmbeddingService.
Module C := CodeRetrievalService.
Local Open Scope list_scope.

Lemma toInt32_range (z : Z) : - 2 ^ 31 <= toInt32 z < 2 ^ 31.
Proof.
  unfold toInt32. pose proof (Z.mod_pos_bound (z + 2 ^ 31) (2 ^ 32) ltac:(lia)). lia.
Qed.

Lemma toInt32_small (z : Z) : - 2 ^ 31 <= z < 2 ^ 31 -> toInt32 z = z.
Proof. intros Hz. unfold toInt32. rewrite Z.mod_small by lia. lia. Qed.

(** Two integers that differ by a multiple of [2 ^ 32] have the same
    32-bit value. *)
Lemma toInt32_congruent (a b : Z) :
  a mod 2 ^ 32 = b mod 2 ^ 32 -> toInt32 a = toInt32 b.
Proof.
  intros Hab. unfold toInt32.
  rewrite (Zplus_mod a), (Zplus_mod b), Hab. reflexivity.
Qed.

Lemma toInt32_mod (z : Z) : toInt32 z mod 2 ^ 32 = z mod 2 ^ 32.
Proof.
  unfold toInt32. rewrite Zminus_mod, Z.mod_mod, <- Zminus_mod by lia.
  f_equal. lia.
Qed.

(** One round multiplies by 31 and adds the character code, in 32 bits. *)
Lemma hash_round_31 (hash char : Z) : hash_round hash char = toInt32 (31 * hash + char).
Proof.
  unfold hash_round. apply toInt32_congruent.
  rewrite <- Z.add_sub_swap, Zminus_mod, Zplus_mod, toInt32_mod.
  rewrite (Zmult_mod (toInt32 hash)), toInt32_mod, <- Zmult_mod, <- Zplus_mod,
    <- Zminus_mod.
  f_equal. lia.
Qed.

Lemma hash_rounds_congruent (codes : list Z) : forall h h',
  h mod 2 ^ 32 = h' mod 2 ^ 32 ->
  fold_left hash_round codes h mod 2 ^ 32
  = fold_left (fun hash char => 31 * hash + char) codes h' mod 2 ^ 32.
Proof.
  induction codes as [|c codes IH]; intros h h' Hh; simpl; [exact Hh|].
  apply IH. rewrite hash_round_31, toInt32_mod.
  rewrite Zplus_mod, Zmult_mod, Hh, <- Zmult_mod, <- Zplus_mod. reflexivity.
Qed.

Lemma hash_rounds_range (codes : list Z) : forall h,
  - 2 ^ 31 <= h < 2 ^ 31 -> - 2 ^ 31 <= fold_left hash_round codes h < 2 ^ 31.
Proof.
  induction codes as [|c codes IH]; intros h Hh; simpl; [exact Hh|].
  apply IH. unfold hash_round. apply toInt32_range.
Qed.

Lemma hash_rounds_polynomial (codes : list Z) :
  fold_left hash_round codes 0 = toInt32 (Measures.polynomial codes).
Proof.
  rewrite <- (toInt32_small (fold_left hash_round codes 0))
    by (apply hash_rounds_range; lia).
  apply toInt32_congruent, hash_rounds_congruent. reflexivity.
Qed.

(** X6.  [simpleHash] is a signed 32-bit integer: the value of the polynomial
    [c1 * 31^(n-1) + ... + cn] over the character codes, brought back to
    32 bits once. *)
Theorem simpleHash_is_the_polynomial_hash_in_32_bits :
  forall text : string,
    - 2 ^ 31 <= simpleHash text < 2 ^ 31
    /\ simpleHash text = toInt32 (Measures.polynomial (charCodes text)).
Proof.
  intros text. unfold simpleHash. split.
  - apply hash_rounds_range. lia.
  - apply hash_rounds_polynomial.
Qed.

Lemma hashString_range (str : string) : 0 <= H.hashString str < 100000.
Proof.
  unfold H.hashString. rewrite Z.rem_mod_nonneg by lia.
  apply Z.mod_pos_bound. lia.
Qed.

(** X7.  [hashString] is an index from 0 to 99999: the remainder of the
    absolute value of the 32-bit polynomial hash. *)
Theorem hashString_is_an_index_below_100000 :
  forall str : string,
    0 <= H.hashString str < 100000
    /\ H.hashString str
       = Z.abs (toInt32 (Measures.polynomial (charCodes str))) mod 100000.
Proof.
  intros str. unfold H.hashString.
  rewrite hash_rounds_polynomial, Z.rem_mod_nonneg by lia.
  split.
  - apply Z.mod_pos_bound. lia.
  - reflexivity.
Qed.

(** ** Term frequencies *)

Lemma sum_bump (k : string) (groups : list (string * Z)) :
  fold_right Z.add 0 (map snd (C.bump k groups))
  = fold_right Z.add 0 (map snd groups) + 1.
Proof.
  induction groups as [|[k0 n] rest IH]; simpl; [reflexivity|].
  destruct (String.eqb k k0); simpl; lia.
Qed.

Lemma termFreq_from (tokens : list string) : forall groups,
  C.well_grouped groups ->
  let result := fold_left (fun m token => C.bump token m) tokens groups in
  C.well_grouped result
  /\ fold_right Z.add 0 (map snd result)
     = fold_right Z.add 0 (map snd groups) + Z.of_nat (List.length tokens)
  /\ (forall k, In k (map fst result) <-> In k tokens \/ In k (map fst groups))
  /\ (forall k, C.tally k result
                = C.tally k groups + Z.of_nat (count_occ string_dec tokens k)).
Proof.
  induction tokens as [|t tokens IH]; intros groups Hwg; simpl.
  - split; [exact Hwg|]. split; [lia|]. split; intros k; [tauto | lia].
  - destruct (IH (C.bump t groups) (LedgerFacts.bump_well_grouped t groups Hwg))
      as (H1 & H2 & H3 & H4).
    split; [exact H1|]. split; [rewrite H2, sum_bump; lia|]. split.
    + intros k. rewrite H3, LedgerFacts.bump_keys. intuition congruence.
    + intros k. rewrite H4, LedgerFacts.tally_bump.
      destruct (string_dec t k) as [->|Hne].
      * rewrite String.eqb_refl. lia.
      * destruct (String.eqb_spec k t); [congruence | lia].
Qed.

Lemma termFreq_spec (tokens : list string) :
  C.well_grouped (H.termFreq tokens)
  /\ fold_right Z.add 0 (map snd (H.termFreq tokens)) = Z.of_nat (List.length tokens)
  /\ (forall k, In k (map fst (H.termFreq tokens)) <-> In k tokens)
  /\ (forall k, C.tally k (H.termFreq tokens)
                = Z.of_nat (count_occ string_dec tokens k)).
Proof.
  destruct (termFreq_from tokens [] (conj (NoDup_nil _) (Forall_nil _)))
    as (H1 & H2 & H3 & H4).
  split; [exact H1|]. split; [exact H2|]. split.
  - intros k. rewrite H3. simpl. tauto.
  - intros k. rewrite H4. reflexivity.
Qed.

Lemma positive_summand_le (entries : list (string * Z)) :
  Forall (fun kv => 0 < snd kv) entries ->
  forall kv, In kv entries -> snd kv <= fold_right Z.add 0 (map snd entries).
Proof.
  induction 1 as [|kv0 rest Hpos Hrest IH]; intros kv Hin; [destruct Hin|].
  destruct Hin as [->|Hin]; simpl.
  - assert (0 <= fold_right Z.add 0 (map snd rest)); [|lia].
    clear IH. induction Hrest; simpl; lia.
  - specialize (IH kv Hin). lia.
Qed.

Lemma tally_of_entry (groups : list (string * Z)) :
  NoDup (map fst groups) ->
  forall entry, In entry groups -> C.tally (fst entry) groups = snd entry.
Proof.
  unfold C.tally.
  induction groups as [|[k0 n0] rest IH]; intros Hnd entry Hin; [destruct Hin|].
  simpl in Hnd. apply NoDup_cons_iff in Hnd. destruct Hnd as [Hnotin Hnd].
  simpl. destruct Hin as [<-|Hin].
  - simpl. rewrite String.eqb_refl. reflexivity.
  - destruct (String.eqb_spec (fst entry) k0) as [Heq|_].
    + exfalso. apply Hnotin. rewrite <- Heq. apply in_map. exact Hin.
    + apply IH; assumption.
Qed.

Section Sparse.
Variable tokenize : string -> list string.

(** X8.  The sparse vector of a text has one component for each distinct
    token: there is a list of the tokens of the text, each of them once,
    such that the indices are the hashes of these tokens, from 0 to 99999,
    and the values are the binary64 quotients of the number of occurrences
    of the token by the number of tokens of the text.  Every such number of
    occurrences is at least 1, and together they are the number of tokens.
    A text without tokens has the empty vector. *)
Theorem sparse_embedding_has_one_component_per_distinct_token :
  forall text0 : string,
    let tokens0 := tokenize text0 in
    let sparse := H.generateSparseEmbedding tokenize text0 in
    let occurrences := fun term => Z.of_nat (count_occ string_dec tokens0 term) in
    (exists terms : list string,
       NoDup terms
       /\ (forall term, In term terms <-> In term tokens0)
       /\ H.indices sparse = map H.hashString terms
       /\ H.values sparse
          = map (fun term =>
                   PrimFloat.div (Binary64.of_Z (occurrences term))
                     (Binary64.of_Z (Z.of_nat (List.length tokens0)))) terms
       /\ Forall (fun term => 1 <= occurrences term <= Z.of_nat (List.length tokens0))
            terms
       /\ fold_right Z.add 0 (map occurrences terms) = Z.of_nat (List.length tokens0))
    /\ Forall (fun i => 0 <= i < 100000) (H.indices sparse)
    /\ (tokens0 = [] -> H.indices sparse = [] /\ H.values sparse = []).
Proof.
  intros text0 tokens0 sparse occurrences. subst sparse occurrences.
  unfold H.generateSparseEmbedding. fold tokens0. cbn [H.indices H.values].
  destruct (termFreq_spec tokens0) as ([Hnd Hpos] & Hsum & Hkeys & Htally).
  assert (Hcount : forall entry, In entry (H.termFreq tokens0) ->
            Z.of_nat (count_occ string_dec tokens0 (fst entry)) = snd entry).
  { intros entry Hin. rewrite <- Htally. apply tally_of_entry; assumption. }
  split; [|split].
  - exists (map fst (H.termFreq tokens0)).
    split; [exact Hnd|]. split; [exact Hkeys|]. split; [|split; [|split]].
    + rewrite map_map. reflexivity.
    + rewrite map_map. apply map_ext_in. intros entry Hin.
      rewrite (Hcount entry Hin). reflexivity.
    + apply Forall_forall. intros term Hterm. apply in_map_iff in Hterm.
      destruct Hterm as (entry & <- & Hin). rewrite (Hcount entry Hin).
      pose proof (positive_summand_le _ Hpos entry Hin) as Hle.
      rewrite Forall_forall in Hpos. specialize (Hpos entry Hin). simpl in Hpos.
      rewrite Hsum in Hle. lia.
    + rewrite map_map, <- Hsum. f_equal. apply map_ext_in. exact Hcount.
  - apply Forall_forall. intros i Hi. apply in_map_iff in Hi.
    destruct Hi as (entry & <- & _).
    apply hashString_range.
  - intros ->. split; reflexivity.
Qed.

End Sparse.

Import PrimFloat.

(** Six tokens, each once: every value is the number nearest to 1/6, and
    added up in the order of the vector the six make less than 1. *)
Lemma six_shares_add_up_below_1 :
  let sparse := H.generateSparseEmbedding (fun _ => ["a"; "b"; "c"; "d"; "e"; "f"]%string)
                  "a b c d e f" in
  H.values sparse = repeat (1 / 6)%float 6
  /\ fold_left PrimFloat.add (H.values sparse) 0%float = 0x1.fffffffffffffp-1%float
  /\ PrimFloat.ltb (fold_left PrimFloat.add (H.values sparse) 0%float) 1%float = true.
Proof.
  split; [reflexivity|]. split; reflexivity.
Qed.

End HashFacts.

(* ===================================================================== *)
(** * More on similarity: symmetry, ranking, and batches of texts *)
(* ===================================================================== *)

Module SimilarityFacts.
Import Js EmbeddingService.
Local Open Scope list_scope.

(** ** Keeping the best of a list *)

Section Ranking.
Context {A : Type} (key : A -> R) (p : A -> bool).

(** [l.filter(p).sort(by key, descending).slice(0, n)]: at most [n]
    elements of [l] that pass [p], in the order of decreasing key; an
    element that passes is left out only when [n] were kept and none of them
    has a lower key. *)
Lemma best_of_spec (n : nat) (l : list A) :
  let kept := firstn n (sort_desc key (List.filter p l)) in
  (List.length kept <= n)%nat
  /\ StronglySorted (before key) kept
  /\ (forall x, In x kept -> In x l /\ p x = true)
  /\ (forall x, In x l -> p x = true ->
        In x kept
        \/ (List.length kept = n /\ forall y, In y kept -> before key y x)).
Proof.
  intros kept. subst kept.
  pose proof (JsFacts.sort_desc_sorted key (List.filter p l)) as Hsorted.
  split; [|split; [|split]].
  - rewrite length_firstn. lia.
  - apply JsFacts.sorted_firstn. exact Hsorted.
  - intros x Hx. apply filter_In, (JsFacts.sort_desc_In key).
    rewrite <- (firstn_skipn n). apply in_or_app. left. exact Hx.
  - intros x Hx Hp. apply JsFacts.firstn_best; [exact Hsorted|].
    apply JsFacts.sort_desc_In, filter_In. split; assumption.
Qed.

End Ranking.


Lemma map_result_throws {A B} (f : A -> Result B) (e : JsError) (l : list A) :
  (forall x, In x l -> f x = inl e \/ exists y, f x = inr y) ->
  Exists (fun x => f x = inl e) l ->
  map_result f l = inl e.
Proof.
  intros Hf Hex. induction Hex as [x l Hx | x l _ IH]; simpl.
  - rewrite Hx. reflexivity.
  - destruct (Hf x (or_introl eq_refl)) as [-> | [y ->]]; [reflexivity|].
    rewrite IH; [reflexivity|]. intros z Hz. apply Hf. right. exact Hz.
Qed.

Lemma map_result_In {A B} (f : A -> Result B) (l : list A) (ys : list B) :
  map_result f l = inr ys ->
  forall y, In y ys -> exists x, In x l /\ f x = inr y.
Proof.
  revert ys. induction l as [|x l IH]; intros ys; simpl.
  - intros [= <-] y [].
  - destruct (f x) as [e|y0] eqn:Hx; [discriminate|].
    destruct (map_result f l) as [e|ys0]; [discriminate|].
    intros [= <-] y [<- | Hy].
    + exists x. split; [left; reflexivity | exact Hx].
    + destruct (IH ys0 eq_refl y Hy) as (x' & Hin & Hfx).
      exists x'. split; [right; exact Hin | exact Hfx].
Qed.


Lemma cosineSimilarity_other_length (a b : list R) :
  List.length a <> List.length b ->
  cosineSimilarity a b = inl (Error "Embeddings must have same dimensions").
Proof.
  intros Hlen. unfold cosineSimilarity.
  replace (List.length a =? List.length b)%nat with false
    by (symmetry; apply Nat.eqb_neq; exact Hlen).
  reflexivity.
Qed.


Lemma similarities_throw {D} (q : list R) (candidates : list (list R * D)) :
  Exists (fun c => List.length (fst c) <> List.length q) candidates ->
  map_result (fun candidate =>
                match cosineSimilarity q (fst candidate) with
                | inl e => inl e
                | inr similarity => inr (similarity, snd candidate)
                end) candidates
  = inl (Error "Embeddings must have same dimensions").
Proof.
  intros Hex. apply map_result_throws.
  - intros c _. unfold cosineSimilarity.
    destruct (negb (List.length q =? List.length (fst c))%nat);
      [left; reflexivity | right; eexists; reflexivity].
  - apply Exists_exists. apply Exists_exists in Hex. destruct Hex as (c & Hc & Hne).
    exists c. split; [exact Hc|].
    rewrite cosineSimilarity_other_length by congruence. reflexivity.
Qed.



(** ** Batches of texts *)

Section Batch.
Variable cfg : Config.
Variable fetch : Network.
Variable emb : string -> list R.
Hypothesis has_key : truthy (apiKey cfg) = true.
Hypothesis endpoint_answers : answers cfg fetch emb.

Local Abbreviation more_requests k n :=
  {| requests := requests n + k; sleeps := sleeps n |}.

Lemma embed_all (texts : list string) : forall n,
  exists results,
    Batches.map_m (generateEmbedding cfg fetch) texts n
    = (inr results, more_requests (List.length texts) n)
    /\ map embedding results = map emb texts.
Proof using has_key endpoint_answers.
  induction texts as [|t texts IH]; intros n; simpl.
  - exists []. split; [|reflexivity]. unfold ret.
    destruct n as [rq sl]. simpl. do 2 f_equal. lia.
  - destruct (endpoint_answers (requests n) t) as (r & body & Hfetch & Hok & Hjson & Hemb).
    rewrite (EmbeddingFacts.generateEmbedding_ok cfg fetch t n r body has_key Hfetch Hok Hjson).
    destruct (IH (sent n)) as (results & Hrest & Hembs).
    unfold bind. rewrite Hrest. eexists. split.
    + unfold ret, sent. simpl. do 2 f_equal. lia.
    + simpl. rewrite Hemb, Hembs. reflexivity.
Qed.

Lemma embed_all_batches (bs : list (list string)) : forall n,
  exists batchResults,
    Batches.map_m (fun batch => Batches.map_m (generateEmbedding cfg fetch) batch) bs n
    = (inr batchResults, more_requests (List.length (List.concat bs)) n)
    /\ map embedding (List.concat batchResults) = map emb (List.concat bs).
Proof using has_key endpoint_answers.
  induction bs as [|b bs IH]; intros n; simpl.
  - exists []. split; [|reflexivity]. unfold ret.
    destruct n as [rq sl]. simpl. do 2 f_equal. lia.
  - destruct (embed_all b n) as (results & Hb & Hembs). rewrite Hb.
    destruct (IH (more_requests (List.length b) n)) as (rest & Hrest & Hembs').
    unfold bind. rewrite Hrest. eexists. split.
    + unfold ret. simpl. do 2 f_equal. rewrite length_app. lia.
    + simpl. rewrite !map_app, Hembs, Hembs'. reflexivity.
Qed.

End Batch.

(** X11.  With a key and an endpoint that answers every request with the vector
    of its text, [generateBatchEmbeddings] returns one result for each
    text, in the order of the texts, after one request per text and no
    wait. *)
Theorem generateBatchEmbeddings_embeds_every_text_in_order :
  forall (cfg : Config) (fetch : Network) (emb : string -> list R)
         (texts : list string) (n : Net),
    truthy (apiKey cfg) = true ->
    answers cfg fetch emb ->
    exists results,
      EmbeddingBatch.generateBatchEmbeddings cfg fetch texts n
      = (inr results,
         {| requests := requests n + List.length texts; sleeps := sleeps n |})
      /\ map embedding results = map emb texts.
Proof.
  intros cfg fetch emb texts n Hkey Hanswers.
  destruct (BatchFacts.batches_from_spec 10 texts ltac:(lia) (List.length texts) 0
              ltac:(lia)) as (Hcat & _ & _).
  fold (Batches.batches 10 texts) in Hcat. simpl in Hcat.
  destruct (embed_all_batches cfg fetch emb Hkey Hanswers (Batches.batches 10 texts) n)
    as (batchResults & Hrun & Hembs).
  unfold EmbeddingBatch.generateBatchEmbeddings, bind. rewrite Hrun.
  rewrite Hcat in Hembs |- *.
  exists (List.concat batchResults). split; [reflexivity | exact Hembs].
Qed.

(** Twelve texts, an endpoint that answers each with the same vector. *)
Lemma generateBatchEmbeddings_embeds_every_text_in_order_witness :
  exists results,
    EmbeddingBatch.generateBatchEmbeddings Samples.cfg
      (Samples.always (Samples.embeds [1; 0]%R)) (repeat "text" 12) net0
    = (inr results,
       {| requests := requests net0 + List.length (repeat "text" 12);
          sleeps := sleeps net0 |})
    /\ map embedding results = map (fun _ => [1; 0]%R) (repeat "text" 12).
Proof.
  apply (generateBatchEmbeddings_embeds_every_text_in_order Samples.cfg
           (Samples.always (Samples.embeds [1; 0]%R)) (fun _ => [1; 0]%R)
           (repeat "text" 12) net0).
  - reflexivity.
  - intros k text0. eexists. eexists.
    split; [reflexivity|]. split; [reflexivity|]. split; reflexivity.
Defined.

End SimilarityFacts.

(* ===================================================================== *)
(** * More on the example ledger: submissions, failures, statistics *)
(* ===================================================================== *)

Module SubmissionFacts.
Import Js CodeRetrievalService.
Local Open Scope list_scope.

Lemma slice0_In {A} (k : Z) (l : list A) (x : A) : In x (slice0 k l) -> In x l.
Proof.
  unfold slice0. destruct (k <? 0); intros Hx;
    match type of Hx with
    | In _ (firstn ?n _) => rewrite <- (firstn_skipn n l)
    end; apply in_or_app; left; exact Hx.
Qed.

Lemma firstn_In {A} (n : nat) (l : list A) (x : A) : In x (firstn n l) -> In x l.
Proof. intros Hx. rewrite <- (firstn_skipn n l). apply in_or_app. left. exact Hx. Qed.

Lemma count_where_app (p : Row -> bool) (t1 t2 : list Row) :
  count_where p (t1 ++ t2) = count_where p t1 + count_where p t2.
Proof. unfold count_where. rewrite filter_app, length_app. lia. Qed.

Lemma count_where_one (p : Row -> bool) (r : Row) :
  count_where p [r] = if p r then 1 else 0.
Proof. unfold count_where. simpl. destruct (p r); reflexivity. Qed.

Lemma sorted_map {A B} (key : A -> R) (key' : B -> R) (f : A -> B) (l : list A) :
  (forall x, key' (f x) = key x) ->
  StronglySorted (before key) l -> StronglySorted (before key') (map f l).
Proof.
  intros Hkey. induction 1 as [|x l _ IH Hall]; simpl; constructor; [exact IH|].
  rewrite Forall_forall in *. intros y Hy. apply in_map_iff in Hy.
  destruct Hy as (x' & <- & Hx'). unfold before in *. rewrite !Hkey.
  apply Hall. exact Hx'.
Qed.

(** The rows read by [retrieveSimilarErrors] are failures that pass the
    filters of the options. *)
Lemma failure_rows_sound (options : Options) (table : list Row) (row : Row) :
  In row (failure_rows options table) ->
  In row table
  /\ success row = 0
  /\ (forall t, opt_tool options = Some t -> truthy t = true -> tool row = t)
  /\ (forall l, opt_language options = Some l -> truthy l = true -> language row = l)
  /\ (forall t, opt_errorType options = Some t -> truthy t = true ->
                error_type row = Some t).
Proof.
  unfold failure_rows. intros Hin.
  apply firstn_In, (JsFacts.sort_desc_In (fun r => IZR (timestamp r))), filter_In in Hin.
  destruct Hin as [Hin Hpass]. split; [exact Hin|].
  apply andb_prop in Hpass. destruct Hpass as [Hpass Htype].
  apply andb_prop in Hpass. destruct Hpass as [Hpass Hlang].
  apply andb_prop in Hpass. destruct Hpass as [Hfail Htool].
  split; [apply Z.eqb_eq; exact Hfail|]. split; [|split].
  - intros t Ht Htruthy. rewrite Ht, Htruthy in Htool.
    apply String.eqb_eq. exact Htool.
  - intros l Hl Htruthy. rewrite Hl, Htruthy in Hlang.
    apply String.eqb_eq. exact Hlang.
  - intros t Ht Htruthy. rewrite Ht, Htruthy in Htype.
    destruct (error_type row) as [t'|]; [|discriminate].
    apply String.eqb_eq in Htype. congruence.
Qed.

Section Service.
Variable cfg : E.Config.
Variable fetch : E.Network.
Variable Collection : Type.
Variable client_upsert : Q.CodePoint -> M Collection unit.
Variable defaultTopK : Z.
Variable defaultThreshold : R.
Variable Date_now : Z.

Local Abbreviation store :=
  (storeExample cfg fetch Collection client_upsert Date_now).
Local Abbreviation retrieve_errors :=
  (retrieveSimilarErrors cfg fetch Collection defaultTopK defaultThreshold).

(** ** Past failures *)

(** X12.  [retrieveSimilarErrors] never throws and writes nothing; every result
    is the copy, marked as a failure, of a row of the table with
    [success = 0] that has the tool, the language and the error type of
    the options, when these are given and not empty, and its similarity is
    at least the threshold. *)
Theorem retrieveSimilarErrors_returns_failures_that_match_the_options :
  forall (task0 : string) (options : Options) (s : State Collection),
    exists results,
      fst (retrieve_errors task0 options s) = inr results
      /\ rows (snd (retrieve_errors task0 options s)) = rows s
      /\ seq (snd (retrieve_errors task0 options s)) = seq s
      /\ vectors (snd (retrieve_errors task0 options s)) = vectors s
      /\ forall result, In result results ->
           (threshold_of defaultThreshold options <= similarity result)%R
           /\ r_success (example result) = false
           /\ exists row,
                In row (rows s)
                /\ success row = 0
                /\ example result = snd (to_candidate row)
                /\ (forall t, opt_tool options = Some t -> truthy t = true ->
                              tool row = t)
                /\ (forall l, opt_language options = Some l -> truthy l = true ->
                              language row = l)
                /\ (forall t, opt_errorType options = Some t -> truthy t = true ->
                              error_type row = Some t).
Proof.
  intros task0 options s.
  unfold retrieveSimilarErrors, try_catch, bind, on_net, lift, ret.
  destruct (E.generateEmbedding cfg fetch task0 (net s)) as [[e|r] n'].
  - exists []. split; [reflexivity|]. do 3 (split; [reflexivity|]). intros result [].
  - cbv beta iota.
    destruct (E.findMostSimilar _ _ _ _) as [e|found] eqn:Hfound.
    + exists []. split; [reflexivity|]. do 3 (split; [reflexivity|]).
      intros result [].
    + eexists. split; [reflexivity|]. cbn [snd rows seq vectors].
      do 3 (split; [reflexivity|]).
      intros result Hresult. apply in_map_iff in Hresult.
      destruct Hresult as (item & <- & Hitem). cbn [similarity example].
      unfold E.findMostSimilar in Hfound.
      destruct (E.map_result _ _) as [e|similarities] eqn:Hmap; [discriminate|].
      injection Hfound as <-.
      apply slice0_In, (JsFacts.sort_desc_In fst), filter_In in Hitem.
      destruct Hitem as [Hitem Hpass]. apply JsFacts.Rgeb_true in Hpass.
      destruct (SimilarityFacts.map_result_In _ _ _ Hmap item Hitem)
        as (candidate & Hcandidate & Hvalue).
      destruct (E.cosineSimilarity _ _) as [e|sim]; [discriminate|].
      injection Hvalue as <-. cbn [fst snd] in *.
      apply in_map_iff in Hcandidate. destruct Hcandidate as (row & <- & Hrow).
      destruct (failure_rows_sound options (rows s) row Hrow)
        as (Hin & Hfail & Htool & Hlang & Htype).
      split; [exact Hpass|]. split; [reflexivity|].
      exists row. split; [exact Hin|]. split; [exact Hfail|]. split; [reflexivity|].
      split; [exact Htool|]. split; [exact Hlang | exact Htype].
Qed.

(** X13.  One stored failure among the rows read whose vector has another length
    than the query vector makes the whole call return the empty list. *)
Theorem retrieveSimilarErrors_returns_nothing_on_a_vector_of_other_length :
  forall (task0 : string) (options : Options) (s : State Collection) r n',
    E.generateEmbedding cfg fetch task0 (net s) = (inr r, n') ->
    Exists (fun row => List.length (embedding row) <> List.length (E.embedding r))
      (failure_rows options (rows s)) ->
    fst (retrieve_errors task0 options s) = inr [].
Proof.
  intros task0 options s r n' Hemb Hex.
  unfold retrieveSimilarErrors, try_catch, bind, on_net, lift, ret.
  rewrite Hemb. cbv beta iota. unfold E.findMostSimilar.
  rewrite SimilarityFacts.similarities_throw; [reflexivity|].
  apply Exists_exists. apply Exists_exists in Hex. destruct Hex as (row & Hrow & Hne).
  exists (to_candidate row). split; [apply in_map; exact Hrow | exact Hne].
Qed.

(** ** Submission *)

Lemma storeExample_cases fault (example0 : Example) (s : State Collection) :
  (exists e s', store fault example0 s = (inl e, s')
                /\ rows s' = rows s /\ seq s' = seq s /\ vectors s' = vectors s)
  \/ (exists embedding0 s',
        store fault example0 s = (inr (seq s + 1), s')
        /\ fault = None
        /\ rows s' = rows s ++ [example_row Date_now example0 (seq s + 1) embedding0]
        /\ seq s' = seq s + 1).
Proof.
  unfold storeExample, try_catch, bind, on_net, on_vectors, db_insert, ret, throw,
    Q.upsertPoint.
  destruct (E.generateEmbedding cfg fetch (ex_task example0) (net s)) as [[e|r] n'].
  - left. eexists. eexists. split; [reflexivity|]. repeat split.
  - cbv beta iota. destruct fault as [e|].
    + left. eexists. eexists. split; [reflexivity|]. repeat split.
    + right. cbn. destruct (client_upsert _ (vectors s)) as [[e|[]] c'];
        exists (E.embedding r); eexists; (split; [reflexivity|]); repeat split.
Qed.

(** X14.  A call of [storeExample] either throws and leaves the table, its
    counter and the collection as they were, or returns the next
    identifier and adds exactly one row, the one of the example with that
    identifier, at the end of the table. *)
Theorem storeExample_adds_one_row_or_nothing :
  forall fault (example0 : Example) (s : State Collection),
    match store fault example0 s with
    | (inl e, s') => rows s' = rows s /\ seq s' = seq s /\ vectors s' = vectors s
    | (inr insertId, s') =>
        insertId = seq s + 1
        /\ seq s' = seq s + 1
        /\ exists embedding0,
             rows s' = rows s ++ [example_row Date_now example0 insertId embedding0]
    end.
Proof.
  intros fault example0 s.
  destruct (storeExample_cases fault example0 s)
    as [(e & s' & -> & Hrows & Hseq & Hvec) | (v & s' & -> & _ & Hrows & Hseq)].
  - auto.
  - split; [reflexivity|]. split; [exact Hseq|]. exists v. exact Hrows.
Qed.

(** X16.  After a successful [storeExample] the statistics count the example
    once: a successful one adds 1 to the total of [getStats] and to the
    entry of its tool and leaves the totals of [getErrorStats] alone; a
    failed one adds 1 to [totalErrors] and leaves [getStats] alone. *)
Theorem storeExample_is_counted_once_by_the_statistics :
  forall (example0 : Example) (s : State Collection) insertId,
    fst (store None example0 s) = inr insertId ->
    let table' := rows (snd (store None example0 s)) in
    total (getStats table')
    = total (getStats (rows s)) + (if ex_success example0 then 1 else 0)
    /\ totalErrors (getErrorStats table')
       = totalErrors (getErrorStats (rows s)) + (if ex_success example0 then 0 else 1)
    /\ forall t,
         byTool (getStats table') !! t
         = entry_of (count_where (in_group succeeded (fun r => Some (tool r)) t) (rows s)
                     + (if ex_success example0 && String.eqb t (ex_tool example0)
                        then 1 else 0)).
Proof.
  intros example0 s insertId Hok table'. subst table'.
  destruct (storeExample_cases None example0 s)
    as [(e & s' & Hrun & _) | (v & s' & Hrun & _ & Hrows & _)];
    rewrite Hrun in Hok |- *; cbn [fst snd] in *; [discriminate|].
  rewrite Hrows. unfold getStats, getErrorStats. cbn [total totalErrors byTool].
  rewrite !count_where_app, !count_where_one.
  unfold succeeded at 2, failed at 2. cbn [success example_row].
  split; [|split].
  - destruct (ex_success example0); reflexivity.
  - destruct (ex_success example0); reflexivity.
  - intros t. rewrite LedgerFacts.grouped_lookup, count_where_app, count_where_one.
    f_equal. f_equal. unfold in_group, succeeded. cbn [success tool example_row].
    destruct (ex_success example0); reflexivity.
Qed.

End Service.

(** ** Recent errors *)

(** X17.  [recentErrors] lists at most 10 entries, as many as there are failed
    rows when these are fewer, in the order of decreasing timestamp; each
    is the entry of a failed row, and a failed row that is not listed is
    not more recent than any entry. *)
Theorem recentErrors_are_the_ten_latest_failures :
  forall table : list Row,
    let recent := recentErrors (getErrorStats table) in
    List.length recent = Nat.min 10 (List.length (List.filter failed table))
    /\ StronglySorted (fun a b => recent_timestamp b <= recent_timestamp a) recent
    /\ (forall entry, In entry recent ->
          exists row, In row table /\ success row = 0
                      /\ entry = {| recent_task := task row;
                                    recent_errorType := error_type row;
                                    recent_timestamp := timestamp row |})
    /\ (forall row, In row table -> success row = 0 ->
          In {| recent_task := task row; recent_errorType := error_type row;
                recent_timestamp := timestamp row |} recent
          \/ (List.length recent = 10%nat
              /\ forall entry, In entry recent ->
                   timestamp row <= recent_timestamp entry)).
Proof.
  intros table recent. subst recent. unfold getErrorStats. cbn [recentErrors].
  set (entry_of_row := fun r => {| recent_task := task r;
                                   recent_errorType := error_type r;
                                   recent_timestamp := timestamp r |}).
  destruct (SimilarityFacts.best_of_spec (fun r => IZR (timestamp r)) failed 10 table)
    as (_ & Hsorted & Hsound & Hbest).
  split; [|split; [|split]].
  - rewrite length_map, length_firstn.
    rewrite (Permutation_length (JsFacts.sort_desc_perm _ (List.filter failed table))).
    reflexivity.
  - apply (sorted_map (fun r => IZR (timestamp r)) (fun e => IZR (recent_timestamp e))
             entry_of_row) in Hsorted; [|reflexivity].
    clear -Hsorted. induction Hsorted as [|x l _ IH Hall]; constructor; [exact IH|].
    eapply Forall_impl; [|exact Hall]. cbv beta. unfold before.
    intros y Hy. apply le_IZR. exact Hy.
  - intros entry Hentry. apply in_map_iff in Hentry.
    destruct Hentry as (row & <- & Hrow). destruct (Hsound row Hrow) as [Hin Hfail].
    exists row. split; [exact Hin|]. split; [apply Z.eqb_eq; exact Hfail | reflexivity].
  - intros row Hrow Hfail.
    destruct (Hbest row Hrow) as [Hkept | [Hfull Hothers]].
    + unfold failed. apply Z.eqb_eq. exact Hfail.
    + left. apply (in_map entry_of_row). exact Hkept.
    + right. split; [rewrite length_map; exact Hfull|].
      intros entry Hentry. apply in_map_iff in Hentry.
      destruct Hentry as (row' & <- & Hrow'). cbn [recent_timestamp entry_of_row].
      apply le_IZR. exact (Hothers row' Hrow').
Qed.

(** ** Instances *)

(** A query vector of two components against a stored vector of one. *)
Lemma retrieveSimilarErrors_returns_nothing_on_a_vector_of_other_length_witness :
  fst (retrieveSimilarErrors Samples.cfg (Samples.always (Samples.embeds [1; 0]%R)) unit
         3 0.6%R "parse a date" Samples.no_options MoreSamples.one_failure) = inr [].
Proof.
  apply (retrieveSimilarErrors_returns_nothing_on_a_vector_of_other_length
           Samples.cfg (Samples.always (Samples.embeds [1; 0]%R)) unit 3 0.6%R
           "parse a date" Samples.no_options MoreSamples.one_failure
           {| E.embedding := [1; 0]%R; E.tokens := 4;
              E.result_model := E.defaultModel Samples.cfg |}
           (E.sent E.net0)).
  - reflexivity.
  - apply Exists_cons_hd. simpl. lia.
Defined.

(** The same submission, seen by the statistics. *)
Lemma storeExample_is_counted_once_by_the_statistics_witness :
  let table' :=
    rows (snd (storeExample Samples.cfg (Samples.always (Samples.embeds [1; 0]%R)) unit
                 MoreSamples.accepting_upsert 1700000000000 None
                 Samples.reverse_example Samples.empty_ledger)) in
  total (getStats table')
  = total (getStats (rows Samples.empty_ledger))
    + (if ex_success Samples.reverse_example then 1 else 0)
  /\ totalErrors (getErrorStats table')
     = totalErrors (getErrorStats (rows Samples.empty_ledger))
       + (if ex_success Samples.reverse_example then 0 else 1)
  /\ forall t,
       byTool (getStats table') !! t
       = entry_of (count_where (in_group succeeded (fun r => Some (tool r)) t)
                     (rows Samples.empty_ledger)
                   + (if ex_success Samples.reverse_example
                         && String.eqb t (ex_tool Samples.reverse_example)
                      then 1 else 0)).
Proof.
  apply (storeExample_is_counted_once_by_the_statistics
           Samples.cfg (Samples.always (Samples.embeds [1; 0]%R)) unit
           MoreSamples.accepting_upsert 1700000000000
           Samples.reverse_example Samples.empty_ledger 1).
  reflexivity.
Defined.

End SubmissionFacts.

(* ===================================================================== *)
(** * More on the indexer: failures, requests, removal, full passes *)
(* ===================================================================== *)

Module PassFacts.
Import Js CodebaseIndexerService.
Local Open Scope list_scope.

Section Service.
Variable cfg : E.Config.
Variable fetch : E.Network.
Variable projectRoot : string.
Variable extname : string -> string.
Variable relative : string -> string -> string.
Variable ignoreFilter : option (string -> bool).
Variable chunkCode : string -> Language -> Result (list CodeChunk).
Variable EMBEDDING_BACKEND : option string.

Local Abbreviation should_index := (shouldIndexFile projectRoot extname relative ignoreFilter).
Local Abbreviation language_for := (getLanguage extname).
Local Abbreviation index_one := (index_chunk cfg fetch EMBEDDING_BACKEND).
Local Abbreviation index_file :=
  (indexFile cfg fetch projectRoot extname relative ignoreFilter chunkCode
     EMBEDDING_BACKEND).
Local Abbreviation search := (searchSimilar cfg fetch).
Local Abbreviation step1 :=
  (step cfg fetch projectRoot extname relative ignoreFilter chunkCode EMBEDDING_BACKEND).
Local Abbreviation run_events :=
  (run cfg fetch projectRoot extname relative ignoreFilter chunkCode EMBEDDING_BACKEND).

(** ** What a call of [indexFile] can change *)

(** X18.  Whatever the file system, the chunker and the endpoint do, [indexFile]
    throws nothing and leaves the rows of every other file as they are.
    When the file is not to be indexed, or [stat] or [readFile] fails, the
    rows of the file itself stay too and no request is sent: the state is
    unchanged. *)
Theorem indexFile_never_throws_and_keeps_other_files :
  forall (fs : FileSystem) (filePath0 : string) (s : State),
    exists s',
      index_file fs filePath0 s = (inr tt, s')
      /\ rows_of_others filePath0 (code_chunks s')
         = rows_of_others filePath0 (code_chunks s)
      /\ (should_index filePath0 = false
          \/ (exists e, mtimeMs fs filePath0 = inl e)
          \/ (exists e, readFile fs filePath0 = inl e) ->
          s' = s).
Proof.
  intros fs filePath0 s. rewrite IndexerFacts.indexFile_unfold.
  destruct (should_index filePath0);
    [| exists s; split; [reflexivity | split; [reflexivity | intros _; reflexivity]]].
  destruct (mtimeMs fs filePath0) as [e|lastModified];
    [exists s; split; [reflexivity | split; [reflexivity | intros _; reflexivity]] |].
  destruct (match stored_last_modified filePath0 (code_chunks s) with
            | Some stored => lastModified <=? stored
            | None => false
            end);
    [exists s; split; [reflexivity | split; [reflexivity | intros _; reflexivity]] |].
  destruct (readFile fs filePath0) as [e|content0];
    [exists s; split; [reflexivity | split; [reflexivity | intros _; reflexivity]] |].
  destruct (is_unknown (language_for filePath0)).
  { exists s. split; [reflexivity | split; [reflexivity | intros _; reflexivity]]. }
  cbv zeta.
  destruct (chunkCode content0 (language_for filePath0)) as [e|chunks].
  { eexists. split; [reflexivity|]. split.
    - cbn [code_chunks set_chunks]. apply IndexerFacts.rows_of_others_idem.
    - intros [H | [[e0 H] | [e0 H]]]; discriminate. }
  destruct (IndexerFacts.for_each_chunks_cases cfg fetch EMBEDDING_BACKEND filePath0
              (relative projectRoot filePath0) lastModified chunks
              (set_chunks (rows_of_others filePath0 (code_chunks s)) s))
    as (s' & extra & Hrun & _ & Hrows & Hall).
  unfold try_catch. rewrite Hrun. exists s'. split; [reflexivity|]. split.
  - assert (Hfile : Forall (fun r => file_path r = filePath0) extra).
    { eapply Forall_impl; [|exact Hall]. intros row (c & e0 & _ & ->). reflexivity. }
    destruct (IndexerFacts.rows_of_file_all filePath0 extra Hfile) as [_ Hothers].
    rewrite Hrows. cbn [code_chunks set_chunks].
    rewrite IndexerFacts.rows_of_others_app, IndexerFacts.rows_of_others_idem, Hothers.
    apply app_nil_r.
  - intros [H | [[e0 H] | [e0 H]]]; discriminate.
Qed.

(** X19.  The rows of a modified file are deleted before the chunker runs: when
    the chunker throws, the file is left with no row at all, the rows of
    the other files stay, and no request is sent. *)
Theorem indexFile_leaves_no_row_when_the_chunker_throws :
  forall (fs : FileSystem) (filePath0 : string) (s : State)
         (lastModified : Z) (content0 : string) (e : JsError),
    should_index filePath0 = true ->
    mtimeMs fs filePath0 = inr lastModified ->
    (forall stored, stored_last_modified filePath0 (code_chunks s) = Some stored ->
                    stored < lastModified) ->
    readFile fs filePath0 = inr content0 ->
    chunkCode content0 (language_for filePath0) = inl e ->
    index_file fs filePath0 s
    = (inr tt, set_chunks (rows_of_others filePath0 (code_chunks s)) s)
    /\ rows_of_file filePath0 (code_chunks (snd (index_file fs filePath0 s))) = []
    /\ net (snd (index_file fs filePath0 s)) = net s.
Proof.
  intros fs filePath0 s lastModified content0 e Hshould Hstat Hnewer Hread Hchunk.
  assert (Hrun : index_file fs filePath0 s
                 = (inr tt, set_chunks (rows_of_others filePath0 (code_chunks s)) s)).
  { rewrite IndexerFacts.indexFile_unfold, Hshould, Hstat.
    assert (Hcmp : match stored_last_modified filePath0 (code_chunks s) with
                   | Some stored => lastModified <=? stored
                   | None => false
                   end = false).
    { destruct (stored_last_modified filePath0 (code_chunks s)) as [stored|];
        [|reflexivity].
      apply Z.leb_gt. apply Hnewer. reflexivity. }
    rewrite Hcmp, Hread,
      (IndexerFacts.supported_language projectRoot extname relative ignoreFilter
         filePath0 Hshould).
    cbv zeta. rewrite Hchunk. reflexivity. }
  rewrite Hrun. split; [reflexivity|]. split; [|reflexivity].
  cbn [snd code_chunks set_chunks]. apply IndexerFacts.rows_of_file_others.
Qed.

(** ** Requests *)

Section Answered.
Variable emb : string -> list R.
Hypothesis has_key : truthy (E.apiKey cfg) = true.
Hypothesis endpoint_answers : E.answers cfg fetch emb.

Lemma index_chunk_sends_one (filePath0 relativePath0 : string) (lastModified : Z)
    (chunk : CodeChunk) (s : State) :
  E.requests (net (snd (index_one filePath0 relativePath0 lastModified chunk s)))
  = S (E.requests (net s)).
Proof using has_key endpoint_answers.
  destruct (endpoint_answers (E.requests (net s)) (c_code chunk))
    as (r & body & Hf & Hok & Hjson & Hemb).
  unfold index_chunk, try_catch, bind, on_net, insert_row, ret.
  rewrite (EmbeddingFacts.generateEmbedding_ok cfg fetch _ _ r body has_key Hf Hok Hjson).
  cbn [set_net code_chunks].
  destruct (existsb _ (code_chunks s)); [reflexivity|].
  destruct EMBEDDING_BACKEND as [b|]; [destruct (String.eqb b "api")|]; reflexivity.
Qed.

Lemma for_each_chunks_sends (filePath0 relativePath0 : string) (lastModified : Z)
    (chunks : list CodeChunk) : forall s,
  E.requests (net (snd (for_each chunks (index_one filePath0 relativePath0 lastModified) s)))
  = (E.requests (net s) + List.length chunks)%nat.
Proof using has_key endpoint_answers.
  induction chunks as [|chunk chunks IH]; intros s; simpl.
  - cbn. lia.
  - pose proof (index_chunk_sends_one filePath0 relativePath0 lastModified chunk s) as Hone.
    destruct (IndexerFacts.index_chunk_cases cfg fetch EMBEDDING_BACKEND filePath0
                relativePath0 lastModified chunk s) as (s1 & Hrun & _).
    unfold bind. rewrite Hrun in Hone |- *. cbn [snd] in Hone.
    rewrite IH, Hone. lia.
Qed.

End Answered.

(** X20.  With a key and an endpoint that answers, indexing a modified file that
    is read and chunked sends exactly one embedding request per chunk of
    the chunker, whether or not the row of the chunk can be inserted. *)
Theorem indexFile_sends_one_request_per_chunk :
  forall (emb : string -> list R) (fs : FileSystem) (filePath0 : string) (s : State)
         (lastModified : Z) (content0 : string) (chunks : list CodeChunk),
    truthy (E.apiKey cfg) = true ->
    E.answers cfg fetch emb ->
    should_index filePath0 = true ->
    mtimeMs fs filePath0 = inr lastModified ->
    (forall stored, stored_last_modified filePath0 (code_chunks s) = Some stored ->
                    stored < lastModified) ->
    readFile fs filePath0 = inr content0 ->
    chunkCode content0 (language_for filePath0) = inr chunks ->
    E.requests (net (snd (index_file fs filePath0 s)))
    = (E.requests (net s) + List.length chunks)%nat.
Proof.
  intros emb fs filePath0 s lastModified content0 chunks Hkey Hans
    Hshould Hstat Hnewer Hread Hchunk.
  rewrite (IndexerFacts.indexFile_modified cfg fetch projectRoot extname relative
             ignoreFilter chunkCode EMBEDDING_BACKEND fs filePath0 s lastModified
             content0 chunks) by assumption.
  pose proof (for_each_chunks_sends emb Hkey Hans filePath0
                (relative projectRoot filePath0) lastModified chunks
                (set_chunks (rows_of_others filePath0 (code_chunks s)) s)) as Hsent.
  destruct (IndexerFacts.for_each_chunks_cases cfg fetch EMBEDDING_BACKEND filePath0
              (relative projectRoot filePath0) lastModified chunks
              (set_chunks (rows_of_others filePath0 (code_chunks s)) s))
    as (s' & extra & Hrun & _).
  unfold try_catch. rewrite Hrun in Hsent |- *. exact Hsent.
Qed.

(** ** Removal *)

(** X21.  After [removeFile] the file has no row, so the next [indexFile] does
    not skip it, even when the file is not modified: with a key, an
    endpoint that answers, and chunk identifiers that are pairwise distinct
    and not used by the other files, the table is then the rows of the
    other files followed by the rows of the chunks of the file. *)
Theorem removeFile_then_indexFile_indexes_the_file_again :
  forall (emb : string -> list R) (fs : FileSystem) (filePath0 : string) (s : State)
         (lastModified : Z) (content0 : string) (chunks : list CodeChunk),
    truthy (E.apiKey cfg) = true ->
    E.answers cfg fetch emb ->
    should_index filePath0 = true ->
    mtimeMs fs filePath0 = inr lastModified ->
    readFile fs filePath0 = inr content0 ->
    chunkCode content0 (language_for filePath0) = inr chunks ->
    NoDup (map (chunk_id (relative projectRoot filePath0)) chunks) ->
    (forall chunk, In chunk chunks ->
       ~ In (chunk_id (relative projectRoot filePath0) chunk)
            (map id (rows_of_others filePath0 (code_chunks s)))) ->
    let removed := snd (removeFile filePath0 s) in
    code_chunks removed = rows_of_others filePath0 (code_chunks s)
    /\ stored_last_modified filePath0 (code_chunks removed) = None
    /\ code_chunks (snd (index_file fs filePath0 removed))
       = rows_of_others filePath0 (code_chunks s)
         ++ map (fun chunk => row_of filePath0 (relative projectRoot filePath0)
                                lastModified chunk (emb (c_code chunk))) chunks.
Proof.
  intros emb fs filePath0 s lastModified content0 chunks Hkey Hans
    Hshould Hstat Hread Hchunk Hnd Hfresh removed. subst removed.
  unfold removeFile, delete_file. cbn [snd code_chunks set_chunks].
  assert (Hnone : stored_last_modified filePath0
                    (rows_of_others filePath0 (code_chunks s)) = None).
  { unfold stored_last_modified.
    destruct (find _ (rows_of_others filePath0 (code_chunks s))) as [row|] eqn:Hfind;
      [|reflexivity].
    apply find_some in Hfind. destruct Hfind as [Hin Hsame].
    apply filter_In in Hin. destruct Hin as [_ Hother].
    rewrite Hsame in Hother. discriminate. }
  split; [reflexivity|]. split; [exact Hnone|].
  rewrite (IndexerFacts.indexFile_modified cfg fetch projectRoot extname relative
             ignoreFilter chunkCode EMBEDDING_BACKEND fs filePath0 _ lastModified
             content0 chunks); try assumption.
  - cbn [code_chunks set_chunks]. rewrite IndexerFacts.rows_of_others_idem.
    destruct (IndexerFacts.for_each_chunks_ok cfg fetch EMBEDDING_BACKEND emb filePath0
                (relative projectRoot filePath0) lastModified chunks
                (set_chunks (rows_of_others filePath0 (code_chunks s))
                   (set_chunks (rows_of_others filePath0 (code_chunks s)) s))
                Hkey Hans Hnd Hfresh) as (s' & Hrun & Hrows).
    unfold try_catch. rewrite Hrun. exact Hrows.
  - cbn [code_chunks set_chunks]. rewrite Hnone. discriminate.
Qed.

(** X22.  [clearIndex] empties the table whatever pass is in progress: every
    search then returns the empty list, no file has a stored modification
    time, and the flag and the suspended passes are as before. *)
Theorem clearIndex_empties_the_index_and_stops_no_pass :
  forall (s : State) (query : string) (options : option SearchOptions)
         (filePath0 : string),
    let cleared := snd (clearIndex s) in
    fst (search query options cleared) = inr []
    /\ stored_last_modified filePath0 (code_chunks cleared) = None
    /\ totalChunks (getStats cleared) = 0
    /\ isIndexing cleared = isIndexing s
    /\ running cleared = running s.
Proof.
  intros s query options filePath0 cleared. subst cleared.
  split; [|repeat split].
  unfold searchSimilar, try_catch, bind, on_net, lift, ret, clearIndex.
  cbn [snd net set_stats set_chunks].
  destruct (E.generateEmbedding cfg fetch query (net s)) as [[e|r] n']; [reflexivity|].
  cbv beta iota. cbn [code_chunks set_net set_stats set_chunks].
  assert (Hnone : candidates options [] = [])
    by (unfold candidates; destruct (language_of options); reflexivity).
  rewrite Hnone. cbn [E.map_result List.filter sort_desc fold_right fst].
  unfold slice0. destruct (topK_of options <? 0); rewrite firstn_nil; reflexivity.
Qed.

(** ** Search over vectors of several lengths *)

(** X23.  One stored chunk among the rows read whose vector has another length
    than the query vector makes the whole search return the empty list. *)
Theorem searchSimilar_returns_nothing_on_a_vector_of_other_length :
  forall (query : string) (options : option SearchOptions) (s : State) r n',
    E.generateEmbedding cfg fetch query (net s) = (inr r, n') ->
    Exists (fun row => List.length (embedding row) <> List.length (E.embedding r))
      (candidates options (code_chunks s)) ->
    search query options s = (inr [], set_net n' s).
Proof.
  intros query options s r n' Hemb Hex.
  unfold searchSimilar, try_catch, bind, on_net, lift, ret.
  rewrite Hemb. cbv beta iota.
  change (code_chunks (set_net n' s)) with (code_chunks s).
  destruct (IndexerFacts.map_to_hit_mismatch (E.embedding r) _ Hex) as [e ->].
  reflexivity.
Qed.

(** ** A full pass *)

Lemma index_chunk_with_control ps b g (filePath0 relativePath0 : string)
    (lastModified : Z) (chunk : CodeChunk) (s : State) :
  index_one filePath0 relativePath0 lastModified chunk (Measures.with_control ps b g s)
  = (fst (index_one filePath0 relativePath0 lastModified chunk s),
     Measures.with_control ps b g
       (snd (index_one filePath0 relativePath0 lastModified chunk s))).
Proof.
  unfold index_chunk, try_catch, bind, on_net, insert_row, ret.
  cbn [net Measures.with_control].
  destruct (E.generateEmbedding cfg fetch (c_code chunk) (net s)) as [[e|r] n'];
    [reflexivity|].
  cbn [set_net code_chunks Measures.with_control].
  destruct (existsb _ (code_chunks s)); [reflexivity|].
  destruct EMBEDDING_BACKEND as [b0|]; [destruct (String.eqb b0 "api")|]; reflexivity.
Qed.

Lemma for_each_with_control {A} ps b g (body : A -> M State unit) :
  (forall x s, body x (Measures.with_control ps b g s)
               = (fst (body x s), Measures.with_control ps b g (snd (body x s)))) ->
  forall l s,
    for_each l body (Measures.with_control ps b g s)
    = (fst (for_each l body s), Measures.with_control ps b g (snd (for_each l body s))).
Proof.
  intros Hbody. induction l as [|x l IH]; intros s; simpl; [reflexivity|].
  unfold bind. rewrite Hbody. destruct (body x s) as [[e|[]] s1]; cbn [fst snd].
  - reflexivity.
  - apply IH.
Qed.

Lemma indexFile_with_control ps b g (fs : FileSystem) (filePath0 : string) (s : State) :
  index_file fs filePath0 (Measures.with_control ps b g s)
  = (fst (index_file fs filePath0 s),
     Measures.with_control ps b g (snd (index_file fs filePath0 s))).
Proof.
  rewrite !IndexerFacts.indexFile_unfold. cbn [code_chunks Measures.with_control].
  destruct (should_index filePath0); [|reflexivity].
  destruct (mtimeMs fs filePath0) as [e|lastModified]; [reflexivity|].
  destruct (match stored_last_modified filePath0 (code_chunks s) with
            | Some stored => lastModified <=? stored
            | None => false
            end); [reflexivity|].
  destruct (readFile fs filePath0) as [e|content0]; [reflexivity|].
  destruct (is_unknown (language_for filePath0)); [reflexivity|].
  cbv zeta.
  destruct (chunkCode content0 (language_for filePath0)) as [e|chunks]; [reflexivity|].
  change (set_chunks (rows_of_others filePath0 (code_chunks s))
            (Measures.with_control ps b g s))
    with (Measures.with_control ps b g
            (set_chunks (rows_of_others filePath0 (code_chunks s)) s)).
  unfold try_catch.
  rewrite (for_each_with_control ps b g
             (index_one filePath0 (relative projectRoot filePath0) lastModified)
             (index_chunk_with_control ps b g filePath0
                (relative projectRoot filePath0) lastModified)).
  destruct (for_each chunks _ (set_chunks _ s)) as [[e|[]] s1]; reflexivity.
Qed.

Lemma batch_with_control ps b g (fs : FileSystem) (files : list string) (s : State) :
  for_each files (index_file fs) (Measures.with_control ps b g s)
  = (inr tt, Measures.with_control ps b g (snd (for_each files (index_file fs) s))).
Proof.
  rewrite (for_each_with_control ps b g (index_file fs)
             (indexFile_with_control ps b g fs)).
  destruct (IndexerFacts.batch_frame cfg fetch projectRoot extname relative ignoreFilter
              chunkCode EMBEDDING_BACKEND fs files s) as (s' & -> & _).
  reflexivity.
Qed.

Lemma batch_app (fs : FileSystem) (l1 l2 : list string) : forall s,
  snd (for_each (l1 ++ l2) (index_file fs) s)
  = snd (for_each l2 (index_file fs) (snd (for_each l1 (index_file fs) s))).
Proof.
  induction l1 as [|x l1 IH]; intros s; simpl; [reflexivity|].
  destruct (IndexerFacts.indexFile_frame cfg fetch projectRoot extname relative
              ignoreFilter chunkCode EMBEDDING_BACKEND fs x s) as (s1 & Hrun & _).
  unfold bind. rewrite Hrun. apply IH.
Qed.

(** The rounds of the loop of [indexCodebase] from the batch that starts
    at [i] on. *)
Lemma rounds_from (fs : FileSystem) (files : list string) (now : Z) (times : Z * Z)
    (g : nat) : forall fuel i s,
  (i < List.length files)%nat ->
  (List.length files - i <= fuel)%nat ->
  run_events
    (repeat (BatchSettled 0 fs times)
       (List.length (Batches.batches_from fuel i batchSize files)))
    (Measures.with_control [AwaitBatch now files i] true g s)
  = Some (Measures.finished now files times g
            (snd (for_each (skipn i files) (index_file fs) s))).
Proof.
  induction fuel as [|fuel IH]; intros i s Hi Hfuel; [lia|].
  cbn [Batches.batches_from]. destruct (Nat.ltb_spec i (List.length files)); [|lia].
  cbn [List.length repeat run step nth_error running Measures.with_control].
  rewrite batch_with_control.
  set (s1 := snd (for_each (slice i (i + batchSize) files) (index_file fs) s)).
  assert (Hsplit : skipn i files
                   = slice i (i + batchSize) files ++ skipn (i + batchSize) files).
  { rewrite BatchFacts.slice_batch, BatchFacts.skipn_plus.
    symmetry. apply firstn_skipn. }
  destruct (Nat.ltb_spec (i + batchSize) (List.length files)) as [Hmore | Hlast].
  - rewrite Hsplit, batch_app. fold s1.
    rewrite <- (IH (i + batchSize)%nat s1 Hmore) by (unfold batchSize in *; lia).
    reflexivity.
  - assert (Hend : Batches.batches_from fuel (i + batchSize) batchSize files = []).
    { destruct fuel; [reflexivity|]. cbn [Batches.batches_from].
      destruct (Nat.ltb_spec (i + batchSize) (List.length files)); [lia | reflexivity]. }
    rewrite Hend. cbn [List.length repeat run].
    rewrite Hsplit, (skipn_all2 files Hlast), app_nil_r. fold s1. reflexivity.
Qed.

(** X24.  A pass that runs alone, from the call to the end of its last batch,
    the calls of a batch taken in the order of the batch: the files that
    [glob] found are indexed one after the other, each once and in the
    order of the list, in as many batches as the length of the list divided
    by 10, rounded up; then the statistics row holds the number of files
    and of chunks, the flag is down and no pass is left. *)
Theorem indexCodebase_indexes_every_file_once_and_ends :
  forall (fs : FileSystem) (files : list string) (now : Z) (times : Z * Z) (s : State),
    isIndexing s = false ->
    running s = [] ->
    run_events
      (Call now :: GlobResolved 0 files times
       :: repeat (BatchSettled 0 fs times) ((List.length files + 9) / 10))
      s
    = Some (Measures.finished now files times (S (globCalls s))
              (snd (for_each files (index_file fs) s))).
Proof.
  intros fs files now times s Hflag Hnone.
  destruct (BatchFacts.batches_from_spec 10 files ltac:(lia) (List.length files) 0
              ltac:(lia)) as (_ & _ & Hcount).
  replace (List.length files - 0 + 10 - 1)%nat with (List.length files + 9)%nat
    in Hcount by lia.
  rewrite <- Hcount.
  cbn [run step]. rewrite Hflag, Hnone. cbn [app nth_error running].
  destruct files as [|file files].
  - reflexivity.
  - change (0 <? List.length (file :: files))%nat with true. cbv iota.
    apply (rounds_from fs (file :: files) now times (S (globCalls s))
             (List.length (file :: files)) 0 s); simpl; lia.
Qed.

End Service.

(** ** Instances *)

Local Abbreviation embeds_10 := (Samples.always (Samples.embeds [1; 0]%R)).

Lemma embeds_10_answers : E.answers Samples.cfg embeds_10 (fun _ => [1; 0]%R).
Proof.
  intros k text0. eexists. eexists.
  split; [reflexivity|]. split; [reflexivity|]. split; reflexivity.
Qed.

(** The file [a.ts], indexed with an older time, and a chunker that fails. *)
Lemma indexFile_leaves_no_row_when_the_chunker_throws_witness :
  indexFile Samples.cfg embeds_10 Samples.projectRoot Samples.extname Samples.relative
    None MoreSamples.broken_chunker None
    {| mtimeMs := fun _ => inr 20; readFile := fun _ => inr "export const" |}
    Samples.a_ts (Samples.indexed [1; 0]%R)
  = (inr tt,
     set_chunks (rows_of_others Samples.a_ts (code_chunks (Samples.indexed [1; 0]%R)))
       (Samples.indexed [1; 0]%R))
  /\ rows_of_file Samples.a_ts
       (code_chunks
          (snd (indexFile Samples.cfg embeds_10 Samples.projectRoot Samples.extname
                  Samples.relative None MoreSamples.broken_chunker None
                  {| mtimeMs := fun _ => inr 20; readFile := fun _ => inr "export const" |}
                  Samples.a_ts (Samples.indexed [1; 0]%R)))) = []
  /\ net (snd (indexFile Samples.cfg embeds_10 Samples.projectRoot Samples.extname
                 Samples.relative None MoreSamples.broken_chunker None
                 {| mtimeMs := fun _ => inr 20; readFile := fun _ => inr "export const" |}
                 Samples.a_ts (Samples.indexed [1; 0]%R)))
     = net (Samples.indexed [1; 0]%R).
Proof.
  apply (indexFile_leaves_no_row_when_the_chunker_throws Samples.cfg embeds_10
           Samples.projectRoot Samples.extname Samples.relative None
           MoreSamples.broken_chunker None
           {| mtimeMs := fun _ => inr 20; readFile := fun _ => inr "export const" |}
           Samples.a_ts (Samples.indexed [1; 0]%R) 20 "export const"
           (Error "Unexpected token")).
  - reflexivity.
  - reflexivity.
  - intros stored [= <-]. lia.
  - reflexivity.
  - reflexivity.
Defined.

(** The file [a.ts] indexed into empty tables: one chunk, one request. *)
Lemma indexFile_sends_one_request_per_chunk_witness :
  E.requests
    (net (snd (indexFile Samples.cfg embeds_10 Samples.projectRoot Samples.extname
                 Samples.relative None Samples.whole_file None
                 Samples.disk Samples.a_ts Samples.fresh_index)))
  = (E.requests (net Samples.fresh_index) + List.length [MoreSamples.a_ts_chunk])%nat.
Proof.
  apply (indexFile_sends_one_request_per_chunk Samples.cfg embeds_10
           Samples.projectRoot Samples.extname Samples.relative None
           Samples.whole_file None (fun _ => [1; 0]%R)
           Samples.disk Samples.a_ts Samples.fresh_index 10 "export const x = 1"
           [MoreSamples.a_ts_chunk]).
  - reflexivity.
  - exact embeds_10_answers.
  - reflexivity.
  - reflexivity.
  - intros stored Hstored. discriminate Hstored.
  - reflexivity.
  - reflexivity.
Defined.

(** The file [a.ts], indexed and not modified since, removed and indexed
    again. *)
Lemma removeFile_then_indexFile_indexes_the_file_again_witness :
  let removed := snd (removeFile Samples.a_ts (Samples.indexed [1; 0]%R)) in
  code_chunks removed
  = rows_of_others Samples.a_ts (code_chunks (Samples.indexed [1; 0]%R))
  /\ stored_last_modified Samples.a_ts (code_chunks removed) = None
  /\ code_chunks
       (snd (indexFile Samples.cfg embeds_10 Samples.projectRoot Samples.extname
               Samples.relative None Samples.whole_file None
               Samples.disk Samples.a_ts removed))
     = rows_of_others Samples.a_ts (code_chunks (Samples.indexed [1; 0]%R))
       ++ map (fun chunk => row_of Samples.a_ts
                              (Samples.relative Samples.projectRoot Samples.a_ts)
                              10 chunk [1; 0]%R)
            [MoreSamples.a_ts_chunk].
Proof.
  apply (removeFile_then_indexFile_indexes_the_file_again Samples.cfg embeds_10
           Samples.projectRoot Samples.extname Samples.relative None
           Samples.whole_file None (fun _ => [1; 0]%R)
           Samples.disk Samples.a_ts (Samples.indexed [1; 0]%R) 10
           "export const x = 1" [MoreSamples.a_ts_chunk]).
  - reflexivity.
  - exact embeds_10_answers.
  - reflexivity.
  - reflexivity.
  - reflexivity.
  - reflexivity.
  - repeat constructor. simpl. tauto.
  - intros chunk _ Hin. exact Hin.
Defined.

(** A query vector of one component against the stored vector of [a.ts]. *)
Lemma searchSimilar_returns_nothing_on_a_vector_of_other_length_witness :
  searchSimilar Samples.cfg (Samples.always (Samples.embeds [1%R])) "constant" None
    (Samples.indexed [1; 0]%R)
  = (inr [], set_net (E.sent (E.sent E.net0)) (Samples.indexed [1; 0]%R)).
Proof.
  apply (searchSimilar_returns_nothing_on_a_vector_of_other_length Samples.cfg
           (Samples.always (Samples.embeds [1%R])) "constant" None
           (Samples.indexed [1; 0]%R)
           {| E.embedding := [1%R]; E.tokens := 4;
              E.result_model := E.defaultModel Samples.cfg |}
           (E.sent (E.sent E.net0))).
  - reflexivity.
  - apply Exists_cons_hd. simpl. lia.
Defined.

(** A pass over a project whose only file is [a.ts]. *)
Lemma indexCodebase_indexes_every_file_once_and_ends_witness :
  run Samples.cfg embeds_10 Samples.projectRoot Samples.extname Samples.relative None
    Samples.whole_file None
    (Call 100 :: GlobResolved 0 [Samples.a_ts] (130, 131)
     :: repeat (BatchSettled 0 Samples.disk (130, 131))
          ((List.length [Samples.a_ts] + 9) / 10))
    Samples.fresh_index
  = Some (Measures.finished 100 [Samples.a_ts] (130, 131)
            (S (globCalls Samples.fresh_index))
            (snd (for_each [Samples.a_ts]
                    (indexFile Samples.cfg embeds_10 Samples.projectRoot Samples.extname
                       Samples.relative None Samples.whole_file None Samples.disk)
                    Samples.fresh_index))).
Proof.
  apply (indexCodebase_indexes_every_file_once_and_ends Samples.cfg embeds_10
           Samples.projectRoot Samples.extname Samples.relative None
           Samples.whole_file None Samples.disk [Samples.a_ts] 100 (130, 131)
           Samples.fresh_index); reflexivity.
Defined.

End PassFacts.

(* ===================================================================== *)
(** * Properties of the file watcher *)
(* ===================================================================== *)

Module WatcherFacts.
Import Js IndexWatcher.
Local Open Scope list_scope.

Lemma clearTimeout_only (t : nat) : clearTimeout t [t] = [].
Proof. unfold clearTimeout. simpl. rewrite Nat.eqb_refl. reflexivity. Qed.

Lemma set_add_idem (x : string) (set : list string) :
  set_add x (set_add x set) = set_add x set.
Proof.
  unfold set_add. destruct (existsb (String.eqb x) set) eqn:Hin.
  - rewrite Hin. reflexivity.
  - rewrite existsb_app, Hin. simpl. rewrite String.eqb_refl. reflexivity.
Qed.

(** The timers left when the timer held by the service is cleared. *)
Lemma cleared_timers (w : Watcher) :
  timers_ok w ->
  match debounceTimer w with
  | Some old => clearTimeout old (live w)
  | None => live w
  end = [].
Proof.
  intros [Hnone | (t & Hone & Hheld)].
  - rewrite Hnone. destruct (debounceTimer w); reflexivity.
  - rewrite Hone, Hheld. apply clearTimeout_only.
Qed.

Section Service.
Variable cfg : E.Config.
Variable fetch : E.Network.
Variable projectRoot : string.
Variable extname : string -> string.
Variable relative : string -> string -> string.
Variable ignoreFilter : option (string -> bool).
Variable chunkCode : string -> I.Language -> Result (list I.CodeChunk).
Variable EMBEDDING_BACKEND : option string.
Variable join : string -> string -> string.
Variable enableAutoIndex : bool.

Local Abbreviation should_index :=
  (I.shouldIndexFile projectRoot extname relative ignoreFilter).
Local Abbreviation index_file :=
  (I.indexFile cfg fetch projectRoot extname relative ignoreFilter chunkCode
     EMBEDDING_BACKEND).
Local Abbreviation notified :=
  (on_change projectRoot extname relative ignoreFilter join).
Local Abbreviation drain :=
  (processIndexQueue cfg fetch projectRoot extname relative ignoreFilter chunkCode
     EMBEDDING_BACKEND).
Local Abbreviation step1 :=
  (step cfg fetch projectRoot extname relative ignoreFilter chunkCode EMBEDDING_BACKEND
     join enableAutoIndex).
Local Abbreviation run_events :=
  (run cfg fetch projectRoot extname relative ignoreFilter chunkCode EMBEDDING_BACKEND
     join enableAutoIndex).
Local Abbreviation is_reachable :=
  (reachable cfg fetch projectRoot extname relative ignoreFilter chunkCode
     EMBEDDING_BACKEND join enableAutoIndex).

Lemma drain_keeps_timers (fs : I.FileSystem) (w : Watcher) :
  live (drain fs w) = live w /\ debounceTimer (drain fs w) = debounceTimer w.
Proof.
  unfold processIndexQueue.
  destruct ((List.length (indexQueue w) =? 0)%nat || I.isIndexing (svc w));
    split; reflexivity.
Qed.

Lemma notified_timers_ok (filename : option string) (w : Watcher) :
  timers_ok w -> timers_ok (notified filename w).
Proof.
  intros Hok. unfold on_change. destruct filename as [name|]; [|exact Hok].
  destruct (truthy name); [|exact Hok]. cbn [negb].
  destruct (should_index (join projectRoot name)); [|exact Hok].
  right. exists (nextTimer w). cbn [live debounceTimer].
  rewrite (cleared_timers w Hok). split; reflexivity.
Qed.

Lemma step_timers_ok (ev : Event) (w w' : Watcher) :
  timers_ok w -> step1 ev w = Some w' -> timers_ok w'.
Proof.
  intros Hok Hstep. destruct ev as [| | filename | handle fs | ev0]; simpl in Hstep.
  - injection Hstep as <-. unfold startWatching.
    destruct (watching w || negb enableAutoIndex); exact Hok.
  - injection Hstep as <-. left. cbn [live stopWatching].
    apply cleared_timers, Hok.
  - destruct (watching w); [|discriminate]. injection Hstep as <-.
    apply notified_timers_ok, Hok.
  - destruct (existsb (Nat.eqb handle) (live w)) eqn:Hlive; [|discriminate].
    injection Hstep as <-. left.
    destruct (drain_keeps_timers fs
                {| svc := svc w; watching := watching w; indexQueue := indexQueue w;
                   debounceTimer := debounceTimer w;
                   live := clearTimeout handle (live w);
                   nextTimer := nextTimer w |}) as [-> _].
    cbn [live]. destruct Hok as [Hnone | (t & Hone & _)].
    + rewrite Hnone. reflexivity.
    + rewrite Hone in Hlive |- *. simpl in Hlive. rewrite orb_false_r in Hlive.
      apply Nat.eqb_eq in Hlive. subst handle. apply clearTimeout_only.
  - destruct (I.step _ _ _ _ _ _ _ _ ev0 (svc w)) as [[s' out]|]; [|discriminate].
    injection Hstep as <-. exact Hok.
Qed.

Lemma run_timers_ok (evs : list Event) : forall w w',
  timers_ok w -> run_events evs w = Some w' -> timers_ok w'.
Proof.
  induction evs as [|ev evs IH]; intros w w' Hok Hrun; simpl in Hrun.
  - injection Hrun as <-. exact Hok.
  - destruct (step1 ev w) as [w1|] eqn:Hstep; [|discriminate].
    exact (IH w1 w' (step_timers_ok ev w w1 Hok Hstep) Hrun).
Qed.

(** X25.  In every state that the service and its watcher can reach, at most one
    drain of the queue is scheduled, and the scheduled one is the timer that
    [debounceTimer] holds: a notification or [stopWatching] cancels the
    drain scheduled before. *)
Theorem watcher_schedules_at_most_one_drain :
  forall w : Watcher,
    is_reachable w ->
    (List.length (live w) <= 1)%nat
    /\ forall t, In t (live w) -> debounceTimer w = Some t.
Proof.
  intros w (w0 & evs & (_ & _ & _ & _ & Hnone) & Hrun).
  assert (Hok : timers_ok w).
  { apply (run_timers_ok evs w0 w); [left; exact Hnone | exact Hrun]. }
  destruct Hok as [Hempty | (t & Hone & Hheld)].
  - rewrite Hempty. split; [simpl; lia | intros t []].
  - rewrite Hone. split; [simpl; lia|]. intros t' [<- | []]. exact Hheld.
Qed.

(** ** Debouncing *)

Lemma notified_once (name : string) (w : Watcher) :
  timers_ok w ->
  truthy name = true ->
  should_index (join projectRoot name) = true ->
  notified (Some name) w
  = {| svc := svc w;
       watching := watching w;
       indexQueue := set_add (join projectRoot name) (indexQueue w);
       debounceTimer := Some (nextTimer w);
       live := [nextTimer w];
       nextTimer := S (nextTimer w) |}.
Proof.
  intros Hok Htruthy Hshould. unfold on_change.
  rewrite Htruthy, Hshould, (cleared_timers w Hok). reflexivity.
Qed.

Lemma notified_many (name : string) : forall (k : nat) (w : Watcher),
  timers_ok w ->
  watching w = true ->
  truthy name = true ->
  should_index (join projectRoot name) = true ->
  run_events (repeat (Notify (Some name)) (S k)) w
  = Some {| svc := svc w;
            watching := true;
            indexQueue := set_add (join projectRoot name) (indexQueue w);
            debounceTimer := Some (nextTimer w + k)%nat;
            live := [(nextTimer w + k)%nat];
            nextTimer := (nextTimer w + S k)%nat |}.
Proof.
  induction k as [|k IH]; intros w Hok Hwatching Htruthy Hshould.
  - cbn [repeat run step]. rewrite Hwatching, notified_once by assumption.
    rewrite Hwatching, Nat.add_0_r, Nat.add_1_r. reflexivity.
  - change (repeat (Notify (Some name)) (S (S k)))
      with (Notify (Some name) :: repeat (Notify (Some name)) (S k)).
    cbn [run step]. rewrite Hwatching, notified_once by assumption.
    rewrite IH; try assumption.
    + cbn [svc indexQueue nextTimer]. rewrite set_add_idem.
      do 2 f_equal; try (f_equal; lia). lia.
    + right. exists (nextTimer w). split; reflexivity.
Qed.

(** X26.  Any number of notifications for one file, followed by the firing of
    the last timer, index the file once: the earlier timers were cancelled
    and cannot fire; the queue holds the file once and is empty afterwards.
    (The watcher is set, the queue was empty, and no pass is in progress.) *)
Theorem notifications_of_one_file_are_indexed_once :
  forall (name : string) (k : nat) (fs : I.FileSystem) (w : Watcher),
    timers_ok w ->
    watching w = true ->
    indexQueue w = [] ->
    I.isIndexing (svc w) = false ->
    truthy name = true ->
    should_index (join projectRoot name) = true ->
    run_events (repeat (Notify (Some name)) (S k) ++ [Fire (nextTimer w + k) fs]) w
    = Some {| svc := snd (index_file fs (join projectRoot name) (svc w));
              watching := true;
              indexQueue := [];
              debounceTimer := Some (nextTimer w + k)%nat;
              live := [];
              nextTimer := (nextTimer w + S k)%nat |}
    /\ forall j w1,
         (j < k)%nat ->
         run_events (repeat (Notify (Some name)) (S k)) w = Some w1 ->
         step1 (Fire (nextTimer w + j) fs) w1 = None.
Proof.
  intros name k fs w Hok Hwatching Hqueue Hidle Htruthy Hshould.
  pose proof (notified_many name k w Hok Hwatching Htruthy Hshould) as Hmany.
  rewrite Hqueue in Hmany. split.
  - assert (Hrun : forall evs1 evs2 w0 w1,
               run_events evs1 w0 = Some w1 ->
               run_events (evs1 ++ evs2) w0 = run_events evs2 w1).
    { induction evs1 as [|ev evs1 IH]; intros evs2 w0 w1 H1; simpl in *.
      - injection H1 as <-. reflexivity.
      - destruct (step1 ev w0) as [w0'|]; [|discriminate]. apply IH, H1. }
    rewrite (Hrun _ _ _ _ Hmany). cbn [run step live].
    cbn [existsb]. rewrite Nat.eqb_refl. cbn [orb].
    unfold processIndexQueue. cbn [indexQueue svc set_add existsb app List.length].
    rewrite Hidle. cbn [Nat.eqb orb]. rewrite clearTimeout_only.
    cbn [I.for_each]. unfold bind.
    destruct (IndexerFacts.indexFile_frame cfg fetch projectRoot extname relative
                ignoreFilter chunkCode EMBEDDING_BACKEND fs (join projectRoot name)
                (svc w)) as (s' & Hfile & _).
    rewrite Hfile. reflexivity.
  - intros j w1 Hj Hrun1. rewrite Hmany in Hrun1. injection Hrun1 as <-.
    cbn [step live existsb].
    destruct (Nat.eqb_spec (nextTimer w + j) (nextTimer w + k)); [lia | reflexivity].
Qed.

(** X27.  A drain that fires while a pass of [indexCodebase] is in progress does
    nothing: no file is indexed, the queue keeps its files, and no other
    drain is scheduled, so the files wait for the next notification. *)
Theorem drain_during_a_pass_leaves_the_queue_waiting :
  forall (handle : nat) (fs : I.FileSystem) (w : Watcher),
    timers_ok w ->
    In handle (live w) ->
    I.isIndexing (svc w) = true ->
    step1 (Fire handle fs) w
    = Some {| svc := svc w;
              watching := watching w;
              indexQueue := indexQueue w;
              debounceTimer := debounceTimer w;
              live := [];
              nextTimer := nextTimer w |}.
Proof.
  intros handle fs w Hok Hin Hbusy.
  destruct Hok as [Hnone | (t & Hone & _)]; [rewrite Hnone in Hin; destruct Hin|].
  rewrite Hone in Hin. destruct Hin as [<- | []].
  cbn [step]. rewrite Hone. cbn [existsb]. rewrite Nat.eqb_refl. cbn [orb].
  unfold processIndexQueue. cbn [svc indexQueue]. rewrite Hbusy, orb_true_r.
  rewrite clearTimeout_only. reflexivity.
Qed.

End Service.

(** ** Instances *)

Local Abbreviation embeds_10 := (Samples.always (Samples.embeds [1; 0]%R)).

(** The watcher is set and [a.ts] changes. *)
Lemma watcher_schedules_at_most_one_drain_witness :
  (List.length (live MoreSamples.notified_watcher) <= 1)%nat
  /\ forall t, In t (live MoreSamples.notified_watcher) ->
               debounceTimer MoreSamples.notified_watcher = Some t.
Proof.
  apply (watcher_schedules_at_most_one_drain Samples.cfg embeds_10 Samples.projectRoot
           Samples.extname Samples.relative None Samples.whole_file None
           MoreSamples.join true MoreSamples.notified_watcher).
  exists MoreSamples.new_watcher, [Start; Notify (Some "src/a.ts")].
  split; [|reflexivity].
  split; [split; reflexivity|]. repeat split.
Defined.

(** Three notifications for [a.ts], then the third timer fires. *)
Lemma notifications_of_one_file_are_indexed_once_witness :
  run Samples.cfg embeds_10 Samples.projectRoot Samples.extname Samples.relative None
    Samples.whole_file None MoreSamples.join true
    (repeat (Notify (Some "src/a.ts")) 3 ++ [Fire 2 Samples.disk])
    MoreSamples.idle_watcher
  = Some {| svc := snd (I.indexFile Samples.cfg embeds_10 Samples.projectRoot
                          Samples.extname Samples.relative None Samples.whole_file None
                          Samples.disk Samples.a_ts Samples.fresh_index);
            watching := true;
            indexQueue := [];
            debounceTimer := Some 2%nat;
            live := [];
            nextTimer := 3 |}
  /\ forall j w1,
       (j < 2)%nat ->
       run Samples.cfg embeds_10 Samples.projectRoot Samples.extname Samples.relative
         None Samples.whole_file None MoreSamples.join true
         (repeat (Notify (Some "src/a.ts")) 3) MoreSamples.idle_watcher = Some w1 ->
       step Samples.cfg embeds_10 Samples.projectRoot Samples.extname Samples.relative
         None Samples.whole_file None MoreSamples.join true
         (Fire (0 + j) Samples.disk) w1 = None.
Proof.
  apply (notifications_of_one_file_are_indexed_once Samples.cfg embeds_10
           Samples.projectRoot Samples.extname Samples.relative None
           Samples.whole_file None MoreSamples.join true
           "src/a.ts" 2 Samples.disk MoreSamples.idle_watcher).
  - left. reflexivity.
  - reflexivity.
  - reflexivity.
  - reflexivity.
  - reflexivity.
  - reflexivity.
Defined.

(** The timer of [a.ts] fires while a pass waits for [glob]. *)
Lemma drain_during_a_pass_leaves_the_queue_waiting_witness :
  step Samples.cfg embeds_10 Samples.projectRoot Samples.extname Samples.relative None
    Samples.whole_file None MoreSamples.join true
    (Fire 0 Samples.disk) MoreSamples.busy_watcher
  = Some {| svc := Samples.busy_index;
            watching := true;
            indexQueue := [Samples.a_ts];
            debounceTimer := Some 0%nat;
            live := [];
            nextTimer := 1 |}.
Proof.
  apply (drain_during_a_pass_leaves_the_queue_waiting Samples.cfg embeds_10
           Samples.projectRoot Samples.extname Samples.relative None
           Samples.whole_file None MoreSamples.join true
           0%nat Samples.disk MoreSamples.busy_watcher).
  - right. exists 0%nat. split; reflexivity.
  - left. reflexivity.
  - reflexivity.
Defined.

End WatcherFacts.

(* ===================================================================== *)
(** * Properties of the hybrid search *)
(* ===================================================================== *)

Module HybridSearchFacts.
Import Js QdrantCollection.
Local Open Scope list_scope.

Section Client.
Variable Collection : Type.
Variable client_search :
  list R -> Z -> option Q.Filter -> Collection -> Result (list Q.SearchResult).
Variable client_query :
  list R -> Q.SparseVector -> Z -> Z -> option Q.Filter -> Collection
  -> Result (list QueryPoint).

Local Abbreviation hybrid := (searchHybrid Collection client_search client_query).
Local Abbreviation dense := (Q.searchDense Collection client_search).

(** X28.  [searchHybrid] is the dense search when no sparse vector is given, when
    the sparse vector has no index, and when the hybrid query throws; so it
    returns a list whenever the dense search does, whatever the hybrid
    query does.  When the hybrid query answers, its points are returned in
    its order, a missing score counting as 0. *)
Theorem searchHybrid_falls_back_to_the_dense_search :
  forall (denseVector : list R) (sparseVector : option Q.SparseVector)
         (options : Q.SearchOptions) (c : Collection),
    (sparseVector = None
     \/ (exists sv, sparseVector = Some sv /\ Q.indices sv = [])
     \/ (exists sv e,
           sparseVector = Some sv
           /\ client_query denseVector sv (Q.limit_of options) (Q.limit_of options * 2)
                (Q.filter options) c = inl e) ->
     hybrid denseVector sparseVector options c = dense denseVector options c)
    /\ (forall found,
          client_search denseVector (Q.limit_of options) (Q.filter options) c
          = inr found ->
          exists results, hybrid denseVector sparseVector options c = (inr results, c))
    /\ (forall sv points,
          sparseVector = Some sv ->
          Q.indices sv <> [] ->
          client_query denseVector sv (Q.limit_of options) (Q.limit_of options * 2)
            (Q.filter options) c = inr points ->
          exists results,
            hybrid denseVector sparseVector options c = (inr results, c)
            /\ map Q.result_id results = map point_id points
            /\ map Q.score results = map score_or_0 points
            /\ map Q.result_payload results = map point_payload points).
Proof.
  intros denseVector sparseVector options c. split; [|split].
  - intros [-> | [(sv & -> & Hempty) | (sv & e & -> & Hquery)]].
    + reflexivity.
    + unfold searchHybrid. rewrite Hempty. reflexivity.
    + unfold searchHybrid, try_catch, bind.
      destruct (List.length (Q.indices sv) =? 0)%nat; [reflexivity|].
      rewrite Hquery. reflexivity.
  - intros found Hfound. unfold searchHybrid.
    assert (Hdense : dense denseVector options c = (inr found, c))
      by (unfold Q.searchDense; rewrite Hfound; reflexivity).
    destruct sparseVector as [sv|]; [|eexists; exact Hdense].
    destruct (List.length (Q.indices sv) =? 0)%nat; [eexists; exact Hdense|].
    unfold try_catch, bind.
    destruct (client_query _ _ _ _ _ c) as [e|points].
    + eexists. exact Hdense.
    + eexists. reflexivity.
  - intros sv points -> Hsome Hquery. unfold searchHybrid, try_catch, bind, ret.
    destruct (Q.indices sv) as [|i rest] eqn:Hindices; [congruence|].
    cbn [List.length Nat.eqb]. rewrite Hquery.
    eexists. split; [reflexivity|]. rewrite !map_map. repeat split.
Qed.

End Client.

End HybridSearchFacts.
